(** * RAG pipeline of OktaySavdi/AI: chunking, loading, memory store, retrieval

    A shallow embedding of [RAG/ingest_documents.py] and [RAG/rag_example.py].
    Python [str] values are sequences of Unicode code points, [int] values are
    unbounded integers, [float] values are IEEE 754 doubles, and a call that
    may raise returns a [result]. *)

From Stdlib Require Import String Ascii DecimalString DecimalNat DecimalN.
From Stdlib Require Import DecimalPos SpecFloat.
From Stdlib Require Import ZArith NArith QArith Qround Qabs List Bool Lia Lqa.
Import ListNotations.
Open Scope Z_scope.
Set Warnings "-register-all".

(** ** Python built-ins used by the scripts *)

Module Py.

(** A [str] is a sequence of code points. *)
Definition char : Set := N.
Definition str : Set := list char.

(** A literal of the source, for readable examples. *)
Definition lit (s : string) : str := map N_of_ascii (list_ascii_of_string s).

Definition len {A : Type} (s : list A) : Z := Z.of_nat (length s).

(** Index adjustment of [s[a:b]]: a negative bound counts from the end,
    and every bound is clipped to [0, len s]. *)
Definition norm_index (n i : Z) : Z :=
  if i <? 0 then Z.max 0 (i + n) else Z.min i n.

(** [s[a:b]] *)
Definition slice {A : Type} (s : list A) (a b : Z) : list A :=
  let a' := norm_index (len s) a in
  let b' := norm_index (len s) b in
  firstn (Z.to_nat (b' - a')) (skipn (Z.to_nat a') s).

Fixpoint startswith (s sub : str) : bool :=
  match sub, s with
  | [], _ => true
  | _ :: _, [] => false
  | c :: sub', d :: s' => N.eqb c d && startswith s' sub'
  end.

(** [rfind_from i s sub]: the highest index of an occurrence of [sub] in
    [s], where [s] starts at index [i] of the whole string; [-1] if none. *)
Fixpoint rfind_from (i : Z) (s sub : str) : Z :=
  match s with
  | [] => if startswith [] sub then i else -1
  | _ :: s' =>
      let r := rfind_from (i + 1) s' sub in
      if 0 <=? r then r else if startswith s sub then i else -1
  end.

(** [s.rfind(sub)] *)
Definition rfind (s sub : str) : Z := rfind_from 0 s sub.

(** [c.isspace()] for one code point: the white space that [str.strip()]
    removes. *)
Definition isspace (c : char) : bool :=
  ((9 <=? c) && (c <=? 13) || (28 <=? c) && (c <=? 32)
   || (c =? 133) || (c =? 160) || (c =? 5760)
   || (8192 <=? c) && (c <=? 8202)
   || (c =? 8232) || (c =? 8233) || (c =? 8239) || (c =? 8287)
   || (c =? 12288))%N.

Fixpoint lstrip (s : str) : str :=
  match s with
  | c :: s' => if isspace c then lstrip s' else s
  | [] => []
  end.

Definition rstrip (s : str) : str := rev (lstrip (rev s)).

(** [s.strip()] *)
Definition strip (s : str) : str := rstrip (lstrip s).

(** Truth value of a [str]: non-empty. *)
Definition truthy (s : str) : bool :=
  match s with [] => false | _ :: _ => true end.

(** [str(n)] for a non-negative [int]. *)
Definition str_of_nat (n : nat) : str :=
  lit (NilEmpty.string_of_uint (Nat.to_uint n)).

(** The same for a number in binary. *)
Definition str_of_N (n : N) : str :=
  lit (NilEmpty.string_of_uint (N.to_uint n)).

(** [sep.join(parts)] *)
Fixpoint join (sep : str) (parts : list str) : str :=
  match parts with
  | [] => []
  | [p] => p
  | p :: rest => p ++ sep ++ join sep rest
  end.

(** [enumerate(xs, k)] *)
Fixpoint enumerate {A : Type} (k : nat) (xs : list A) : list (nat * A) :=
  match xs with
  | [] => []
  | x :: xs' => (k, x) :: enumerate (S k) xs'
  end.

(** The exceptions the scripts can meet, all subclasses of [Exception]. *)
Inductive exn : Set :=
| ImportError | FileNotFoundError | PermissionError | TimeoutExpired
| UnicodeEncodeError | JSONDecodeError
| AttributeError | TypeError | ValueError | KeyError | OverflowError
| OtherError.

(** Outcome of a call that may raise. *)
Inductive result (A : Type) : Type :=
| Ok (a : A)
| Raise (e : exn).
Arguments Ok {A} a.
Arguments Raise {A} e.

Definition bind {A B : Type} (r : result A) (k : A -> result B) : result B :=
  match r with Ok a => k a | Raise e => Raise e end.

(** A [float]: a double, that is a zero, an infinity, a NaN, or
    [(-1)**s * m * 2**e] with at most 53 bits in [m]. *)
Definition float : Set := spec_float.

Definition PREC : Z := 53.
Definition EMAX : Z := 1024.

(** The nearest double to [m * 2**e], ties to even. *)
Definition nearest_double (m e : Z) : float :=
  binary_normalize PREC EMAX m e false.

(** [float(n)] for an [int]: the nearest double; an [int] beyond the
    largest double raises. *)
Definition float_of_int (n : Z) : result float :=
  match nearest_double n 0 with
  | S754_infinity _ => Raise OverflowError
  | f => Ok f
  end.

(** What a decimal literal such as [0.3] denotes: the nearest double to
    the quotient [n / d] of two integers that doubles hold exactly. *)
Definition float_of_ratio (n d : Z) : float :=
  SFdiv PREC EMAX (nearest_double n 0) (nearest_double d 0).

(** The exact value [m * 2**e]. *)
Definition magnitude (m : positive) (e : Z) : Q :=
  if 0 <=? e then inject_Z (Z.pos m * 2 ^ e)
  else Z.pos m # Z.to_pos (2 ^ (- e)).

(** A [dict] with [str] keys, in insertion order. *)
Definition dict (V : Type) : Type := list (str * V).

(** [a == b] *)
Fixpoint str_eqb (a b : str) : bool :=
  match a, b with
  | [], [] => true
  | x :: a', y :: b' => N.eqb x y && str_eqb a' b'
  | _, _ => false
  end.

(** [d.get(key)]; [None] when the key is absent. *)
Fixpoint dict_get {V : Type} (d : dict V) (key : str) : option V :=
  match d with
  | [] => None
  | (k, v) :: d' => if str_eqb k key then Some v else dict_get d' key
  end.

(** A Python object of the shape [json.loads] produces: [None], [bool],
    [int], [float], [str], [list] and [dict]. *)
Inductive json : Type :=
| JNull
| JBool (b : bool)
| JInt (n : Z)
| JFloat (f : float)
| JStr (s : str)
| JArr (items : list json)
| JObj (members : dict json).

(** [d.get(key, default)] *)
Definition get_default (d : dict json) (key : str) (default : json) : json :=
  match dict_get d key with Some v => v | None => default end.

End Py.
Import Py.

(** ** [ingest_documents.py]: [DocumentLoader._chunk_text] *)

Module DocumentLoader.

Definition SEP_PARA : str := lit (String (ascii_of_nat 10) (String (ascii_of_nat 10) EmptyString)).
Definition SEP_PERIOD : str := lit ". ".
Definition SEP_NEWLINE : str := lit (String (ascii_of_nat 10) EmptyString).

(** The break point chosen inside a window that does not reach the end of
    the text. *)
Definition break_point (chunk : str) (chunk_size : Z) : Z :=
  let last_para := rfind chunk SEP_PARA in
  let last_period := rfind chunk SEP_PERIOD in
  let last_newline := rfind chunk SEP_NEWLINE in
  if chunk_size / 2 <? last_para then last_para + 2
  else if chunk_size / 2 <? last_period then last_period + 2
  else if chunk_size / 2 <? last_newline then last_newline + 1
  else chunk_size.

(** The end of the window that starts at [start]. *)
Definition window_end (text : str) (chunk_size start : Z) : Z :=
  let end_ := start + chunk_size in
  if end_ <? len text
  then start + break_point (slice text start end_) chunk_size
  else end_.

(** The cursor after the iteration that starts at [start]. *)
Definition next_start (text : str) (chunk_size chunk_overlap start : Z) : Z :=
  Z.max (start + 1) (window_end text chunk_size start - chunk_overlap).

(** [chunks.append(chunk)] guarded by [if chunk:] *)
Definition append_if (chunks : list str) (chunk : str) : list str :=
  if truthy chunk then chunks ++ [chunk] else chunks.

(** The [while start < len(text)] loop; [None] when [fuel] iterations did
    not finish it. *)
Fixpoint chunk_loop (fuel : nat) (text : str) (chunk_size chunk_overlap : Z)
         (start : Z) (chunks : list str) : option (list str) :=
  if start <? len text then
    match fuel with
    | O => None
    | S fuel' =>
        let end_ := window_end text chunk_size start in
        let chunk := strip (slice text start end_) in
        chunk_loop fuel' text chunk_size chunk_overlap
                   (Z.max (start + 1) (end_ - chunk_overlap))
                   (append_if chunks chunk)
    end
  else Some chunks.

(** The windows [(start, end)] the loop takes, in order. *)
Fixpoint windows (fuel : nat) (text : str) (chunk_size chunk_overlap : Z)
         (start : Z) : list (Z * Z) :=
  if start <? len text then
    match fuel with
    | O => []
    | S fuel' =>
        let end_ := window_end text chunk_size start in
        (start, end_) ::
          windows fuel' text chunk_size chunk_overlap
                  (Z.max (start + 1) (end_ - chunk_overlap))
    end
  else [].

(** [_chunk_text(text)] with [self.chunk_size], [self.chunk_overlap];
    the cursor moves by at least one, so [len(text)] iterations suffice. *)
Definition _chunk_text (text : str) (chunk_size chunk_overlap : Z)
  : option (list str) :=
  chunk_loop (length text) text chunk_size chunk_overlap 0 [].

End DocumentLoader.

(** ** [rag_example.py]: [chunk_text] *)

Module RagExample.

Definition DOT : str := lit ".".
Definition NEWLINE : str := lit (String (ascii_of_nat 10) EmptyString).

(** The end of the window that starts at [start]. *)
Definition window_end (text : str) (chunk_size start : Z) : Z :=
  let end_ := start + chunk_size in
  if end_ <? len text then
    let chunk := slice text start end_ in
    let break_point := Z.max (rfind chunk DOT) (rfind chunk NEWLINE) in
    if chunk_size / 2 <? break_point then start + break_point + 1 else end_
  else end_.

(** The cursor after the iteration that starts at [start]: no clamp. *)
Definition next_start (text : str) (chunk_size overlap start : Z) : Z :=
  window_end text chunk_size start - overlap.

(** The [while start < len(text)] loop: every stripped window is appended;
    [None] when [fuel] iterations did not finish it. *)
Fixpoint chunk_loop (fuel : nat) (text : str) (chunk_size overlap : Z)
         (start : Z) (chunks : list str) : option (list str) :=
  if start <? len text then
    match fuel with
    | O => None
    | S fuel' =>
        let end_ := window_end text chunk_size start in
        let chunk := slice text start end_ in
        chunk_loop fuel' text chunk_size overlap (end_ - overlap)
                   (chunks ++ [strip chunk])
    end
  else Some chunks.

(** The windows [(start, end)] the loop takes, in order. *)
Fixpoint windows (fuel : nat) (text : str) (chunk_size overlap : Z)
         (start : Z) : list (Z * Z) :=
  if start <? len text then
    match fuel with
    | O => []
    | S fuel' =>
        let end_ := window_end text chunk_size start in
        (start, end_) :: windows fuel' text chunk_size overlap (end_ - overlap)
    end
  else [].

(** [chunk_text(text, chunk_size, overlap)] run for at most [fuel]
    iterations; the final comprehension drops the empty chunks. *)
Definition chunk_text (fuel : nat) (text : str) (chunk_size overlap : Z)
  : option (list str) :=
  match chunk_loop fuel text chunk_size overlap 0 [] with
  | Some chunks => Some (filter truthy chunks)
  | None => None
  end.

End RagExample.

(** ** [ingest_documents.py]: [Document] and the loaders *)

Module Loader.

Definition NL : str := lit (String (ascii_of_nat 10) EmptyString).
Definition NLNL : str := NL ++ NL.

(** A [pathlib.Path]: the components of the parent and the final one. *)
Record Path : Set := mkPath { parent : list str; name : str }.

(** [str(path)] *)
Definition path_str (p : Path) : str := join (lit "/") (parent p ++ [name p]).

(** [path.suffix]: from the last dot of the name, unless the dot is the
    first or the last character. *)
Definition suffix (p : Path) : str :=
  let i := rfind (name p) (lit ".") in
  if (0 <? i) && (i <? len (name p) - 1)
  then slice (name p) i (len (name p)) else [].

(** [path.stem] *)
Definition stem (p : Path) : str :=
  let i := rfind (name p) (lit ".") in
  if (0 <? i) && (i <? len (name p) - 1)
  then slice (name p) 0 i else name p.

(** [s.lower()] on the letters A-Z.  The result is only compared with the
    extensions below, and no other code point lowers to one of their
    letters. *)
Definition lower (s : str) : str :=
  map (fun c => if (65 <=? c) && (c <=? 90) then c + 32 else c)%N s.

(** [s.lstrip('.')] *)
Fixpoint lstrip_dot (s : str) : str :=
  match s with
  | c :: s' => if (c =? 46)%N then lstrip_dot s' else s
  | [] => []
  end.

Record Document : Type := mkDocument {
  content : str;
  title : str;
  uri : str;
  source_file : str;
  tags : dict str
}.

(** What the files of one run hold, as the readers report it. *)
Record FileSystem : Type := mkFS {
  (** [directory.rglob('*')], in the order it yields *)
  rglob : list Path;
  is_file : Path -> bool;
  (** [path.read_text(encoding='utf-8')] *)
  read_text : Path -> result str;
  (** [page.extract_text()] of every page of [PdfReader(path)]; raises
      when pypdf is missing or the file cannot be parsed *)
  pdf_pages : Path -> result (list str);
  (** [para.text] of every paragraph of the Word file *)
  docx_paragraphs : Path -> result (list str)
}.

Section WithLoader.

(** [self.chunk_size], [self.chunk_overlap] *)
Variables (chunk_size chunk_overlap : Z).
Variable fs : FileSystem.

Definition SUPPORTED_EXTENSIONS : list str :=
  [lit ".md"; lit ".txt"; lit ".pdf"; lit ".docx"; lit ".rst"].

Definition mem_str (s : str) (l : list str) : bool := existsb (str_eqb s) l.

(** [f"mv2://docs/{file_path.name}#chunk-{i+1}"] *)
Definition chunk_uri (p : Path) (i : nat) : str :=
  lit "mv2://docs/" ++ name p ++ lit "#chunk-" ++ str_of_nat (i + 1).

(** [f"{file_path.stem} (Part {i+1}/{len(chunks)})"] *)
Definition part_title (p : Path) (i total : nat) : str :=
  stem p ++ lit " (Part " ++ str_of_nat (i + 1) ++ lit "/"
       ++ str_of_nat total ++ lit ")".

(** The [for i, chunk in enumerate(chunks)] loop of [_load_text]. *)
Definition text_documents (p : Path) (chunks : list str) : list Document :=
  map (fun '(i, chunk) =>
         mkDocument chunk
           (if (1 <? len chunks) then part_title p i (length chunks)
            else stem p)
           (chunk_uri p i)
           (path_str p)
           [(lit "type", lstrip_dot (suffix p));
            (lit "chunk", str_of_nat (i + 1));
            (lit "total_chunks", str_of_nat (length chunks))])
      (enumerate 0 chunks).

(** The same loop of [_load_pdf]. *)
Definition pdf_documents (p : Path) (pages : nat) (chunks : list str)
  : list Document :=
  map (fun '(i, chunk) =>
         mkDocument chunk
           (part_title p i (length chunks))
           (chunk_uri p i)
           (path_str p)
           [(lit "type", lit "pdf");
            (lit "chunk", str_of_nat (i + 1));
            (lit "total_chunks", str_of_nat (length chunks));
            (lit "pages", str_of_nat pages)])
      (enumerate 0 chunks).

(** The same loop of [_load_docx]. *)
Definition docx_documents (p : Path) (chunks : list str) : list Document :=
  map (fun '(i, chunk) =>
         mkDocument chunk
           (part_title p i (length chunks))
           (chunk_uri p i)
           (path_str p)
           [(lit "type", lit "docx");
            (lit "chunk", str_of_nat (i + 1));
            (lit "total_chunks", str_of_nat (length chunks))])
      (enumerate 0 chunks).

(** [self._chunk_text(text)]; the loop always finishes, see
    [chunk_text_returns]. *)
Definition chunks_of (text : str) : list str :=
  match DocumentLoader._chunk_text text chunk_size chunk_overlap with
  | Some chunks => chunks
  | None => []
  end.

Definition _load_text (p : Path) : list Document :=
  match read_text fs p with
  | Ok content => text_documents p (chunks_of content)
  | Raise _ => []
  end.

(** [full_text += f"\n\n--- Page {page_num} ---\n\n{text}"] for every
    page with text. *)
Definition pdf_full_text (pages : list str) : str :=
  fold_left
    (fun full_text '(page_num, text) =>
       if truthy text
       then full_text ++ NLNL ++ lit "--- Page " ++ str_of_nat page_num
                      ++ lit " ---" ++ NLNL ++ text
       else full_text)
    (enumerate 1 pages) [].

Definition _load_pdf (p : Path) : list Document :=
  match pdf_pages fs p with
  | Ok pages =>
      pdf_documents p (length pages) (chunks_of (pdf_full_text pages))
  | Raise _ => []
  end.

Definition _load_docx (p : Path) : list Document :=
  match docx_paragraphs fs p with
  | Ok paras =>
      docx_documents p
        (chunks_of (join NLNL (filter (fun t => truthy (strip t)) paras)))
  | Raise _ => []
  end.

Definition load_file (p : Path) : list Document :=
  let sfx := lower (suffix p) in
  if str_eqb sfx (lit ".pdf") then _load_pdf p
  else if str_eqb sfx (lit ".docx") then _load_docx p
  else if mem_str sfx [lit ".md"; lit ".txt"; lit ".rst"] then _load_text p
  else [].

(** [load_directory]: the supported files among the entries, in order. *)
Definition loaded_files : list Path :=
  filter (fun p => is_file fs p
                   && mem_str (lower (suffix p)) SUPPORTED_EXTENSIONS)
         (rglob fs).

Definition load_directory : list Document :=
  flat_map load_file loaded_files.

End WithLoader.

End Loader.

(** ** The external [memvid] command line *)

Module Cli.

(** Outcome of [subprocess.run([...], capture_output=True, ...)]. *)
Inductive run (A : Type) : Type :=
| Exits (returncode : Z) (stdout : A)
| RunRaises (e : exn).
Arguments Exits {A} returncode stdout.
Arguments RunRaises {A} e.

End Cli.

(** ** [ingest_documents.py]: [MemvidIngester] *)

Module MemvidIngester.
Import Cli.

(** The external actions [create_memory] can attempt. *)
Inductive event : Set := SdkCreate | Unlink | CliCreate | WriteJson.

(** How the world answers each of them. *)
Record World : Type := mkWorld {
  (** [import memvid_sdk; memvid_sdk.create(path)] *)
  sdk_create : result unit;
  (** [self.memory_file.exists()] *)
  file_exists : bool;
  (** [self.memory_file.unlink()] *)
  unlink : result unit;
  (** [subprocess.run(["memvid", "create", path], ...)] *)
  cli_create : run unit;
  (** [fallback_file.write_text(...)] *)
  write_json : result unit
}.

Record Ingester : Set := mkIngester {
  memory_file : Loader.Path;
  _sdk_available : bool
}.

(** [path.with_suffix('.json')]; pathlib refuses a path with no name. *)
Definition with_suffix_json (p : Loader.Path) : result Loader.Path :=
  match Loader.name p with
  | [] => Raise ValueError
  | _ => Ok (Loader.mkPath (Loader.parent p) (Loader.stem p ++ lit ".json"))
  end.

Section WithWorld.
Variable w : World.

Definition _create_fallback (self : Ingester)
  : bool * Ingester * list event :=
  match with_suffix_json (memory_file self) with
  | Raise _ => (false, self, [])
  | Ok fallback_file =>
      match write_json w with
      | Ok _ => (true, mkIngester fallback_file (_sdk_available self),
                 [WriteJson])
      | Raise _ => (false, self, [WriteJson])
      end
  end.

(** The handlers of [_create_via_cli]: [FileNotFoundError] goes to the
    fallback, any other exception gives [False]. *)
Definition cli_handler (self : Ingester) (e : exn) (seen : list event)
  : bool * Ingester * list event :=
  match e with
  | FileNotFoundError =>
      let '(r, self', t) := _create_fallback self in (r, self', seen ++ t)
  | _ => (false, self, seen)
  end.

Definition run_cli (self : Ingester) (seen : list event)
  : bool * Ingester * list event :=
  match cli_create w with
  | Exits returncode _ => (returncode =? 0, self, seen ++ [CliCreate])
  | RunRaises e => cli_handler self e (seen ++ [CliCreate])
  end.

Definition _create_via_cli (self : Ingester)
  : bool * Ingester * list event :=
  if file_exists w then
    match unlink w with
    | Ok _ => run_cli self [Unlink]
    | Raise e => cli_handler self e [Unlink]
    end
  else run_cli self [].

Definition create_memory (self : Ingester)
  : bool * Ingester * list event :=
  if _sdk_available self then
    match sdk_create w with
    | Ok _ => (true, self, [SdkCreate])
    | Raise _ =>
        let '(r, self', t) := _create_via_cli self in
        (r, self', SdkCreate :: t)
    end
  else _create_via_cli self.

End WithWorld.

End MemvidIngester.

(** ** Temporary files of the CLI variant *)

Module TempFiles.

(** The temporary files that exist, by name, with what was written. *)
Record TempFS : Set := mkTempFS {
  files : list (nat * str);
  next_name : nat
}.

Definition exists_ (fs : TempFS) (n : nat) : bool :=
  existsb (fun f => Nat.eqb (fst f) n) (files fs).

(** [tempfile.NamedTemporaryFile(mode='w', suffix='.txt', delete=False)]:
    a new empty file under a name not in use. *)
Definition create (fs : TempFS) : nat * TempFS :=
  (next_name fs, mkTempFS ((next_name fs, []) :: files fs) (S (next_name fs))).

(** UTF-8 cannot encode the surrogate code points. *)
Definition utf8_encodable (s : str) : bool :=
  forallb (fun c => negb ((55296 <=? c) && (c <=? 57343)))%N s.

(** [f.write(content)] through the file's text encoding, then the end of
    the [with] block, which closes the file and keeps it. *)
Definition write (encodable : str -> bool) (fs : TempFS) (n : nat)
           (content : str) : result TempFS :=
  if encodable content
  then Ok (mkTempFS
             (map (fun f => if Nat.eqb (fst f) n then (n, content) else f)
                  (files fs))
             (next_name fs))
  else Raise UnicodeEncodeError.

(** [os.unlink(temp_path)] *)
Definition unlink (fs : TempFS) (n : nat) : result TempFS :=
  if exists_ fs n
  then Ok (mkTempFS (filter (fun f => negb (Nat.eqb (fst f) n)) (files fs))
                    (next_name fs))
  else Raise FileNotFoundError.

End TempFiles.

Module IngestCli.
Import Cli TempFiles.

Section WithWorld.
(** The text encoding of temporary files, and the answer of
    [subprocess.run(["memvid", "put", path, "--input", temp_path])]
    for a file holding the given content. *)
Variable encodable : str -> bool.
Variable cli_put : str -> run unit.

(** One iteration of the [for doc in documents] loop of
    [_ingest_via_cli]: the [finally] clause unlinks on every way out of
    the [try]. *)
Definition ingest_one (doc : Loader.Document) (fs : TempFS)
           (success_count : nat) : result nat * TempFS :=
  let '(temp_path, fs1) := create fs in
  match write encodable fs1 temp_path (Loader.content doc) with
  | Raise e => (Raise e, fs1)
  | Ok fs2 =>
      let success_count' :=
        match cli_put (Loader.content doc) with
        | Exits returncode _ =>
            if returncode =? 0 then S success_count else success_count
        | RunRaises _ => success_count
        end in
      match unlink fs2 temp_path with
      | Ok fs3 => (Ok success_count', fs3)
      | Raise e => (Raise e, fs2)
      end
  end.

Fixpoint ingest_loop (documents : list Loader.Document) (fs : TempFS)
         (success_count : nat) : result nat * TempFS :=
  match documents with
  | [] => (Ok success_count, fs)
  | doc :: rest =>
      match ingest_one doc fs success_count with
      | (Ok n, fs') => ingest_loop rest fs' n
      | (Raise e, fs') => (Raise e, fs')
      end
  end.

Definition _ingest_via_cli (documents : list Loader.Document)
           (fs : TempFS) : result nat * TempFS :=
  ingest_loop documents fs 0.

End WithWorld.

End IngestCli.

(** ** [rag_example.py]: [MemvidMemory] *)

Module MemvidMemory.
Import Cli TempFiles.

(** The external actions [create] can attempt. *)
Inductive event : Set := SdkCreate | CliCreate | WriteJson.

Record World : Type := mkWorld {
  (** [import memvid_sdk; memvid_sdk.create(path)] *)
  sdk_create : result unit;
  (** [subprocess.run(["memvid", "create", path], ...)] *)
  cli_create : run unit;
  (** [memvid_sdk.open(path)], [mem.put(...)], [mem.commit()] *)
  sdk_put : str -> result unit;
  (** the text encoding of temporary files *)
  encodable : str -> bool;
  (** [subprocess.run(["memvid", "put", path, "--input", temp_path])] *)
  cli_put : str -> run unit;
  (** [memvid_sdk.open(path).find(query=query, k=top_k)] *)
  sdk_find : str -> Z -> result json;
  (** [subprocess.run(["memvid", "find", path, "--query", query,
      "--limit", str(top_k), "--json"])]; the standard output is given as
      what [json.loads] makes of it *)
  cli_find : str -> Z -> run (result json)
}.

Section WithWorld.
Variable w : World.
(** [self._sdk_available], fixed by [__init__] *)
Variable _sdk_available : bool.

(** [create()]: the SDK when it was importable, the CLI otherwise; only
    [FileNotFoundError] is handled around the CLI call. *)
Definition create : result bool * list event :=
  if _sdk_available then
    match sdk_create w with
    | Ok _ => (Ok true, [SdkCreate])
    | Raise _ => (Ok false, [SdkCreate])
    end
  else
    match cli_create w with
    | Exits returncode _ => (Ok (returncode =? 0), [CliCreate])
    | RunRaises FileNotFoundError => (Ok false, [CliCreate])
    | RunRaises e => (Raise e, [CliCreate])
    end.

(** [add_document(content, ...)] *)
Definition add_document (content : str) (fs : TempFS)
  : result bool * TempFS :=
  if _sdk_available then
    match sdk_put w content with
    | Ok _ => (Ok true, fs)
    | Raise _ => (Ok false, fs)
    end
  else
    let '(temp_path, fs1) := TempFiles.create fs in
    match write (encodable w) fs1 temp_path content with
    | Raise e => (Raise e, fs1)
    | Ok fs2 =>
        (* the handler: unlink, then [False] *)
        let handler :=
          match unlink fs2 temp_path with
          | Ok fs3 => (Ok false, fs3)
          | Raise e => (Raise e, fs2)
          end in
        match cli_put w content with
        | Exits returncode _ =>
            match unlink fs2 temp_path with
            | Ok fs3 => (Ok (returncode =? 0), fs3)
            | Raise _ => handler
            end
        | RunRaises _ => handler
        end
    end.

(** [for hit in v]: a list yields its items, a dict its keys, a string
    its characters; nothing else can be iterated. *)
Definition iterate (v : json) : result (list json) :=
  match v with
  | JArr items => Ok items
  | JObj members => Ok (map (fun kv => JStr (fst kv)) members)
  | JStr s => Ok (map (fun c => JStr [c]) s)
  | _ => Raise TypeError
  end.

(** The dict built for one hit of the SDK. *)
Definition project (hit : json) : result json :=
  match hit with
  | JObj d =>
      Ok (JObj [(lit "text", get_default d (lit "text") (JStr []));
                (lit "title", get_default d (lit "title") (JStr []));
                (lit "score", get_default d (lit "score")
                                          (JFloat (S754_zero false)));
                (lit "uri", get_default d (lit "uri") (JStr []))])
  | _ => Raise AttributeError
  end.

Fixpoint map_result {A B : Type} (f : A -> result B) (l : list A)
  : result (list B) :=
  match l with
  | [] => Ok []
  | x :: l' =>
      bind (f x) (fun y => bind (map_result f l') (fun ys => Ok (y :: ys)))
  end.

(** The body of the [try] of the SDK branch of [search]. *)
Definition sdk_search (query : str) (top_k : Z) : result json :=
  bind (sdk_find w query top_k) (fun response =>
  match response with
  | JObj d =>
      bind (iterate (get_default d (lit "hits") (JArr []))) (fun hits =>
      bind (map_result project hits) (fun l => Ok (JArr l)))
  | _ => Raise AttributeError
  end).

(** The body of the [try] of the CLI branch of [search]. *)
Definition cli_search (query : str) (top_k : Z) : result json :=
  match cli_find w query top_k with
  | Exits returncode stdout =>
      if returncode =? 0 then
        bind stdout (fun parsed =>
        match parsed with
        | JObj d => Ok (get_default d (lit "hits") (JArr []))
        | _ => Raise AttributeError
        end)
      else Ok (JArr [])
  | RunRaises e => Raise e
  end.

(** [search(query, top_k, snippet_chars)]: [except Exception] turns
    every exception of either body into [[]]. *)
Definition search (query : str) (top_k snippet_chars : Z) : result json :=
  match (if _sdk_available then sdk_search query top_k
         else cli_search query top_k) with
  | Ok v => Ok v
  | Raise _ => Ok (JArr [])
  end.

End WithWorld.

End MemvidMemory.

(** ** [rag_example.py]: [InfrastructureRAG.retrieve] *)

Module InfrastructureRAG.

Definition NL : str := lit (String (ascii_of_nat 10) EmptyString).

Definition SENTINEL : str :=
  lit "No relevant documents found in knowledge base.".

(** [not v] is false exactly on the truthy objects. *)
Definition truthy_json (v : json) : bool :=
  match v with
  | JNull => false
  | JBool b => b
  | JInt n => negb (n =? 0)
  | JFloat (S754_zero _) => false
  | JFloat _ => true
  | JStr s => truthy s
  | JArr items => match items with [] => false | _ => true end
  | JObj members => match members with [] => false | _ => true end
  end.

Definition round_half_even (q : Q) : Z :=
  let fl := Qfloor q in
  match Qcompare (q - inject_Z fl)%Q (1 # 2)%Q with
  | Lt => fl
  | Gt => fl + 1
  | Eq => if Z.even fl then fl else fl + 1
  end.

Definition digit_str (n : Z) : str := str_of_N (Z.to_N n).

(** The digits of [f"{x:.2f}"] for a magnitude of exact value [q]: the
    hundredths nearest to it, ties to even. *)
Definition fixed2 (q : Q) : str :=
  let n := round_half_even (q * 100)%Q in
  digit_str (n / 100) ++ lit "."
    ++ digit_str (n mod 100 / 10) ++ digit_str (n mod 10).

Definition sign_str (negative : bool) : str :=
  if negative then lit "-" else [].

(** [f"{x:.2f}"] for a [float]: the sign bit is kept, also on a zero and
    on a value that rounds to zero. *)
Definition format_2f (x : float) : str :=
  match x with
  | S754_nan => lit "nan"
  | S754_infinity s => sign_str s ++ lit "inf"
  | S754_zero s => sign_str s ++ fixed2 0
  | S754_finite s m e => sign_str s ++ fixed2 (magnitude m e)
  end.

(** The double [format(score, ".2f")] renders: a [float] itself, an [int]
    or a [bool] after its conversion; the other objects have no such
    format. *)
Definition as_double (score : json) : result float :=
  match score with
  | JFloat x => Ok x
  | JInt n => float_of_int n
  | JBool b => float_of_int (if b then 1 else 0)
  | JStr _ => Raise ValueError
  | _ => Raise TypeError
  end.

(** [f"{score:.2f}"] *)
Definition format_score (score : json) : result str :=
  bind (as_double score) (fun x => Ok (format_2f x)).

Section WithRepr.
(** [str(v)] for the numbers, lists and dicts. *)
Variable py_repr : json -> str.

(** [f"{title}"] *)
Definition format_title (title : json) : str :=
  match title with
  | JStr s => s
  | JNull => lit "None"
  | JBool true => lit "True"
  | JBool false => lit "False"
  | v => py_repr v
  end.

(** [f"### Document {i}: {title} (relevance: {score:.2f})"] *)
Definition header (i : nat) (title : json) (score : json) : result str :=
  bind (format_score score) (fun s =>
  Ok (lit "### Document " ++ str_of_nat i ++ lit ": " ++ format_title title
       ++ lit " (relevance: " ++ s ++ lit ")")).

(** The three [context_parts.append] of one iteration. *)
Definition hit_parts (i : nat) (hit : json) : result (list json) :=
  match hit with
  | JObj d =>
      let title := get_default d (lit "title") (JStr (lit "Untitled")) in
      let text := get_default d (lit "text") (JStr []) in
      let score := get_default d (lit "score") (JInt 0) in
      bind (header i title score) (fun h => Ok [JStr h; text; JStr []])
  | _ => Raise AttributeError
  end.

(** The [for i, hit in enumerate(results, 1)] loop. *)
Fixpoint context_loop (hits : list (nat * json)) (context_parts : list json)
  : result (list json) :=
  match hits with
  | [] => Ok context_parts
  | (i, hit) :: rest =>
      bind (hit_parts i hit) (fun parts =>
      context_loop rest (context_parts ++ parts))
  end.

(** [sep.join(parts)] accepts only [str] items. *)
Fixpoint str_items (parts : list json) : result (list str) :=
  match parts with
  | [] => Ok []
  | JStr s :: rest => bind (str_items rest) (fun l => Ok (s :: l))
  | _ :: _ => Raise TypeError
  end.

(** What [retrieve] makes of the value [self.memory.search] returned. *)
Definition format_results (results : json) : result str :=
  if negb (truthy_json results) then Ok SENTINEL
  else
    bind (MemvidMemory.iterate results) (fun hits =>
    bind (context_loop (enumerate 1 hits) []) (fun context_parts =>
    bind (str_items context_parts) (fun parts =>
    Ok (join NL parts)))).

(** [retrieve(query)] with [self.config.top_k] and
    [self.config.snippet_chars]. *)
Definition retrieve (w : MemvidMemory.World) (_sdk_available : bool)
           (top_k snippet_chars : Z) (query : str) : result str :=
  bind (MemvidMemory.search w _sdk_available query top_k snippet_chars)
       format_results.

End WithRepr.

End InfrastructureRAG.

(** ** [ingest_documents.py]: [MemvidIngester.ingest] *)

Module Ingest.
Import Cli TempFiles.

(** How the world answers the actions of an ingestion. *)
Record World : Type := mkWorld {
  (** [import memvid_sdk; memvid_sdk.open(path)] *)
  sdk_open : result unit;
  (** [mem.put(doc.content.encode(), title=..., uri=..., tags=...)] *)
  sdk_put : Loader.Document -> result unit;
  (** [mem.commit()] *)
  sdk_commit : result unit;
  (** the text encoding of temporary files *)
  encodable : str -> bool;
  (** [subprocess.run(["memvid", "put", path, "--input", temp_path])] *)
  cli_put : str -> run unit;
  (** [json.loads(self.memory_file.read_text())] *)
  json_read : result json;
  (** [self.memory_file.write_text(json.dumps(data, indent=2))] *)
  json_write : result unit
}.

(** What [json.loads] makes of the text [_create_fallback] writes. *)
Definition FALLBACK_STORE : json :=
  JObj [(lit "documents", JArr []);
        (lit "metadata", JObj [(lit "version", JStr (lit "fallback"))])].

(** [d[key] = v] *)
Fixpoint dict_set {V : Type} (d : dict V) (key : str) (v : V) : dict V :=
  match d with
  | [] => [(key, v)]
  | (k, x) :: d' =>
      if str_eqb k key then (k, v) :: d' else (k, x) :: dict_set d' key v
  end.

(** The record [_ingest_via_json] appends for a document. *)
Definition doc_json (doc : Loader.Document) : json :=
  JObj [(lit "content", JStr (Loader.content doc));
        (lit "title", JStr (Loader.title doc));
        (lit "uri", JStr (Loader.uri doc));
        (lit "source_file", JStr (Loader.source_file doc));
        (lit "tags", JObj (map (fun kv => (fst kv, JStr (snd kv)))
                               (Loader.tags doc)))].

Section WithWorld.
Variable w : World.

(** The [for doc in documents] loop of [_ingest_via_sdk]: a failed [put]
    is reported and skipped. *)
Fixpoint put_all (documents : list Loader.Document) (success_count : nat)
  : nat :=
  match documents with
  | [] => success_count
  | doc :: rest =>
      match sdk_put w doc with
      | Ok _ => put_all rest (S success_count)
      | Raise _ => put_all rest success_count
      end
  end.

Definition _ingest_via_sdk (documents : list Loader.Document) : nat :=
  match sdk_open w with
  | Raise _ => 0%nat
  | Ok _ =>
      let success_count := put_all documents 0 in
      match sdk_commit w with
      | Ok _ => success_count
      | Raise _ => 0%nat
      end
  end.

(** The [data["documents"].append(...)] of every document: [data] must be
    a dict whose entry [documents] is a list; nothing is looked up when
    there is no document. *)
Definition append_documents (data : json) (documents : list Loader.Document)
  : result json :=
  match documents with
  | [] => Ok data
  | _ :: _ =>
      match data with
      | JObj d =>
          match dict_get d (lit "documents") with
          | Some (JArr items) =>
              Ok (JObj (dict_set d (lit "documents")
                                 (JArr (items ++ map doc_json documents))))
          | Some _ => Raise AttributeError
          | None => Raise KeyError
          end
      | _ => Raise TypeError
      end
  end.

(** [_ingest_via_json]: the count, and what was written to the file, if
    anything. *)
Definition _ingest_via_json (documents : list Loader.Document)
  : nat * option json :=
  match json_read w with
  | Raise _ => (0%nat, None)
  | Ok data =>
      match append_documents data documents with
      | Raise _ => (0%nat, None)
      | Ok data' =>
          match json_write w with
          | Ok _ => (length documents, Some data')
          | Raise _ => (0%nat, None)
          end
      end
  end.

(** [ingest(documents)]: the count or the exception, the temporary files
    left, and what was written to the JSON file. *)
Definition ingest (self : MemvidIngester.Ingester)
           (documents : list Loader.Document) (fs : TempFS)
  : result nat * TempFS * option json :=
  match documents with
  | [] => (Ok 0%nat, fs, None)
  | _ :: _ =>
      if MemvidIngester._sdk_available self then
        (Ok (_ingest_via_sdk documents), fs, None)
      else if str_eqb (Loader.suffix (MemvidIngester.memory_file self))
                      (lit ".json") then
        let '(success_count, written) := _ingest_via_json documents in
        (Ok success_count, fs, written)
      else
        let '(r, fs') :=
          IngestCli._ingest_via_cli (encodable w) (cli_put w) documents fs in
        (r, fs', None)
  end.

End WithWorld.

End Ingest.

(** ** [rag_example.py]: [MemvidMemory.stats] *)

Module Stats.
Import Cli.

Record World : Type := mkWorld {
  (** [import memvid_sdk; memvid_sdk.open(path).stats()] and its
      attributes [frame_count], [has_lex_index], [has_vec_index] *)
  sdk_stats : result (json * json * json);
  (** [subprocess.run(["memvid", "stats", path, "--json"])]: the standard
      output as [json.loads] makes of it, and the standard error *)
  cli_stats : run (result json * str);
  (** [str(e)] *)
  message : exn -> str
}.

Section WithWorld.
Variable w : World.
Variable _sdk_available : bool.

(** The body of the [try] of the SDK branch. *)
Definition sdk_body : result json :=
  bind (sdk_stats w) (fun '(frame_count, has_lex_index, has_vec_index) =>
  Ok (JObj [(lit "frame_count", frame_count);
            (lit "has_lex_index", has_lex_index);
            (lit "has_vec_index", has_vec_index)])).

(** The body of the [try] of the CLI branch. *)
Definition cli_body : result json :=
  match cli_stats w with
  | Exits returncode (stdout, stderr) =>
      if returncode =? 0 then stdout
      else Ok (JObj [(lit "error", JStr stderr)])
  | RunRaises e => Raise e
  end.

(** [stats()]: [except Exception as e] answers [{"error": str(e)}]. *)
Definition stats : result json :=
  match (if _sdk_available then sdk_body else cli_body) with
  | Ok v => Ok v
  | Raise e => Ok (JObj [(lit "error", JStr (message w e))])
  end.

End WithWorld.

End Stats.

(** ** [rag_example.py]: [OllamaClient.generate] and [InfrastructureRAG.ask] *)

Module Ollama.

Record World : Type := mkWorld {
  (** [requests.post(f"{base_url}/api/generate", json=payload, timeout=120)],
      [raise_for_status()] and [response.json()]: the parsed reply, or the
      [RequestException], which [generate] raises again *)
  post : json -> result json
}.



End Ollama.

Module Ask.

Definition NL : str := InfrastructureRAG.NL.





Section WithConfig.
(** [str(v)] for the numbers, lists and dicts. *)
Variable py_repr : json -> str.
Variable memory : MemvidMemory.World.
Variable _sdk_available : bool.
Variable llm : Ollama.World.
(** [self.config.ollama_model], [self.config.top_k],
    [self.config.snippet_chars] *)
Variable ollama_model : str.
Variables (top_k snippet_chars : Z).


End WithConfig.

End Ask.

(** ** [rag_example.py]: [InfrastructureRAG.chat] *)

Module Chat.

(** What one [input()] gives: a line, or [KeyboardInterrupt]. *)
Inductive input : Type :=
| Line (s : str)
| Interrupt.

(** What the loop does, turn by turn. *)
Inductive event : Type :=
| Asked (question : str) (answer : result json)
| ShowedStats
| Goodbye.


(** [question.lower()] on the letters A-Z; the result is only compared
    with the words below, and no other code point lowers to one of their
    letters. *)
Definition lower (s : str) : str := Loader.lower s.


Section WithAsk.
(** [self.ask(question)] *)
Variable ask : str -> result json.


End WithAsk.

End Chat.

(** ** [ingest_documents.py]: [main] *)

Module IngestMain.

(** The parsed command line. *)
Record Args : Set := mkArgs {
  input : Loader.Path;
  output : Loader.Path;
  chunk_size : Z;
  overlap : Z;
  force : bool
}.

Record World : Type := mkWorld {
  (** [input_path.exists()] *)
  input_exists : bool;
  (** [output_path.exists()] *)
  output_exists : bool;
  (** [input("Overwrite? [y/N]: ")] *)
  response : str;
  (** [input_path.is_file()] *)
  input_is_file : bool;
  (** the files under the input path *)
  fs : Loader.FileSystem;
  (** [self.memory_file.parent.mkdir(parents=True, exist_ok=True)] *)
  mkdir : result unit;
  (** [import memvid_sdk] in [_check_sdk] *)
  sdk_importable : bool;
  (** [output_path.unlink()] *)
  unlink_output : result unit;
  creation : MemvidIngester.World;
  ingestion : Ingest.World;
  temp : TempFiles.TempFS
}.

(** What [main] does to the world, in order. *)
Inductive event : Type :=
| AskedOverwrite
| Loaded (documents : nat)
| MadeParent
| RemovedOutput
| Created (trace : list MemvidIngester.event)
| Ingested (written : option json).

Section WithWorld.
Variable w : World.
Variable args : Args.

(** The part of [main] after the documents are loaded. *)
Definition store (documents : list Loader.Document) (seen : list event)
  : result Z * list event :=
  match mkdir w with
  | Raise e => (Raise e, seen ++ [MadeParent])
  | Ok _ =>
      let ingester := MemvidIngester.mkIngester (output args)
                                                (sdk_importable w) in
      let after_unlink :=
        if output_exists w then
          match unlink_output w with
          | Ok _ => Ok [MadeParent; RemovedOutput]
          | Raise e => Raise e
          end
        else Ok [MadeParent] in
      match after_unlink with
      | Raise e => (Raise e, seen ++ [MadeParent; RemovedOutput])
      | Ok done =>
          let '(created, ingester', trace) :=
            MemvidIngester.create_memory (creation w) ingester in
          if negb created then (Ok 1, seen ++ done ++ [Created trace])
          else
            match Ingest.ingest (ingestion w) ingester' documents (temp w) with
            | (Raise e, _, written) =>
                (Raise e, seen ++ done ++ [Created trace; Ingested written])
            | (Ok success, _, written) =>
                (Ok (if (0 <? success)%nat then 0 else 1),
                 seen ++ done ++ [Created trace; Ingested written])
            end
      end
  end.

(** The part of [main] after the question about an existing output. *)
Definition load_and_store (seen : list event) : result Z * list event :=
  let documents :=
    if input_is_file w
    then Loader.load_file (chunk_size args) (overlap args) (fs w) (input args)
    else Loader.load_directory (chunk_size args) (overlap args) (fs w) in
  match documents with
  | [] => (Ok 1, seen ++ [Loaded 0])
  | _ :: _ => store documents (seen ++ [Loaded (length documents)])
  end.

(** [main()]: the exit code, or the exception that ends the process. *)
Definition main : result Z * list event :=
  if negb (input_exists w) then (Ok 1, [])
  else if output_exists w && negb (force args) then
    if str_eqb (Loader.lower (strip (response w))) (lit "y")
    then load_and_store [AskedOverwrite]
    else (Ok 0, [AskedOverwrite])
  else load_and_store [].

End WithWorld.

End IngestMain.

(** * Notions used to state the properties *)

(** The chunk a window gives before the empty ones are dropped. *)
Definition trimmed (text : str) (w : Z * Z) : str :=
  strip (slice text (fst w) (snd w)).

Definition within (chunk_size : Z) (chunk : str) : Prop :=
  len chunk <= chunk_size.

(** The windows leave no position of the text out. *)
Definition covers (text : str) (ws : list (Z * Z)) : Prop :=
  forall p, 0 <= p < len text ->
            exists s e, In (s, e) ws /\ 0 <= s <= p /\ p < e.

(** Every character of the text that is not white space is, at its place,
    in the chunk of a window around it. *)
Definition keeps_characters (text : str) (ws : list (Z * Z))
           (chunks : list str) : Prop :=
  forall p c,
    nth_error text p = Some c -> isspace c = false ->
    exists s e l r,
      In (s, e) ws /\ 0 <= s <= Z.of_nat p /\ Z.of_nat p < e
      /\ In (trimmed text (s, e)) chunks
      /\ slice text s e = l ++ trimmed text (s, e) ++ r
      /\ nth_error (trimmed text (s, e)) (p - Z.to_nat s - length l)
         = Some c.

(** Two files of the same name in two sub-directories, as a run over a
    directory can meet them. *)
Definition twin_fs : Loader.FileSystem :=
  Loader.mkFS
    [Loader.mkPath [lit "a"] (lit "x.md"); Loader.mkPath [lit "b"] (lit "x.md")]
    (fun _ => true)
    (fun _ => Ok (lit "hi"))
    (fun _ => Raise ImportError)
    (fun _ => Raise ImportError).

Definition is_digit (c : char) : Prop := (48 <= c <= 57)%N.

(** Every document of a file is located by the file name and a chunk number
    counted from one, and its tags carry that number and the number of
    chunks. *)
Definition numbered (p : Loader.Path) (total : nat) (docs : list Loader.Document)
  : Prop :=
  map Loader.uri docs = map (Loader.chunk_uri p) (seq 0 total)
  /\ forall d, In d docs ->
       exists i, (i < total)%nat
         /\ dict_get (Loader.tags d) (lit "chunk") = Some (str_of_nat (i + 1))
         /\ dict_get (Loader.tags d) (lit "total_chunks")
            = Some (str_of_nat total).

(** Two files of distinct names. *)
Definition two_files_fs : Loader.FileSystem :=
  Loader.mkFS
    [Loader.mkPath [lit "a"] (lit "x.md"); Loader.mkPath [lit "b"] (lit "y.txt")]
    (fun _ => true)
    (fun _ => Ok (lit "hi"))
    (fun _ => Raise ImportError)
    (fun _ => Raise ImportError).

(** The SDK cannot be used and the [memvid] executable is not installed. *)
Definition bare_world : MemvidIngester.World :=
  MemvidIngester.mkWorld (Raise OtherError) false (Ok tt)
                         (Cli.RunRaises FileNotFoundError) (Ok tt).

(** A world for [MemvidMemory]: what the back ends answer to a search, with
    the SDK raising on creation and no [memvid] executable. *)
Definition memory_world (find : result json) (cli : Cli.run (result json))
  : MemvidMemory.World :=
  MemvidMemory.mkWorld (Raise OtherError) (Cli.RunRaises FileNotFoundError)
                       (fun _ => Raise OtherError)
                       TempFiles.utf8_encodable
                       (fun _ => Cli.Exits 0 tt)
                       (fun _ _ => find) (fun _ _ => cli).

(** The back end met an error on this search: the SDK raised, or the
    command raised, exited with a non-zero status, or printed no JSON. *)
Definition backend_error (w : MemvidMemory.World) (_sdk_available : bool)
           (query : str) (top_k : Z) : bool :=
  if _sdk_available then
    match MemvidMemory.sdk_find w query top_k with
    | Raise _ => true
    | Ok _ => false
    end
  else
    match MemvidMemory.cli_find w query top_k with
    | Cli.RunRaises _ => true
    | Cli.Exits returncode stdout =>
        negb (returncode =? 0)
        || match stdout with Raise _ => true | Ok _ => false end
    end.

(** The exact value of a double, [0] for what has none. *)
Definition float_value (x : float) : Q :=
  match x with
  | S754_finite s m e => if s then (- magnitude m e)%Q else magnitude m e
  | _ => 0%Q
  end.

(** The relevance score a hit carries, [0] when it carries none. *)
Definition hit_score (hit : json) : Q :=
  match hit with
  | JObj d => match dict_get d (lit "score") with
              | Some (JInt n) => inject_Z n
              | Some (JFloat x) => float_value x
              | _ => 0%Q
              end
  | _ => 0%Q
  end.

Fixpoint descending (scores : list Q) : Prop :=
  match scores with
  | a :: (b :: _) as rest => (b <= a)%Q /\ descending rest
  | _ => True
  end.

Definition is_dict (v : json) : Prop := exists d, v = JObj d.

(** The answer of the SDK to a search, for one hit of the back end: the
    four fields, each with the value the hit gives it, the empty string or
    the score [0.0] where the hit gives none. *)
Definition copied_hit (hit hit' : json) : Prop :=
  exists d,
    hit = JObj d
    /\ hit' = JObj
         [(lit "text",
           match dict_get d (lit "text") with Some v => v | None => JStr [] end);
          (lit "title",
           match dict_get d (lit "title") with Some v => v | None => JStr [] end);
          (lit "score",
           match dict_get d (lit "score") with
           | Some v => v
           | None => JFloat (S754_zero false)
           end);
          (lit "uri",
           match dict_get d (lit "uri") with Some v => v | None => JStr [] end)].

(** Two hits in ascending order of score, 0.25 then 0.75. *)
Definition low_hit : json :=
  JObj [(lit "title", JStr (lit "low")); (lit "score", JFloat (float_of_ratio 1 4))].

Definition high_hit : json :=
  JObj [(lit "title", JStr (lit "high")); (lit "score", JFloat (float_of_ratio 3 4))].

Definition ascending_hits : json :=
  JObj [(lit "hits", JArr [low_hit; high_hit])].

(** The double that stands for the score of a hit when it is written: the
    score itself when it is a [float], the double an [int] or a [bool]
    converts to, zero when the hit has no score. *)
Definition hit_double (hit : json) : option float :=
  match hit with
  | JObj d =>
      match dict_get d (lit "score") with
      | None => Some (S754_zero false)
      | Some (JFloat x) => Some x
      | Some (JInt n) =>
          match float_of_int n with Ok x => Some x | Raise _ => None end
      | Some (JBool b) =>
          match float_of_int (if b then 1 else 0) with
          | Ok x => Some x
          | Raise _ => None
          end
      | Some _ => None
      end
  | _ => None
  end.

(** Neither an infinity nor a NaN. *)
Definition finite (x : float) : bool :=
  match x with
  | S754_zero _ | S754_finite _ _ _ => true
  | S754_infinity _ | S754_nan => false
  end.

(** The sign bit. *)
Definition negative (x : float) : bool :=
  match x with
  | S754_zero s | S754_infinity s | S754_finite s _ _ => s
  | S754_nan => false
  end.

(** A hit as the data model has it: a dict whose text, when present, is a
    string and whose score, when present, is a finite number. *)
Definition well_formed_hit (hit : json) : Prop :=
  exists d s x,
    hit = JObj d
    /\ match dict_get d (lit "text") with
       | Some v => v = JStr s
       | None => s = []
       end
    /\ hit_double hit = Some x /\ finite x = true.

Definition hit_text (hit : json) : str :=
  match hit with
  | JObj d => match dict_get d (lit "text") with
              | Some (JStr s) => s
              | _ => []
              end
  | _ => []
  end.

(** The title as it is written: a string as it is, [None] and the
    booleans by their names, [Untitled] when the hit has no title. *)
Definition hit_title (py_repr : json -> str) (hit : json) : str :=
  match hit with
  | JObj d =>
      match dict_get d (lit "title") with
      | None => lit "Untitled"
      | Some (JStr s) => s
      | Some JNull => lit "None"
      | Some (JBool b) => if b then lit "True" else lit "False"
      | Some v => py_repr v
      end
  | _ => []
  end.

(** The title written for the copy the SDK branch makes of a hit: as for
    the hit itself, but nothing for a hit without title. *)
Definition untitled_title (py_repr : json -> str) (hit : json) : str :=
  match hit with
  | JObj d => match dict_get d (lit "title") with
              | None => []
              | Some _ => hit_title py_repr hit
              end
  | _ => []
  end.



(** The line break. *)
Definition LF : str := [10%N].

(** The context block in the words of the specification: for the hit
    number [i], a header with the number, the title and the score to two
    decimals, then the text on the next line. *)
Definition hit_header (py_repr : json -> str) (i : nat) (hit : json)
           (score : str) : str :=
  lit "### Document " ++ str_of_nat i ++ lit ": " ++ hit_title py_repr hit
      ++ lit " (relevance: " ++ score ++ lit ")".

Definition hit_section (py_repr : json -> str) (i : nat) (hit : json)
           (score : str) : str :=
  hit_header py_repr i hit score ++ LF ++ hit_text hit.

(** The three parts [retrieve] appends for one hit. *)
Definition section_parts (py_repr : json -> str) (ih : nat * (json * str))
  : list str :=
  [hit_header py_repr (fst ih) (fst (snd ih)) (snd (snd ih));
   hit_text (fst (snd ih)); []].

(** Every section ends its last line, and a blank line separates two
    sections. *)
Definition context_block (py_repr : json -> str) (hits : list json)
           (scores : list str) : str :=
  join LF
       (map (fun ih => hit_section py_repr (fst ih) (fst (snd ih))
                                   (snd (snd ih)) ++ LF)
            (enumerate 1 (combine hits scores))).

(** The score of a hit as it is written. *)
Definition score_text (hit : json) : str :=
  match hit_double hit with
  | Some x => InfrastructureRAG.format_2f x
  | None => []
  end.

(** Two hits in descending order of score, 0.919 and 0.125. *)
Definition two_hits : list json :=
  [JObj [(lit "title", JStr (lit "AKS")); (lit "text", JStr (lit "Use az."));
         (lit "score", JFloat (float_of_ratio 919 1000))];
   JObj [(lit "text", JStr (lit "Plan first."));
         (lit "score", JFloat (float_of_ratio 1 8))]].

(** The names of the temporary files in use are below the next name. *)
Definition fresh (fs : TempFiles.TempFS) : Prop :=
  forall f, In f (TempFiles.files fs) -> (fst f < TempFiles.next_name fs)%nat.

(** A chunk whose text holds a lone surrogate, which UTF-8 cannot encode. *)
Definition surrogate_doc : Loader.Document :=
  Loader.mkDocument [55296%N] (lit "notes") (lit "mv2://docs/notes.md#chunk-1")
                    (lit "notes.md") [].

(** [piece] is a run of consecutive characters of [text]. *)
Definition segment (piece text : str) : Prop :=
  exists before after, text = before ++ piece ++ after.

(** Neither the first nor the last character is white space. *)
Definition clean_edges (s : str) : Prop :=
  (forall c rest, s = c :: rest -> isspace c = false)
  /\ (forall c front, s = front ++ [c] -> isspace c = false).

(** The characters a window takes from the text, before trimming. *)
Definition raw (text : str) (w : Z * Z) : str := slice text (fst w) (snd w).

(** The first window starts at [start], every window has an end after its
    start, and every further window starts where the one before it ends. *)
Fixpoint consecutive (start : Z) (ws : list (Z * Z)) : Prop :=
  match ws with
  | [] => True
  | (s, e) :: rest => s = start /\ s < e /\ consecutive e rest
  end.

(** What a chunk is: a non-empty trimmed window. *)
Definition chunk_of_window (text : str) (chunk : str) : Prop :=
  exists a b, chunk = strip (slice text a b) /\ chunk <> [].

(** The title of part [i] of the [n] parts of a file. *)
Definition part_form (stem : str) (i n : nat) : str :=
  stem ++ lit " (Part " ++ str_of_nat i ++ lit "/" ++ str_of_nat n ++ lit ")".

(** The file is read as plain text: it is neither a PDF nor a Word file. *)
Definition plain_text (p : Loader.Path) : bool :=
  negb (str_eqb (Loader.lower (Loader.suffix p)) (lit ".pdf"))
  && negb (str_eqb (Loader.lower (Loader.suffix p)) (lit ".docx")).

(** The title of the Document number [i], counted from zero, of the [n]
    Documents of a file: the bare stem for the only chunk of a plain text
    file, the part otherwise. *)
Definition title_form (p : Loader.Path) (n i : nat) : str :=
  if plain_text p && (n =? 1)%nat then Loader.stem p
  else part_form (Loader.stem p) (i + 1) n.

(** The reader [load_file] uses for the path raises. *)
Definition reader_fails (fs : Loader.FileSystem) (p : Loader.Path) : bool :=
  let sfx := Loader.lower (Loader.suffix p) in
  if str_eqb sfx (lit ".pdf")
  then match Loader.pdf_pages fs p with Raise _ => true | Ok _ => false end
  else if str_eqb sfx (lit ".docx")
  then match Loader.docx_paragraphs fs p with Raise _ => true | Ok _ => false end
  else match Loader.read_text fs p with Raise _ => true | Ok _ => false end.

(** The entry gives no document: it is no regular file, its extension is
    not supported, or its reader raises. *)
Definition skipped (fs : Loader.FileSystem) (p : Loader.Path) : bool :=
  negb (Loader.is_file fs p)
  || negb (Loader.mem_str (Loader.lower (Loader.suffix p))
                          Loader.SUPPORTED_EXTENSIONS)
  || reader_fails fs p.

(** The same files with other directory entries. *)
Definition with_entries (fs : Loader.FileSystem) (entries : list Loader.Path)
  : Loader.FileSystem :=
  Loader.mkFS entries (Loader.is_file fs) (Loader.read_text fs)
              (Loader.pdf_pages fs) (Loader.docx_paragraphs fs).

(** The block [_load_pdf] adds for the page number [n] with text [t]. *)
Definition page_block (page : nat * str) : str :=
  Loader.NLNL ++ lit "--- Page " ++ str_of_nat (fst page) ++ lit " ---"
              ++ Loader.NLNL ++ snd page.

(** A PDF of three pages, the second without text. *)
Definition pdf_fs : Loader.FileSystem :=
  Loader.mkFS [Loader.mkPath [] (lit "guide.pdf"); Loader.mkPath [] (lit "bad.md")]
              (fun _ => true)
              (fun _ => Raise OtherError)
              (fun _ => Ok [lit "one"; []; lit "three"])
              (fun _ => Raise ImportError).

(** The command exited with status zero. *)
Definition exits_zero {A : Type} (r : Cli.run A) : bool :=
  match r with
  | Cli.Exits returncode _ => returncode =? 0
  | Cli.RunRaises _ => false
  end.

(** A world for an ingestion with no SDK and no [memvid] executable, whose
    JSON file reads as [store]. *)
Definition json_world (store : json) : Ingest.World :=
  Ingest.mkWorld (Raise ImportError) (fun _ => Raise ImportError)
                 (Raise ImportError) TempFiles.utf8_encodable
                 (fun _ => Cli.RunRaises FileNotFoundError)
                 (Ok store) (Ok tt).

(** A world for an ingestion through the command line, which accepts the
    texts that begin with the letter a. *)
Definition cli_world : Ingest.World :=
  Ingest.mkWorld (Raise ImportError) (fun _ => Raise ImportError)
                 (Raise ImportError) TempFiles.utf8_encodable
                 (fun content =>
                    match content with
                    | 97%N :: _ => Cli.Exits 0 tt
                    | _ => Cli.Exits 1 tt
                    end)
                 (Raise FileNotFoundError) (Ok tt).

Definition doc_a : Loader.Document :=
  Loader.mkDocument (lit "alpha") (lit "notes (Part 1/2)")
                    (lit "mv2://docs/notes.md#chunk-1") (lit "notes.md")
                    [(lit "type", lit "md"); (lit "chunk", lit "1");
                     (lit "total_chunks", lit "2")].

Definition doc_b : Loader.Document :=
  Loader.mkDocument (lit "beta") (lit "notes (Part 2/2)")
                    (lit "mv2://docs/notes.md#chunk-2") (lit "notes.md")
                    [(lit "type", lit "md"); (lit "chunk", lit "2");
                     (lit "total_chunks", lit "2")].

(** The back end of [stats] met an error: the SDK raised, or the command
    raised, exited with a non-zero status, or printed no JSON. *)
Definition stats_failed (w : Stats.World) (_sdk_available : bool) : bool :=
  if _sdk_available then
    match Stats.sdk_stats w with Raise _ => true | Ok _ => false end
  else
    match Stats.cli_stats w with
    | Cli.RunRaises _ => true
    | Cli.Exits returncode (stdout, _) =>
        negb (returncode =? 0)
        || match stdout with Raise _ => true | Ok _ => false end
    end.

(** A hit as the SDK branch of [search] builds it. *)
Definition four_fields (hit : json) : Prop :=
  exists text title score uri,
    hit = JObj [(lit "text", text); (lit "title", title);
                (lit "score", score); (lit "uri", uri)].






(** The event is an action on the output store. *)
Definition touches_store (e : IngestMain.event) : bool :=
  match e with
  | IngestMain.AskedOverwrite | IngestMain.Loaded _ => false
  | _ => true
  end.

(** The user was asked and did not answer y. *)
Definition declined (w : IngestMain.World) (args : IngestMain.Args) : Prop :=
  IngestMain.output_exists w = true /\ IngestMain.force args = false
  /\ str_eqb (Loader.lower (strip (IngestMain.response w))) (lit "y") = false.

(** The Documents [main] loads: those of the input file, or of the files
    under the input directory. *)
Definition loaded_documents (w : IngestMain.World) (args : IngestMain.Args)
  : list Loader.Document :=
  if IngestMain.input_is_file w
  then Loader.load_file (IngestMain.chunk_size args) (IngestMain.overlap args)
                        (IngestMain.fs w) (IngestMain.input args)
  else Loader.load_directory (IngestMain.chunk_size args)
                             (IngestMain.overlap args) (IngestMain.fs w).

(** The store was created at the output path, and the ingestion of the
    loaded Documents into it stored [n] of them and left [written] in the
    JSON file. *)
Definition ingestion_stored (w : IngestMain.World) (args : IngestMain.Args)
           (n : nat) (written : option json) : Prop :=
  exists ingester created fs',
    MemvidIngester.create_memory
      (IngestMain.creation w)
      (MemvidIngester.mkIngester (IngestMain.output args)
                                 (IngestMain.sdk_importable w))
    = (true, ingester, created)
    /\ Ingest.ingest (IngestMain.ingestion w) ingester
                     (loaded_documents w args) (IngestMain.temp w)
       = (Ok n, fs', written).

(** A run of [main] on one text file, with no SDK and no [memvid]
    executable. *)
Definition main_world : IngestMain.World :=
  IngestMain.mkWorld true false [] true two_files_fs (Ok tt) false (Ok tt)
                     bare_world (json_world Ingest.FALLBACK_STORE)
                     (TempFiles.mkTempFS [] 0).

Definition main_args : IngestMain.Args :=
  IngestMain.mkArgs (Loader.mkPath [lit "a"] (lit "x.md"))
                    (Loader.mkPath [lit "memories"] (lit "infra.mv2"))
                    800 100 false.

(** * Facts about the built-ins *)

Section BuiltinFacts.

Lemma len_nonneg {A : Type} (s : list A) : 0 <= len s.
Proof. unfold len. lia. Qed.

(** A slice over an increasing pair of bounds is no longer than their
    distance. *)
Lemma slice_length {A : Type} (s : list A) (a b : Z) :
  a <= b -> len (slice s a b) <= b - a.
Proof.
  intros Hab. unfold slice, len.
  rewrite length_firstn, length_skipn.
  pose proof (len_nonneg s) as Hn. unfold len in Hn.
  unfold norm_index.
  destruct (a <? 0) eqn:Ea; destruct (b <? 0) eqn:Eb;
    rewrite ?Z.ltb_lt, ?Z.ltb_ge in *; unfold len; lia.
Qed.

Lemma slice_whole {A : Type} (s : list A) (b : Z) :
  len s <= b -> slice s 0 b = s.
Proof.
  intros Hb. unfold slice, norm_index. simpl (0 <? 0).
  pose proof (len_nonneg s) as Hn.
  destruct (b <? 0) eqn:Eb; rewrite ?Z.ltb_lt, ?Z.ltb_ge in *; [lia|].
  rewrite (Z.min_r b) by lia. rewrite (Z.min_l 0) by lia. simpl.
  unfold len. rewrite Z.sub_0_r, Nat2Z.id. apply firstn_all.
Qed.

(** Inside the text, a slice is the plain segment. *)
Lemma slice_inside {A : Type} (s : list A) (a b : Z) :
  0 <= a -> a <= b ->
  slice s a b
  = firstn (Z.to_nat (Z.min b (len s) - Z.min a (len s)))
           (skipn (Z.to_nat (Z.min a (len s))) s).
Proof.
  intros Ha Hab. unfold slice, norm_index.
  destruct (a <? 0) eqn:Ea; destruct (b <? 0) eqn:Eb;
    rewrite ?Z.ltb_lt, ?Z.ltb_ge in *; try lia.
  reflexivity.
Qed.

Lemma slice_nth_error {A : Type} (s : list A) (a b : Z) (p : nat) :
  0 <= a -> a <= Z.of_nat p < b ->
  nth_error (slice s a b) (p - Z.to_nat a) = nth_error s p.
Proof.
  intros Ha Hp. rewrite slice_inside by lia.
  pose proof (len_nonneg s) as Hn. unfold len in *.
  destruct (Nat.lt_ge_cases p (length s)) as [Hlt | Hge].
  - rewrite nth_error_firstn.
    destruct (Nat.ltb_spec (p - Z.to_nat a)
                (Z.to_nat (Z.min b (Z.of_nat (length s))
                           - Z.min a (Z.of_nat (length s))))) as [_ | Hbad];
      [| lia].
    rewrite nth_error_skipn. f_equal. lia.
  - rewrite (proj2 (nth_error_None s p)) by lia.
    apply nth_error_None. rewrite length_firstn, length_skipn. lia.
Qed.

Lemma startswith_length (s sub : str) :
  startswith s sub = true -> len sub <= len s.
Proof.
  revert s. induction sub as [| c sub IH]; intros s H.
  - unfold len. simpl. lia.
  - destruct s as [| d s]; simpl in H; [discriminate|].
    apply andb_true_iff in H. destruct H as [_ H]. apply IH in H.
    unfold len in *. simpl. lia.
Qed.

(** [rfind] answers [-1] or the index of an occurrence that fits. *)
Lemma rfind_from_range (i : Z) (s sub : str) :
  0 <= i ->
  rfind_from i s sub = -1
  \/ (i <= rfind_from i s sub /\ rfind_from i s sub + len sub <= i + len s).
Proof.
  revert i. induction s as [| c s IH]; intros i Hi; cbn [rfind_from].
  - destruct sub; simpl; [right; unfold len; simpl; lia | left; reflexivity].
  - destruct (IH (i + 1)) as [Hm | [Hlo Hhi]]; [lia | |].
    + rewrite Hm. change (0 <=? -1) with false. cbv iota.
      destruct (startswith (c :: s) sub) eqn:E; [| left; reflexivity].
      right. apply startswith_length in E. unfold len in *. simpl in *. lia.
    + destruct (Z.leb_spec 0 (rfind_from (i + 1) s sub)); [| lia].
      right. unfold len in *. simpl. lia.
Qed.

Lemma rfind_range (s sub : str) :
  rfind s sub = -1 \/ (0 <= rfind s sub /\ rfind s sub + len sub <= len s).
Proof. unfold rfind. pose proof (rfind_from_range 0 s sub). lia. Qed.

Lemma lstrip_length (s : str) : (length (lstrip s) <= length s)%nat.
Proof.
  induction s as [| c s IH]; simpl; [lia|].
  destruct (isspace c); simpl; lia.
Qed.

Lemma strip_length (s : str) : len (strip s) <= len s.
Proof.
  unfold strip, rstrip, len. rewrite length_rev.
  pose proof (lstrip_length (rev (lstrip s))) as H1.
  rewrite length_rev in H1. pose proof (lstrip_length s). lia.
Qed.

(** [lstrip] removes a prefix of white space. *)
Lemma lstrip_split (s : str) :
  exists l, s = l ++ lstrip s /\ Forall (fun c => isspace c = true) l.
Proof.
  induction s as [| c s [l [Hs Hl]]]; simpl.
  - exists []. split; [reflexivity | constructor].
  - destruct (isspace c) eqn:E.
    + exists (c :: l). split; [simpl; congruence | constructor; assumption].
    + exists []. split; [reflexivity | constructor].
Qed.

(** [strip] removes white space at both ends and nothing else. *)
Lemma strip_split (s : str) :
  exists l r, s = l ++ strip s ++ r
              /\ Forall (fun c => isspace c = true) l
              /\ Forall (fun c => isspace c = true) r.
Proof.
  destruct (lstrip_split s) as [l [Hs Hl]].
  destruct (lstrip_split (rev (lstrip s))) as [r [Hr Hrs]].
  exists l, (rev r). repeat split.
  - unfold strip, rstrip. rewrite Hs at 1. f_equal.
    rewrite <- rev_app_distr, <- Hr, rev_involutive. reflexivity.
  - assumption.
  - apply Forall_rev. assumption.
Qed.

End BuiltinFacts.

(** * The chunker *)

Section ChunkerFacts.

Lemma break_point_range (chunk : str) (chunk_size : Z) :
  0 < chunk_size -> len chunk <= chunk_size ->
  0 < DocumentLoader.break_point chunk chunk_size <= chunk_size.
Proof.
  intros Hcs Hlen. unfold DocumentLoader.break_point.
  pose proof (Z.div_pos chunk_size 2 ltac:(lia) ltac:(lia)) as Hhalf.
  pose proof (rfind_range chunk DocumentLoader.SEP_PARA) as Hpara.
  pose proof (rfind_range chunk DocumentLoader.SEP_PERIOD) as Hperiod.
  pose proof (rfind_range chunk DocumentLoader.SEP_NEWLINE) as Hnl.
  change (len DocumentLoader.SEP_PARA) with 2 in Hpara.
  change (len DocumentLoader.SEP_PERIOD) with 2 in Hperiod.
  change (len DocumentLoader.SEP_NEWLINE) with 1 in Hnl.
  repeat match goal with
         | |- context [?a <? ?b] => destruct (Z.ltb_spec a b)
         end; lia.
Qed.

(** Every window is non-empty and at most [chunk_size] wide. *)
Lemma window_end_range (text : str) (chunk_size start : Z) :
  0 < chunk_size ->
  start < DocumentLoader.window_end text chunk_size start
        <= start + chunk_size.
Proof.
  intros Hcs. unfold DocumentLoader.window_end.
  destruct (start + chunk_size <? len text); [| lia].
  pose proof (break_point_range (slice text start (start + chunk_size))
                chunk_size Hcs) as H.
  pose proof (slice_length text start (start + chunk_size)). lia.
Qed.

(** The clamp of [_chunk_text]: the cursor moves forward at every
    iteration, for every chunk size and overlap. *)
Lemma cursor_strictly_increases (text : str) (chunk_size chunk_overlap start : Z) :
  start < DocumentLoader.next_start text chunk_size chunk_overlap start.
Proof. unfold DocumentLoader.next_start. lia. Qed.

(** So the loop of [_chunk_text] finishes within [len(text) - start]
    iterations. *)
Lemma chunk_loop_returns (fuel : nat) (text : str) (chunk_size chunk_overlap : Z) :
  forall (start : Z) (chunks : list str),
    len text - start <= Z.of_nat fuel ->
    exists r,
      DocumentLoader.chunk_loop fuel text chunk_size chunk_overlap start chunks
      = Some r.
Proof.
  induction fuel as [| fuel IH]; intros start chunks Hfuel;
    cbn [DocumentLoader.chunk_loop];
    destruct (Z.ltb_spec start (len text)) as [Hlt | Hge];
    try (eexists; reflexivity); [lia|].
  apply IH. lia.
Qed.

Lemma chunk_text_returns (text : str) (chunk_size chunk_overlap : Z) :
  exists r, DocumentLoader._chunk_text text chunk_size chunk_overlap = Some r.
Proof.
  unfold DocumentLoader._chunk_text. apply chunk_loop_returns.
  unfold len. lia.
Qed.

Lemma append_if_filter (chunks : list str) (chunk : str) :
  DocumentLoader.append_if chunks chunk = chunks ++ filter truthy [chunk].
Proof.
  unfold DocumentLoader.append_if. simpl.
  destruct (truthy chunk); [reflexivity | symmetry; apply app_nil_r].
Qed.

Lemma chunk_loop_windows (fuel : nat) (text : str) (chunk_size chunk_overlap : Z) :
  forall (start : Z) (chunks r : list str),
    DocumentLoader.chunk_loop fuel text chunk_size chunk_overlap start chunks
    = Some r ->
    r = chunks
        ++ filter truthy
             (map (trimmed text)
                  (DocumentLoader.windows fuel text chunk_size chunk_overlap
                                          start)).
Proof.
  induction fuel as [| fuel IH]; intros start chunks r;
    cbn [DocumentLoader.chunk_loop DocumentLoader.windows];
    destruct (start <? len text); intros H;
    try discriminate;
    try (injection H as <-; simpl; symmetry; apply app_nil_r).
  apply IH in H. subst r. rewrite append_if_filter, <- app_assoc.
  f_equal. cbn [map filter app trimmed fst snd].
  destruct (truthy _); reflexivity.
Qed.

Lemma rag_window_end_range (text : str) (chunk_size start : Z) :
  0 < chunk_size ->
  start < RagExample.window_end text chunk_size start <= start + chunk_size.
Proof.
  intros Hcs. unfold RagExample.window_end.
  destruct (start + chunk_size <? len text); [| lia].
  pose proof (Z.div_pos chunk_size 2 ltac:(lia) ltac:(lia)) as Hhalf.
  set (chunk := slice text start (start + chunk_size)).
  pose proof (slice_length text start (start + chunk_size) ltac:(lia)) as Hl.
  fold chunk in Hl.
  pose proof (rfind_range chunk RagExample.DOT) as Hdot.
  pose proof (rfind_range chunk RagExample.NEWLINE) as Hnl.
  change (len RagExample.DOT) with 1 in Hdot.
  change (len RagExample.NEWLINE) with 1 in Hnl.
  destruct (Z.ltb_spec (chunk_size / 2)
              (Z.max (rfind chunk RagExample.DOT)
                     (rfind chunk RagExample.NEWLINE))); lia.
Qed.

Lemma trimmed_window_within (text : str) (chunk_size a b : Z) :
  a <= b <= a + chunk_size -> within chunk_size (strip (slice text a b)).
Proof.
  intros H. unfold within.
  pose proof (strip_length (slice text a b)).
  pose proof (slice_length text a b). lia.
Qed.

Lemma chunk_loop_within (fuel : nat) (text : str) (chunk_size chunk_overlap : Z) :
  0 < chunk_size ->
  forall (start : Z) (chunks r : list str),
    Forall (within chunk_size) chunks ->
    DocumentLoader.chunk_loop fuel text chunk_size chunk_overlap start chunks
    = Some r ->
    Forall (within chunk_size) r.
Proof.
  intros Hcs. induction fuel as [| fuel IH]; intros start chunks r Hall;
    cbn [DocumentLoader.chunk_loop];
    destruct (start <? len text); intros H;
    try discriminate; try (injection H as <-; assumption).
  eapply IH; [| exact H]. unfold DocumentLoader.append_if.
  destruct (truthy _); [| assumption].
  apply Forall_app. split; [assumption|]. constructor; [| constructor].
  apply trimmed_window_within.
  pose proof (window_end_range text chunk_size start Hcs). lia.
Qed.

Lemma rag_chunk_loop_within (fuel : nat) (text : str) (chunk_size overlap : Z) :
  0 < chunk_size ->
  forall (start : Z) (chunks r : list str),
    Forall (within chunk_size) chunks ->
    RagExample.chunk_loop fuel text chunk_size overlap start chunks = Some r ->
    Forall (within chunk_size) r.
Proof.
  intros Hcs. induction fuel as [| fuel IH]; intros start chunks r Hall;
    cbn [RagExample.chunk_loop];
    destruct (start <? len text); intros H;
    try discriminate; try (injection H as <-; assumption).
  eapply IH; [| exact H].
  apply Forall_app. split; [assumption|]. constructor; [| constructor].
  apply trimmed_window_within.
  pose proof (rag_window_end_range text chunk_size start Hcs). lia.
Qed.

End ChunkerFacts.

Section SecondChunker.

(** Without the clamp, the cursor of [chunk_text] still moves forward when
    the overlap is at most half the chunk size. *)
Lemma rag_cursor_increases (text : str) (chunk_size overlap start : Z) :
  0 < chunk_size -> overlap <= chunk_size / 2 ->
  start < RagExample.next_start text chunk_size overlap start.
Proof.
  intros Hcs Hov. unfold RagExample.next_start, RagExample.window_end.
  assert (Hhalf : chunk_size / 2 < chunk_size)
    by (apply Z.div_lt_upper_bound; lia).
  destruct (start + chunk_size <? len text); [| lia].
  destruct (Z.ltb_spec (chunk_size / 2)
              (Z.max (rfind (slice text start (start + chunk_size))
                            RagExample.DOT)
                     (rfind (slice text start (start + chunk_size))
                            RagExample.NEWLINE))); lia.
Qed.

Lemma rag_chunk_loop_returns (fuel : nat) (text : str) (chunk_size overlap : Z) :
  0 < chunk_size -> overlap <= chunk_size / 2 ->
  forall (start : Z) (chunks : list str),
    len text - start <= Z.of_nat fuel ->
    exists r,
      RagExample.chunk_loop fuel text chunk_size overlap start chunks = Some r.
Proof.
  intros Hcs Hov. induction fuel as [| fuel IH]; intros start chunks Hfuel;
    cbn [RagExample.chunk_loop];
    destruct (Z.ltb_spec start (len text)) as [Hlt | Hge];
    try (eexists; reflexivity); [lia|].
  apply IH.
  pose proof (rag_cursor_increases text chunk_size overlap start Hcs Hov) as H.
  unfold RagExample.next_start in H. lia.
Qed.

(** So [chunk_text] returns within [len(text)] iterations for such an
    overlap. *)
Lemma rag_chunk_text_returns (text : str) (chunk_size overlap : Z) :
  0 < chunk_size -> overlap <= chunk_size / 2 ->
  exists r, RagExample.chunk_text (length text) text chunk_size overlap = Some r.
Proof.
  intros Hcs Hov. unfold RagExample.chunk_text.
  destruct (rag_chunk_loop_returns (length text) text chunk_size overlap
              Hcs Hov 0 []) as [r ->]; [unfold len; lia|].
  eexists. reflexivity.
Qed.

End SecondChunker.

(** C1, at the input on which the second chunker fails: with
    [chunk_size = 1] and [overlap = 1], [chunk_text("ab")] leaves the cursor
    at [0] after an iteration, and no number of iterations ends the loop,
    whereas the cursor of [_chunk_text] moves forward on the same input
    ([cursor_strictly_increases]) and its loop returns
    ([chunk_text_returns]). *)
Theorem rag_chunk_text_cursor_stalls :
  RagExample.next_start (lit "ab") 1 1 0 = 0
  /\ (forall fuel, RagExample.chunk_text fuel (lit "ab") 1 1 = None)
  /\ 0 < DocumentLoader.next_start (lit "ab") 1 1 0
  /\ DocumentLoader._chunk_text (lit "ab") 1 1 = Some [lit "a"; lit "b"].
Proof.
  split; [reflexivity|]. split; [| split; [reflexivity | reflexivity]].
  assert (Hloop : forall fuel chunks,
             RagExample.chunk_loop fuel (lit "ab") 1 1 0 chunks = None).
  { induction fuel as [| fuel IH]; intros chunks; [reflexivity|].
    cbn [RagExample.chunk_loop].
    change (0 <? len (lit "ab")) with true. cbv iota.
    change (RagExample.window_end (lit "ab") 1 0 - 1) with 0.
    apply IH. }
  intros fuel. unfold RagExample.chunk_text. rewrite Hloop. reflexivity.
Qed.

(** C10: with a positive chunk size and any overlap, [_chunk_text] returns,
    and every chunk it returns is at most [chunk_size] long; so is every
    chunk of [chunk_text] whenever its loop ends. *)
Theorem chunks_within_chunk_size (text : str) (chunk_size overlap : Z) :
  0 < chunk_size ->
  (exists r, DocumentLoader._chunk_text text chunk_size overlap = Some r
             /\ Forall (fun chunk => len chunk <= chunk_size) r)
  /\ (forall fuel r,
         RagExample.chunk_text fuel text chunk_size overlap = Some r ->
         Forall (fun chunk => len chunk <= chunk_size) r).
Proof.
  intros Hcs. split.
  - destruct (chunk_text_returns text chunk_size overlap) as [r Hr].
    exists r. split; [assumption|].
    eapply (chunk_loop_within _ _ _ _ Hcs); [| exact Hr]. constructor.
  - intros fuel r. unfold RagExample.chunk_text.
    destruct (RagExample.chunk_loop fuel text chunk_size overlap 0 [])
      as [chunks |] eqn:E; [| discriminate].
    intros H. injection H as <-.
    apply (rag_chunk_loop_within _ _ _ _ Hcs) in E; [| constructor].
    apply Forall_forall. intros c Hc. apply filter_In in Hc.
    rewrite Forall_forall in E. apply E. tauto.
Qed.

Lemma chunks_within_chunk_size_witness :
  0 < 10
  /\ (exists r, DocumentLoader._chunk_text (lit "Hello. World and more") 10 2
                = Some r
                /\ Forall (fun chunk => len chunk <= 10) r)
  /\ (forall fuel r,
         RagExample.chunk_text fuel (lit "Hello. World and more") 10 2 = Some r ->
         Forall (fun chunk => len chunk <= 10) r).
Proof.
  split; [lia|].
  apply (chunks_within_chunk_size (lit "Hello. World and more") 10 2). lia.
Defined.

Section ShortTexts.

Lemma chunk_loop_done (fuel : nat) (text : str) (chunk_size chunk_overlap start : Z)
      (chunks : list str) :
  len text <= start ->
  DocumentLoader.chunk_loop fuel text chunk_size chunk_overlap start chunks
  = Some chunks.
Proof.
  intros H. destruct fuel; cbn [DocumentLoader.chunk_loop];
    destruct (Z.ltb_spec start (len text)); (lia || reflexivity).
Qed.

Lemma rag_chunk_loop_done (fuel : nat) (text : str) (chunk_size overlap start : Z)
      (chunks : list str) :
  len text <= start ->
  RagExample.chunk_loop fuel text chunk_size overlap start chunks
  = Some chunks.
Proof.
  intros H. destruct fuel; cbn [RagExample.chunk_loop];
    destruct (Z.ltb_spec start (len text)); (lia || reflexivity).
Qed.

Lemma window_end_short (text : str) (chunk_size : Z) :
  len text <= chunk_size ->
  DocumentLoader.window_end text chunk_size 0 = chunk_size
  /\ RagExample.window_end text chunk_size 0 = chunk_size.
Proof.
  intros H. unfold DocumentLoader.window_end, RagExample.window_end.
  destruct (Z.ltb_spec (0 + chunk_size) (len text)); [lia|].
  split; reflexivity.
Qed.

End ShortTexts.

(** C3, as the code has it: the empty text gives no chunk; a non-empty text
    shorter than [chunk_size] gives its trimmed self as the only chunk when
    moreover [len(text) <= chunk_size - overlap] and the text is not all
    white space, and no chunk when it is all white space. *)
Theorem short_text_single_chunk (text : str) (chunk_size overlap : Z) :
  (DocumentLoader._chunk_text [] chunk_size overlap = Some []
   /\ forall fuel, RagExample.chunk_text fuel [] chunk_size overlap = Some [])
  /\ (text <> [] ->
      len text < chunk_size ->
      len text <= chunk_size - overlap ->
      let expected := if truthy (strip text) then [strip text] else [] in
      DocumentLoader._chunk_text text chunk_size overlap = Some expected
      /\ forall fuel,
          RagExample.chunk_text (S fuel) text chunk_size overlap = Some expected).
Proof.
  split.
  - split; [reflexivity|]. intros fuel. unfold RagExample.chunk_text.
    rewrite rag_chunk_loop_done; [reflexivity | unfold len; simpl; lia].
  - intros Hne Hshort Hov expected.
    destruct (window_end_short text chunk_size ltac:(lia)) as [Hw Hrw].
    assert (Hpos : 0 < len text).
    { destruct text; [congruence | unfold len; simpl; lia]. }
    split.
    + unfold DocumentLoader._chunk_text.
      destruct text as [| c text']; [congruence|].
      set (text := c :: text') in *.
      change (length text) with (S (length text')).
      cbn [DocumentLoader.chunk_loop].
      destruct (Z.ltb_spec 0 (len text)); [| lia].
      rewrite Hw, slice_whole by lia.
      rewrite chunk_loop_done by lia.
      unfold DocumentLoader.append_if, expected.
      destruct (truthy (strip text)); reflexivity.
    + intros fuel. unfold RagExample.chunk_text.
      cbn [RagExample.chunk_loop].
      destruct (Z.ltb_spec 0 (len text)); [| lia].
      rewrite Hrw, slice_whole by lia.
      rewrite rag_chunk_loop_done by lia.
      unfold expected. simpl.
      destruct (truthy (strip text)); reflexivity.
Qed.

Lemma short_text_single_chunk_witness :
  lit "  hi there " <> []
  /\ len (lit "  hi there ") < 20
  /\ len (lit "  hi there ") <= 20 - 5
  /\ DocumentLoader._chunk_text (lit "  hi there ") 20 5 = Some [lit "hi there"]
  /\ forall fuel,
      RagExample.chunk_text (S fuel) (lit "  hi there ") 20 5
      = Some [lit "hi there"].
Proof.
  split; [discriminate|]. split; [reflexivity|]. split; [discriminate|].
  apply (proj2 (short_text_single_chunk (lit "  hi there ") 20 5));
    [discriminate | reflexivity | discriminate].
Defined.

(** C3 as stated fails: a text shorter than [chunk_size] still gives several
    chunks when the overlap reaches back into it, and a text of white space
    gives none. *)
Lemma short_text_three_chunks :
  len (lit "abc") < 5
  /\ DocumentLoader._chunk_text (lit "abc") 5 4
     = Some [lit "abc"; lit "bc"; lit "c"]
  /\ RagExample.chunk_text 3 (lit "abc") 5 4
     = Some [lit "abc"; lit "bc"; lit "c"]
  /\ DocumentLoader._chunk_text (lit " ") 5 4 = Some [].
Proof. repeat split; reflexivity. Qed.

Section Coverage.

Variables (text : str) (chunk_size overlap : Z).
Hypothesis Hsize : 0 < chunk_size.
Hypothesis Hoverlap : 0 <= overlap.

(** With a non-negative overlap the next window starts no later than the
    previous one ends, so every position falls into a window. *)
Lemma windows_cover (fuel : nat) :
  forall start p,
    0 <= start -> len text - start <= Z.of_nat fuel ->
    start <= p < len text ->
    exists s e,
      In (s, e) (DocumentLoader.windows fuel text chunk_size overlap start)
      /\ start <= s <= p /\ p < e.
Proof.
  induction fuel as [| fuel IH]; intros start p Hstart Hfuel Hp; [lia|].
  cbn [DocumentLoader.windows].
  destruct (Z.ltb_spec start (len text)); [| lia].
  pose proof (window_end_range text chunk_size start Hsize) as He.
  destruct (Z.lt_ge_cases p (DocumentLoader.window_end text chunk_size start))
    as [Hin | Hout].
  - exists start, (DocumentLoader.window_end text chunk_size start).
    split; [left; reflexivity | lia].
  - destruct (IH (Z.max (start + 1)
                    (DocumentLoader.window_end text chunk_size start - overlap))
                p) as [s [e [Hw [Hs He']]]]; try lia.
    exists s, e. split; [right; exact Hw | lia].
Qed.

(** A character that is not white space survives the trimming of any
    window around it, at its own place. *)
Lemma trimmed_keeps (s e : Z) (p : nat) (c : char) :
  0 <= s -> s <= Z.of_nat p < e ->
  nth_error text p = Some c -> isspace c = false ->
  exists l r,
    slice text s e = l ++ trimmed text (s, e) ++ r
    /\ nth_error (trimmed text (s, e)) (p - Z.to_nat s - length l) = Some c.
Proof.
  intros Hs Hp Hc Hsp.
  pose proof (slice_nth_error text s e p Hs Hp) as Hnth. rewrite Hc in Hnth.
  destruct (strip_split (slice text s e)) as [l [r [Hsplit [Hl Hr]]]].
  exists l, r. split; [exact Hsplit|]. unfold trimmed. cbn [fst snd].
  rewrite Hsplit in Hnth.
  assert (Hnot : forall (ws : str) k,
             Forall (fun c => isspace c = true) ws ->
             nth_error ws k <> Some c).
  { intros ws k Hall Hk. apply nth_error_In in Hk.
    rewrite Forall_forall in Hall. apply Hall in Hk. congruence. }
  destruct (Nat.lt_ge_cases (p - Z.to_nat s) (length l)) as [Hlt | Hge].
  - rewrite nth_error_app1 in Hnth by assumption.
    exfalso. exact (Hnot l _ Hl Hnth).
  - rewrite nth_error_app2 in Hnth by assumption.
    destruct (Nat.lt_ge_cases (p - Z.to_nat s - length l)
                (length (strip (slice text s e)))) as [Hlt' | Hge'].
    + rewrite nth_error_app1 in Hnth by assumption. exact Hnth.
    + rewrite nth_error_app2 in Hnth by assumption.
      exfalso. exact (Hnot r _ Hr Hnth).
Qed.

(** The same for the loop of [chunk_text], whose cursor moves forward when
    the overlap is at most half the chunk size. *)
Lemma rag_windows_cover (fuel : nat) :
  overlap <= chunk_size / 2 ->
  forall start p,
    0 <= start -> len text - start <= Z.of_nat fuel ->
    start <= p < len text ->
    exists s e,
      In (s, e) (RagExample.windows fuel text chunk_size overlap start)
      /\ start <= s <= p /\ p < e.
Proof.
  intros Hhalf.
  induction fuel as [| fuel IH]; intros start p Hstart Hfuel Hp; [lia|].
  cbn [RagExample.windows].
  destruct (Z.ltb_spec start (len text)); [| lia].
  pose proof (rag_window_end_range text chunk_size start Hsize) as He.
  pose proof (rag_cursor_increases text chunk_size overlap start Hsize Hhalf)
    as Hnext.
  unfold RagExample.next_start in Hnext.
  destruct (Z.lt_ge_cases p (RagExample.window_end text chunk_size start))
    as [Hin | Hout].
  - exists start, (RagExample.window_end text chunk_size start).
    split; [left; reflexivity | lia].
  - destruct (IH (RagExample.window_end text chunk_size start - overlap) p)
      as [s [e [Hw [Hs He']]]]; try lia.
    exists s, e. split; [right; exact Hw | lia].
Qed.

(** What the loop of [chunk_text] appends: the trimmed windows. *)
Lemma rag_chunk_loop_windows (fuel : nat) :
  forall (start : Z) (chunks r : list str),
    RagExample.chunk_loop fuel text chunk_size overlap start chunks = Some r ->
    r = chunks
        ++ map (trimmed text)
               (RagExample.windows fuel text chunk_size overlap start).
Proof.
  induction fuel as [| fuel IH]; intros start chunks r;
    cbn [RagExample.chunk_loop RagExample.windows];
    destruct (start <? len text); intros H;
    try discriminate;
    try (injection H as <-; simpl; symmetry; apply app_nil_r).
  apply IH in H. subst r. rewrite <- app_assoc. reflexivity.
Qed.

(** A window that covers a character that is not white space gives a
    chunk that holds it. *)
Lemma covered_kept (ws : list (Z * Z)) (chunks : list str) :
  chunks = filter truthy (map (trimmed text) ws) ->
  covers text ws -> keeps_characters text ws chunks.
Proof.
  intros Hchunks Hcover p c Hc Hsp.
  assert (Hp : 0 <= Z.of_nat p < len text).
  { unfold len. pose proof (proj1 (nth_error_Some text p)) as H.
    rewrite Hc in H. specialize (H ltac:(discriminate)). lia. }
  destruct (Hcover _ Hp) as [s [e [Hw [Hs He]]]].
  destruct (trimmed_keeps s e p c ltac:(lia) ltac:(lia) Hc Hsp)
    as [l [r [Hsplit Hnth]]].
  exists s, e, l, r. repeat split; try assumption; try lia.
  rewrite Hchunks. apply filter_In. split.
  - apply in_map. exact Hw.
  - destruct (trimmed text (s, e)); [| reflexivity].
    destruct (p - Z.to_nat s - length l)%nat; discriminate.
Qed.

End Coverage.

(** C2, as the code has it: for [0 <= overlap < chunk_size], [_chunk_text]
    returns the non-empty trimmed windows; the windows leave no position of
    the text out; and every character that is not white space is, at its
    place, in the returned chunk of a window around it.  The same holds of
    [chunk_text] of [rag_example.py] when moreover the overlap is at most
    half the chunk size, so that its loop ends. *)
Theorem windows_cover_text (text : str) (chunk_size overlap : Z) :
  0 < chunk_size -> 0 <= overlap < chunk_size ->
  (let ws := DocumentLoader.windows (length text) text chunk_size overlap 0 in
   exists chunks,
     DocumentLoader._chunk_text text chunk_size overlap = Some chunks
     /\ chunks = filter truthy (map (trimmed text) ws)
     /\ covers text ws
     /\ keeps_characters text ws chunks)
  /\ (overlap <= chunk_size / 2 ->
      let ws := RagExample.windows (length text) text chunk_size overlap 0 in
      exists chunks,
        RagExample.chunk_text (length text) text chunk_size overlap
        = Some chunks
        /\ chunks = filter truthy (map (trimmed text) ws)
        /\ covers text ws
        /\ keeps_characters text ws chunks).
Proof.
  intros Hsize [Hov _]. split.
  - intros ws.
    destruct (chunk_text_returns text chunk_size overlap) as [chunks Hchunks].
    exists chunks. split; [exact Hchunks|].
    apply chunk_loop_windows in Hchunks. simpl in Hchunks. fold ws in Hchunks.
    split; [exact Hchunks|].
    assert (Hcover : covers text ws).
    { intros p Hp.
      apply (windows_cover text chunk_size overlap Hsize Hov (length text) 0 p);
        unfold len in *; lia. }
    split; [exact Hcover|].
    apply covered_kept; assumption.
  - intros Hhalf ws.
    destruct (rag_chunk_loop_returns (length text) text chunk_size overlap
                Hsize Hhalf 0 []) as [all Hall]; [unfold len; lia|].
    unfold RagExample.chunk_text. rewrite Hall.
    apply rag_chunk_loop_windows in Hall. simpl in Hall. fold ws in Hall.
    subst all. eexists. split; [reflexivity|]. split; [reflexivity|].
    assert (Hcover : covers text ws).
    { intros p Hp.
      apply (rag_windows_cover text chunk_size overlap Hsize Hov (length text)
               Hhalf 0 p); unfold len in *; lia. }
    split; [exact Hcover|].
    apply covered_kept; [reflexivity | exact Hcover].
Qed.

Lemma windows_cover_text_witness :
  0 < 10 /\ 0 <= 2 < 10 /\ 2 <= 10 / 2
  /\ DocumentLoader.windows 21 (lit "Hello. World and more") 10 2 0
     = [(0, 10); (8, 18); (16, 26)]
  /\ DocumentLoader._chunk_text (lit "Hello. World and more") 10 2
     = Some [lit "Hello. Wor"; lit "orld and m"; lit "more"]
  /\ RagExample.windows 21 (lit "Hello. World and more") 10 2 0
     = [(0, 10); (8, 18); (16, 26)]
  /\ RagExample.chunk_text 21 (lit "Hello. World and more") 10 2
     = Some [lit "Hello. Wor"; lit "orld and m"; lit "more"].
Proof.
  split; [lia|]. split; [lia|]. split; [discriminate|].
  destruct (windows_cover_text (lit "Hello. World and more") 10 2
              ltac:(lia) ltac:(lia)) as [[chunks [H1 [H2 _]]] Hrag].
  destruct (Hrag ltac:(discriminate)) as [chunks' [H1' [H2' _]]].
  split; [reflexivity|]. split; [rewrite H1, H2; reflexivity|].
  split; [reflexivity|].
  change (length (lit "Hello. World and more")) with 21%nat in H1'.
  rewrite H1', H2'. reflexivity.
Defined.

(** C2 as stated fails: the white space a window begins or ends with is in
    no returned chunk. *)
Lemma chunks_drop_white_space :
  DocumentLoader._chunk_text (lit "a b") 2 0 = Some [lit "a"; lit "b"]
  /\ In 32%N (lit "a b")
  /\ ~ (exists chunk, In chunk [lit "a"; lit "b"] /\ In 32%N chunk).
Proof.
  split; [reflexivity|]. split; [simpl; tauto|].
  intros [chunk [Hchunk Hin]]. simpl in Hchunk.
  destruct Hchunk as [<- | [<- | []]]; simpl in Hin;
    repeat (destruct Hin as [Hin | Hin]; [discriminate|]); exact Hin.
Qed.

(** A negative overlap moves the cursor past the end of the window: the
    windows then skip positions. *)
Lemma negative_overlap_leaves_gaps :
  DocumentLoader.windows 3 (lit "abc") 1 (-1) 0 = [(0, 1); (2, 3)]
  /\ DocumentLoader._chunk_text (lit "abc") 1 (-1) = Some [lit "a"; lit "c"].
Proof. split; reflexivity. Qed.

(** A white-space character inside a window, away from its edges, is in
    the chunk of the window. *)
Lemma inner_white_space_is_kept :
  DocumentLoader._chunk_text (lit "ab cd") 3 2
  = Some [lit "ab"; lit "b c"; lit "cd"; lit "cd"; lit "d"].
Proof. reflexivity. Qed.

(** With an overlap above half the chunk size, and below the chunk size,
    the loop of [chunk_text] may come back to where it was: the window of
    six characters is cut after the full stop, and five are taken back. *)
Lemma rag_chunk_text_stalls_below_chunk_size :
  RagExample.next_start (lit "abcd.fghij") 6 5 0 = 0
  /\ forall fuel, RagExample.chunk_text fuel (lit "abcd.fghij") 6 5 = None.
Proof.
  split; [reflexivity|].
  assert (Hloop : forall fuel chunks,
             RagExample.chunk_loop fuel (lit "abcd.fghij") 6 5 0 chunks
             = None).
  { induction fuel as [| fuel IH]; intros chunks; [reflexivity|].
    cbn [RagExample.chunk_loop].
    change (0 <? len (lit "abcd.fghij")) with true. cbv iota.
    change (RagExample.window_end (lit "abcd.fghij") 6 0 - 5) with 0.
    apply IH. }
  intros fuel. unfold RagExample.chunk_text. rewrite Hloop. reflexivity.
Qed.

(** * The document loader *)

Section DecimalFacts.

Lemma lit_inj (a b : string) : lit a = lit b -> a = b.
Proof.
  unfold lit. intros H.
  rewrite <- (string_of_list_ascii_of_string a),
          <- (string_of_list_ascii_of_string b).
  f_equal. revert H.
  generalize (list_ascii_of_string a) (list_ascii_of_string b).
  induction l as [| x l IH]; intros [| y l'] H; simpl in H;
    try discriminate; [reflexivity|].
  injection H as Hxy Hl. f_equal; [| apply IH; exact Hl].
  rewrite <- (ascii_N_embedding x), <- (ascii_N_embedding y), Hxy.
  reflexivity.
Qed.

(** [str(n)] determines [n]. *)
Lemma str_of_nat_inj (a b : nat) : str_of_nat a = str_of_nat b -> a = b.
Proof.
  unfold str_of_nat. intros H. apply lit_inj in H.
  apply DecimalNat.Unsigned.to_uint_inj.
  pose proof (NilEmpty.usu (Nat.to_uint a)) as Ha.
  pose proof (NilEmpty.usu (Nat.to_uint b)) as Hb.
  rewrite H in Ha. congruence.
Qed.

(** [str(n)] is made of decimal digits. *)
Lemma str_of_nat_digits (n : nat) : Forall is_digit (str_of_nat n).
Proof.
  unfold str_of_nat. generalize (Nat.to_uint n). unfold lit.
  induction u; simpl; constructor; try assumption; unfold is_digit; lia.
Qed.

(** Two strings that continue after the same separator, absent before it,
    split at the same place. *)
Lemma split_at_separator (x : char) (d1 d2 t1 t2 : str) :
  ~ In x d1 -> ~ In x d2 ->
  d1 ++ x :: t1 = d2 ++ x :: t2 -> d1 = d2 /\ t1 = t2.
Proof.
  revert d2. induction d1 as [| a d1 IH]; intros [| b d2] H1 H2 H;
    simpl in *.
  - injection H as ->. split; reflexivity.
  - injection H as -> _. exfalso. apply H2. left. reflexivity.
  - injection H as -> _. exfalso. apply H1. left. reflexivity.
  - injection H as -> H. destruct (IH d2) as [-> ->]; auto.
Qed.

End DecimalFacts.

Section LoaderFacts.

Variables (chunk_size chunk_overlap : Z).
Variable fs : Loader.FileSystem.

(** The locator of a chunk determines the file name and the index. *)
Lemma chunk_uri_inj (p p' : Loader.Path) (i i' : nat) :
  Loader.chunk_uri p i = Loader.chunk_uri p' i' ->
  Loader.name p = Loader.name p' /\ i = i'.
Proof.
  unfold Loader.chunk_uri. intros H. apply app_inv_head in H.
  apply (f_equal (@rev char)) in H.
  rewrite !rev_app_distr in H.
  change (rev (lit "#chunk-")) with (45%N :: lit "knuhc#") in H.
  rewrite <- !app_assoc in H. simpl in H.
  assert (Hdash : forall n, ~ In 45%N (rev (str_of_nat n))).
  { intros n Hin. apply in_rev in Hin.
    pose proof (str_of_nat_digits n) as Hd. rewrite Forall_forall in Hd.
    apply Hd in Hin. unfold is_digit in Hin. lia. }
  apply split_at_separator in H; [| apply Hdash | apply Hdash].
  destruct H as [Hd Hn]. split.
  - injection Hn as Hn. rewrite <- (rev_involutive (Loader.name p)),
      <- (rev_involutive (Loader.name p')). f_equal. exact Hn.
  - apply (f_equal (@rev char)) in Hd. rewrite !rev_involutive in Hd.
    apply str_of_nat_inj in Hd. lia.
Qed.

Lemma enumerate_fst {A : Type} (l : list A) :
  forall k, map fst (enumerate k l) = seq k (length l).
Proof. induction l as [| x l IH]; intros k; simpl; [| rewrite IH]; reflexivity. Qed.

Lemma enumerate_bounds {A : Type} (l : list A) :
  forall k i x, In (i, x) (enumerate k l) -> (k <= i < k + length l)%nat.
Proof.
  induction l as [| y l IH]; intros k i x H; simpl in *; [contradiction|].
  destruct H as [H | H]; [injection H as <- _; lia|].
  apply IH in H. lia.
Qed.

Lemma numbered_nil (p : Loader.Path) : numbered p 0 [].
Proof. split; [reflexivity | intros d []]. Qed.

Lemma numbered_build (p : Loader.Path) (chunks : list str)
      (build : nat * str -> Loader.Document) :
  (forall i c, Loader.uri (build (i, c)) = Loader.chunk_uri p i) ->
  (forall i c, dict_get (Loader.tags (build (i, c))) (lit "chunk")
               = Some (str_of_nat (i + 1))) ->
  (forall i c, dict_get (Loader.tags (build (i, c))) (lit "total_chunks")
               = Some (str_of_nat (length chunks))) ->
  numbered p (length chunks) (map build (enumerate 0 chunks)).
Proof.
  intros Huri Hchunk Htotal. split.
  - rewrite map_map, <- enumerate_fst, map_map.
    apply map_ext. intros [i c]. apply Huri.
  - intros d Hd. apply in_map_iff in Hd. destruct Hd as [[i c] [<- Hin]].
    apply enumerate_bounds in Hin. exists i.
    split; [lia|]. split; [apply Hchunk | apply Htotal].
Qed.

Lemma load_file_numbered (p : Loader.Path) :
  exists total,
    numbered p total (Loader.load_file chunk_size chunk_overlap fs p).
Proof.
  unfold Loader.load_file.
  destruct (str_eqb _ (lit ".pdf")).
  { unfold Loader._load_pdf. destruct (Loader.pdf_pages fs p) as [pages |];
      [| exists 0%nat; apply numbered_nil].
    eexists. unfold Loader.pdf_documents.
    apply numbered_build; intros; reflexivity. }
  destruct (str_eqb _ (lit ".docx")).
  { unfold Loader._load_docx. destruct (Loader.docx_paragraphs fs p);
      [| exists 0%nat; apply numbered_nil].
    eexists. unfold Loader.docx_documents.
    apply numbered_build; intros; reflexivity. }
  destruct (Loader.mem_str _ _); [| exists 0%nat; apply numbered_nil].
  unfold Loader._load_text. destruct (Loader.read_text fs p);
    [| exists 0%nat; apply numbered_nil].
  eexists. unfold Loader.text_documents.
  apply numbered_build; intros; reflexivity.
Qed.

Lemma numbered_NoDup (p : Loader.Path) (total : nat) (docs : list Loader.Document) :
  numbered p total docs -> NoDup (map Loader.uri docs).
Proof.
  intros [-> _]. generalize (seq_NoDup total 0).
  induction (seq 0 total) as [| i l IH]; intros Hnd; simpl; constructor;
    inversion Hnd; subst; [| auto].
  intros Hin. apply in_map_iff in Hin. destruct Hin as [j [Hj Hin]].
  apply chunk_uri_inj in Hj. destruct Hj as [_ ->]. contradiction.
Qed.

Lemma numbered_uri_name (p : Loader.Path) (total : nat)
      (docs : list Loader.Document) (u : str) :
  numbered p total docs -> In u (map Loader.uri docs) ->
  exists i, u = Loader.chunk_uri p i.
Proof.
  intros [-> _] Hin. apply in_map_iff in Hin. destruct Hin as [i [<- _]].
  exists i. reflexivity.
Qed.

(** Files of distinct names give distinct locators. *)
Lemma files_NoDup (files : list Loader.Path) :
  NoDup (map Loader.name files) ->
  NoDup (map Loader.uri
             (flat_map (Loader.load_file chunk_size chunk_overlap fs) files)).
Proof.
  induction files as [| p files IH]; intros Hnd; simpl; [constructor|].
  inversion Hnd as [| x l Hnotin Hnd']; subst.
  destruct (load_file_numbered p) as [total Hp].
  rewrite map_app.
  apply NoDup_app; [exact (numbered_NoDup _ _ _ Hp) | exact (IH Hnd') |].
  intros u Hu Hu'. apply (numbered_uri_name _ _ _ _ Hp) in Hu.
  destruct Hu as [i ->]. apply in_map_iff in Hu'.
  destruct Hu' as [d [Hd Hin]]. apply in_flat_map in Hin.
  destruct Hin as [q [Hq Hdq]].
  destruct (load_file_numbered q) as [total' Hq'].
  assert (Hu : In (Loader.uri d)
                  (map Loader.uri
                       (Loader.load_file chunk_size chunk_overlap fs q)))
    by (apply in_map; exact Hdq).
  apply (numbered_uri_name _ _ _ _ Hq') in Hu. destruct Hu as [j Hj].
  rewrite Hj in Hd. apply chunk_uri_inj in Hd. destruct Hd as [Hname _].
  apply Hnotin. rewrite <- Hname. apply in_map. exact Hq.
Qed.

End LoaderFacts.

(** C4, as the code has it: the locators of the documents of one file are
    pairwise distinct; those of a run over a directory are pairwise distinct
    when the loaded files have pairwise distinct names; and the tags of
    every document hold the decimal forms of a chunk number and a total
    with [1 <= chunk <= total]. *)
Theorem uris_distinct_for_distinct_names
        (chunk_size chunk_overlap : Z) (fs : Loader.FileSystem) :
  (forall p,
      NoDup (map Loader.uri (Loader.load_file chunk_size chunk_overlap fs p)))
  /\ (NoDup (map Loader.name (Loader.loaded_files fs)) ->
      NoDup (map Loader.uri (Loader.load_directory chunk_size chunk_overlap fs)))
  /\ (forall d,
         (exists p, In d (Loader.load_file chunk_size chunk_overlap fs p))
         \/ In d (Loader.load_directory chunk_size chunk_overlap fs) ->
         exists chunk total : nat,
           dict_get (Loader.tags d) (lit "chunk") = Some (str_of_nat chunk)
           /\ dict_get (Loader.tags d) (lit "total_chunks")
              = Some (str_of_nat total)
           /\ (1 <= chunk <= total)%nat).
Proof.
  split; [| split].
  - intros p. destruct (load_file_numbered chunk_size chunk_overlap fs p)
      as [total H]. exact (numbered_NoDup _ _ _ H).
  - apply files_NoDup.
  - assert (Hfile : forall p d,
               In d (Loader.load_file chunk_size chunk_overlap fs p) ->
               exists chunk total : nat,
                 dict_get (Loader.tags d) (lit "chunk") = Some (str_of_nat chunk)
                 /\ dict_get (Loader.tags d) (lit "total_chunks")
                    = Some (str_of_nat total)
                 /\ (1 <= chunk <= total)%nat).
    { intros p d Hd.
      destruct (load_file_numbered chunk_size chunk_overlap fs p)
        as [total [_ H]].
      destruct (H d Hd) as [i [Hi [Hc Ht]]].
      exists (i + 1)%nat, total. repeat split; try assumption; lia. }
    intros d [[p Hd] | Hd]; [exact (Hfile p d Hd)|].
    unfold Loader.load_directory in Hd. apply in_flat_map in Hd.
    destruct Hd as [p [_ Hd]]. exact (Hfile p d Hd).
Qed.

Lemma uris_distinct_for_distinct_names_witness :
  NoDup (map Loader.name (Loader.loaded_files two_files_fs))
  /\ NoDup (map Loader.uri (Loader.load_directory 800 100 two_files_fs))
  /\ map Loader.uri (Loader.load_directory 800 100 two_files_fs)
     = [lit "mv2://docs/x.md#chunk-1"; lit "mv2://docs/y.txt#chunk-1"].
Proof.
  assert (Hnames : NoDup (map Loader.name (Loader.loaded_files two_files_fs))).
  { change (map Loader.name (Loader.loaded_files two_files_fs))
      with [lit "x.md"; lit "y.txt"].
    constructor; [| constructor; [| constructor]]; simpl; intuition discriminate. }
  split; [exact Hnames|]. split; [| reflexivity].
  exact (proj1 (proj2 (uris_distinct_for_distinct_names 800 100 two_files_fs))
               Hnames).
Defined.

(** C4 as stated fails: a run over a directory locates by the file name
    alone, so two files of one name in two sub-directories share their
    locators. *)
Lemma same_name_same_uri :
  map Loader.uri (Loader.load_directory 800 100 twin_fs)
  = [lit "mv2://docs/x.md#chunk-1"; lit "mv2://docs/x.md#chunk-1"]
  /\ ~ NoDup (map Loader.uri (Loader.load_directory 800 100 twin_fs)).
Proof.
  split; [reflexivity|].
  change (map Loader.uri (Loader.load_directory 800 100 twin_fs))
    with [lit "mv2://docs/x.md#chunk-1"; lit "mv2://docs/x.md#chunk-1"].
  intros H. inversion H as [| x l Hnotin _]; subst.
  apply Hnotin. left. reflexivity.
Qed.

(** * Creating the store *)




(** * Searching the store *)

(** C6: [search] never raises, and it answers the empty list whenever the
    back end met an error: the SDK raised, or the command raised, exited
    with a non-zero status or printed something that is not JSON. *)
Theorem search_degrades_to_empty (w : MemvidMemory.World) (_sdk_available : bool)
        (query : str) (top_k snippet_chars : Z) :
  (exists v,
      MemvidMemory.search w _sdk_available query top_k snippet_chars = Ok v)
  /\ (backend_error w _sdk_available query top_k = true ->
      MemvidMemory.search w _sdk_available query top_k snippet_chars
      = Ok (JArr [])).
Proof.
  unfold MemvidMemory.search. split.
  - destruct (if _sdk_available then _ else _); eexists; reflexivity.
  - unfold backend_error, MemvidMemory.sdk_search, MemvidMemory.cli_search.
    destruct _sdk_available.
    + destruct (MemvidMemory.sdk_find w query top_k); [discriminate|].
      reflexivity.
    + destruct (MemvidMemory.cli_find w query top_k) as [rc out | e];
        [| reflexivity].
      destruct (rc =? 0); [| reflexivity].
      destruct out; [discriminate | reflexivity].
Qed.

Lemma search_degrades_to_empty_witness :
  backend_error (memory_world (Ok JNull) (Cli.Exits 1 (Raise JSONDecodeError)))
                false (lit "terraform") 5 = true
  /\ MemvidMemory.search
       (memory_world (Ok JNull) (Cli.Exits 1 (Raise JSONDecodeError)))
       false (lit "terraform") 5 500
     = Ok (JArr [])
  /\ MemvidMemory.search
       (memory_world (Ok JNull) (Cli.Exits 0 (Raise JSONDecodeError)))
       false (lit "terraform") 5 500
     = Ok (JArr [])
  /\ MemvidMemory.search
       (memory_world (Raise TimeoutExpired) (Cli.RunRaises FileNotFoundError))
       true (lit "terraform") 5 500
     = Ok (JArr []).
Proof.
  split; [reflexivity|]. split; [| split].
  - exact (proj2 (search_degrades_to_empty
                    (memory_world (Ok JNull)
                                  (Cli.Exits 1 (Raise JSONDecodeError)))
                    false (lit "terraform") 5 500) eq_refl).
  - exact (proj2 (search_degrades_to_empty
                    (memory_world (Ok JNull)
                                  (Cli.Exits 0 (Raise JSONDecodeError)))
                    false (lit "terraform") 5 500) eq_refl).
  - exact (proj2 (search_degrades_to_empty
                    (memory_world (Raise TimeoutExpired)
                                  (Cli.RunRaises FileNotFoundError))
                    true (lit "terraform") 5 500) eq_refl).
Defined.

Section SearchFacts.

(** The SDK branch keeps every hit that is a dict, in order, with its four
    fields. *)
Lemma map_project (hits : list json) :
  Forall is_dict hits ->
  exists hits',
    MemvidMemory.map_result MemvidMemory.project hits = Ok hits'
    /\ Forall2 copied_hit hits hits'.
Proof.
  induction 1 as [| hit hits [d ->] _ [hits' [Hmap Hcopy]]].
  - exists []. split; [reflexivity | constructor].
  - cbn [MemvidMemory.map_result MemvidMemory.project bind].
    rewrite Hmap. cbn [bind]. eexists. split; [reflexivity|].
    constructor; [| exact Hcopy].
    exists d. split; [reflexivity|]. reflexivity.
Qed.

(** A copied hit carries the score of the hit it copies. *)
Lemma copied_hit_score (hit hit' : json) :
  copied_hit hit hit' -> hit_score hit' = hit_score hit.
Proof.
  intros [d [-> ->]]. unfold hit_score.
  change (dict_get
            [(lit "text", match dict_get d (lit "text") with
                          | Some v => v | None => JStr [] end);
             (lit "title", match dict_get d (lit "title") with
                           | Some v => v | None => JStr [] end);
             (lit "score", match dict_get d (lit "score") with
                           | Some v => v
                           | None => JFloat (S754_zero false) end);
             (lit "uri", match dict_get d (lit "uri") with
                         | Some v => v | None => JStr [] end)]
            (lit "score"))
    with (Some (match dict_get d (lit "score") with
                | Some v => v
                | None => JFloat (S754_zero false) end)).
  destruct (dict_get d (lit "score")); reflexivity.
Qed.

Lemma copied_hits_scores (hits hits' : list json) :
  Forall2 copied_hit hits hits' ->
  length hits' = length hits /\ map hit_score hits' = map hit_score hits.
Proof.
  induction 1 as [| hit hit' hits hits' Hc _ [Hlen Hmap]].
  - split; reflexivity.
  - split; [simpl; congruence|].
    cbn [map]. rewrite (copied_hit_score _ _ Hc), Hmap. reflexivity.
Qed.

End SearchFacts.

(** C7, as the code has it: [search] hands [top_k] to the back end and
    returns the hits of its answer as they come, neither cut nor sorted: the
    SDK branch gives, for each hit, its text, title, score and uri, with the
    empty string or the score 0.0 for a field the hit has not, and the CLI
    branch gives the list of hits as parsed; so the result has at most
    [top_k] hits in descending order of score whenever the answer of the
    back end has. *)
Theorem search_keeps_backend_hits (w : MemvidMemory.World) (query : str)
        (top_k snippet_chars : Z) (d : dict json) (hits : list json) :
  dict_get d (lit "hits") = Some (JArr hits) ->
  Forall is_dict hits ->
  (MemvidMemory.sdk_find w query top_k = Ok (JObj d) ->
   exists hits',
     MemvidMemory.search w true query top_k snippet_chars = Ok (JArr hits')
     /\ Forall2 copied_hit hits hits'
     /\ length hits' = length hits
     /\ map hit_score hits' = map hit_score hits
     /\ (len hits <= top_k -> descending (map hit_score hits) ->
         len hits' <= top_k /\ descending (map hit_score hits')))
  /\ (MemvidMemory.cli_find w query top_k = Cli.Exits 0 (Ok (JObj d)) ->
      MemvidMemory.search w false query top_k snippet_chars = Ok (JArr hits)).
Proof.
  intros Hhits Hdict. split.
  - intros Hfind.
    destruct (map_project hits Hdict) as [hits' [Hmap Hcopy]].
    destruct (copied_hits_scores _ _ Hcopy) as [Hlen Hscore].
    exists hits'. unfold MemvidMemory.search, MemvidMemory.sdk_search.
    rewrite Hfind. cbn [bind]. unfold get_default. rewrite Hhits.
    cbn [MemvidMemory.iterate bind]. rewrite Hmap. cbn [bind].
    repeat split; try assumption.
    + unfold len in *. lia.
    + rewrite Hscore. assumption.
  - intros Hfind. unfold MemvidMemory.search, MemvidMemory.cli_search.
    rewrite Hfind. change (0 =? 0) with true. cbv iota. cbn [bind].
    unfold get_default. rewrite Hhits. reflexivity.
Qed.

Lemma search_keeps_backend_hits_witness :
  exists hits',
    MemvidMemory.search (memory_world (Ok ascending_hits) (Cli.RunRaises OtherError))
                        true (lit "terraform") 5 500
    = Ok (JArr hits')
    /\ Forall2 copied_hit [low_hit; high_hit] hits'
    /\ length hits' = 2%nat
    /\ map hit_score hits' = map hit_score [low_hit; high_hit].
Proof.
  destruct (search_keeps_backend_hits
              (memory_world (Ok ascending_hits) (Cli.RunRaises OtherError))
              (lit "terraform") 5 500
              [(lit "hits", JArr [low_hit; high_hit])]
              [low_hit; high_hit] eq_refl
              (Forall_cons _ (ex_intro _ _ eq_refl)
                 (Forall_cons _ (ex_intro _ _ eq_refl) (Forall_nil _))))
    as [H _].
  destruct (H eq_refl) as [hits' [Hs [Hc [Hl [Hsc _]]]]].
  exists hits'. split; [exact Hs|]. split; [exact Hc|].
  split; [exact Hl | exact Hsc].
Defined.

(** C7 as stated fails: asked for one hit, [search] returns the two hits of
    the back end, the lower score first. *)
Lemma search_neither_cuts_nor_sorts :
  exists hits,
    MemvidMemory.search (memory_world (Ok ascending_hits) (Cli.RunRaises OtherError))
                        true (lit "terraform") 1 500
    = Ok (JArr hits)
    /\ ~ (len hits <= 1)
    /\ ~ descending (map hit_score hits).
Proof.
  eexists. split; [reflexivity|]. split.
  - unfold len. simpl. lia.
  - intros [H _]. vm_compute in H. apply H. reflexivity.
Qed.

(** * Building the context *)

Section ScoreFacts.

(** The literal [0.3] is the double [0x3FD3333333333333], and [0.125] is
    held exactly. *)
Lemma decimal_literals :
  float_of_ratio 3 10 = S754_finite false 5404319552844595 (-54)
  /\ (float_value (float_of_ratio 1 8) == 1 # 8)%Q.
Proof. split; reflexivity. Qed.














End ScoreFacts.

Section RetrieveFacts.

Variable py_repr : json -> str.

(** The double [retrieve] formats for a well-formed hit. *)
Lemma as_double_well_formed (d : dict json) (x : float) :
  hit_double (JObj d) = Some x ->
  InfrastructureRAG.as_double (get_default d (lit "score") (JInt 0)) = Ok x.
Proof.
  unfold hit_double, get_default.
  destruct (dict_get d (lit "score")) as [[| b | n | y | | |] |];
    cbn [InfrastructureRAG.as_double]; try discriminate.
  - destruct (float_of_int _); [congruence | discriminate].
  - destruct (float_of_int _); [congruence | discriminate].
  - congruence.
  - intros H. injection H as <-. reflexivity.
Qed.

Lemma title_well_formed (d : dict json) :
  InfrastructureRAG.format_title
    py_repr (get_default d (lit "title") (JStr (lit "Untitled")))
  = hit_title py_repr (JObj d).
Proof.
  unfold hit_title, get_default.
  destruct (dict_get d (lit "title")) as [[| [|] | | | | |] |]; reflexivity.
Qed.

Lemma hit_parts_well_formed (i : nat) (hit : json) :
  well_formed_hit hit ->
  InfrastructureRAG.hit_parts py_repr i hit
  = Ok (map JStr (section_parts py_repr (i, (hit, score_text hit)))).
Proof.
  intros [d [s [x [-> [Htext [Hscore _]]]]]].
  unfold InfrastructureRAG.hit_parts, InfrastructureRAG.header,
    InfrastructureRAG.format_score, section_parts, hit_header, score_text.
  rewrite (as_double_well_formed d x Hscore), Hscore, title_well_formed.
  cbn [bind fst snd map]. unfold hit_text, get_default.
  destruct (dict_get d (lit "text")) as [v |]; subst; reflexivity.
Qed.

Lemma context_loop_well_formed (hits : list json) :
  Forall well_formed_hit hits ->
  forall k acc,
    InfrastructureRAG.context_loop py_repr (enumerate k hits) acc
    = Ok (acc ++ map JStr
                   (flat_map (section_parts py_repr)
                      (enumerate k (combine hits (map score_text hits))))).
Proof.
  induction 1 as [| hit hits Hhit _ IH]; intros k acc;
    cbn [enumerate InfrastructureRAG.context_loop flat_map map combine].
  - rewrite app_nil_r. reflexivity.
  - rewrite (hit_parts_well_formed k hit Hhit). cbn [bind].
    rewrite IH, map_app, app_assoc. reflexivity.
Qed.

Lemma str_items_strings (l : list str) :
  InfrastructureRAG.str_items (map JStr l) = Ok l.
Proof.
  induction l as [| s l IH]; [reflexivity|].
  cbn [map InfrastructureRAG.str_items]. rewrite IH. reflexivity.
Qed.

Lemma join_cons (sep p : str) (rest : list str) :
  rest <> [] -> join sep (p :: rest) = p ++ sep ++ join sep rest.
Proof. destruct rest; [congruence | reflexivity]. Qed.

(** Joining the parts line by line gives the sections separated by blank
    lines. *)
Lemma join_sections (l : list (nat * (json * str))) :
  join InfrastructureRAG.NL (flat_map (section_parts py_repr) l)
  = join LF (map (fun ih => hit_section py_repr (fst ih) (fst (snd ih))
                                        (snd (snd ih)) ++ LF) l).
Proof.
  change InfrastructureRAG.NL with LF.
  induction l as [| ih l IH]; [reflexivity|].
  cbn [flat_map map].
  change (section_parts py_repr ih)
    with [hit_header py_repr (fst ih) (fst (snd ih)) (snd (snd ih));
          hit_text (fst (snd ih)); []].
  cbn [app]. rewrite !join_cons by discriminate.
  destruct l as [| ih' l].
  - cbn [flat_map map join]. unfold hit_section.
    rewrite app_nil_r, <- !app_assoc. reflexivity.
  - rewrite (join_cons LF []) by discriminate.
    rewrite (join_cons LF (_ ++ LF)) by discriminate.
    rewrite IH. unfold hit_section. cbn [app].
    rewrite <- !app_assoc. reflexivity.
Qed.

Lemma format_results_well_formed (hit : json) (hits : list json) :
  Forall well_formed_hit (hit :: hits) ->
  InfrastructureRAG.format_results py_repr (JArr (hit :: hits))
  = Ok (context_block py_repr (hit :: hits) (map score_text (hit :: hits))).
Proof.
  intros Hwf. unfold InfrastructureRAG.format_results.
  cbn [InfrastructureRAG.truthy_json negb MemvidMemory.iterate bind].
  rewrite (context_loop_well_formed _ Hwf). cbn [app bind].
  rewrite str_items_strings. cbn [bind].
  unfold context_block. rewrite <- join_sections. reflexivity.
Qed.






End RetrieveFacts.



(** What is written for a score outside the well-formed ones: an [int]
    beyond the 53 bits of a double loses its last digits, a negative zero
    keeps its sign, an infinity and a NaN are written by name, and an [int]
    beyond the largest double raises. *)
Lemma scores_beyond_two_decimals :
  InfrastructureRAG.format_score (JInt 9007199254740993)
  = Ok (lit "9007199254740992.00")
  /\ InfrastructureRAG.format_score (JFloat (S754_zero true))
     = Ok (lit "-0.00")
  /\ InfrastructureRAG.format_score (JFloat (S754_infinity true))
     = Ok (lit "-inf")
  /\ InfrastructureRAG.format_score (JFloat S754_nan) = Ok (lit "nan")
  /\ InfrastructureRAG.format_score (JInt (10 ^ 400)) = Raise OverflowError
  /\ InfrastructureRAG.format_score (JBool true) = Ok (lit "1.00")
  /\ InfrastructureRAG.format_score (JFloat (float_of_ratio (-1) 1000))
     = Ok (lit "-0.00").
Proof. vm_compute. repeat split. Qed.

(** * Temporary files of the CLI variant *)

Section TempFileFacts.

Lemma fresh_untouched (fs : TempFiles.TempFS) (content : str) :
  fresh fs ->
  map (fun f => if Nat.eqb (fst f) (TempFiles.next_name fs)
                then (TempFiles.next_name fs, content) else f)
      (TempFiles.files fs)
  = TempFiles.files fs
  /\ filter (fun f => negb (Nat.eqb (fst f) (TempFiles.next_name fs)))
            (TempFiles.files fs)
     = TempFiles.files fs.
Proof.
  unfold fresh. generalize (TempFiles.next_name fs) as n.
  induction (TempFiles.files fs) as [| f l IH]; intros n H;
    [split; reflexivity|].
  destruct (IH n) as [IH1 IH2]; [intros g Hg; apply H; right; exact Hg|].
  assert (Hf : Nat.eqb (fst f) n = false).
  { apply Nat.eqb_neq. specialize (H f (or_introl eq_refl)). lia. }
  simpl. rewrite Hf, IH1, IH2. split; reflexivity.
Qed.

(** Once the content is written, the temporary file is removed whatever
    the command does, and the other files are as before. *)
Lemma written_then_removed (encodable : str -> bool) (fs : TempFiles.TempFS)
      (content : str) :
  fresh fs -> encodable content = true ->
  exists fs2,
    TempFiles.write encodable (snd (TempFiles.create fs))
                    (TempFiles.next_name fs) content = Ok fs2
    /\ exists fs3,
        TempFiles.unlink fs2 (TempFiles.next_name fs) = Ok fs3
        /\ TempFiles.files fs3 = TempFiles.files fs
        /\ TempFiles.exists_ fs3 (TempFiles.next_name fs) = false.
Proof.
  intros Hfresh Henc. destruct (fresh_untouched fs content Hfresh) as [H1 H2].
  destruct fs as [files n]. cbn [TempFiles.files TempFiles.next_name] in *.
  unfold TempFiles.write, TempFiles.create.
  cbn [snd TempFiles.files TempFiles.next_name map fst].
  rewrite Henc, Nat.eqb_refl, H1.
  eexists. split; [reflexivity|].
  unfold TempFiles.unlink, TempFiles.exists_.
  cbn [TempFiles.files TempFiles.next_name existsb filter fst].
  rewrite Nat.eqb_refl. cbn [orb negb].
  eexists. split; [reflexivity|].
  cbn [TempFiles.files]. rewrite H2. split; [reflexivity|].
  clear H1. revert H2. clear. induction files as [| f l IH]; intros H2;
    [reflexivity|].
  cbn [filter existsb] in *.
  destruct (Nat.eqb (fst f) n) eqn:E; cbn [negb orb] in *.
  - exfalso.
    assert (Hlen : (length (filter (fun g : nat * str =>
                                      negb (Nat.eqb (fst g) n)) l)
                    <= length l)%nat) by apply filter_length_le.
    rewrite H2 in Hlen. simpl in Hlen. lia.
  - injection H2 as H2. exact (IH H2).
Qed.

(** The three ways out of the [try] of [add_document] and of
    [_ingest_via_cli] leave no temporary file behind. *)
Lemma cli_put_cleans_up (w : MemvidMemory.World) (fs : TempFiles.TempFS)
      (doc : Loader.Document) (count : nat) :
  fresh fs -> MemvidMemory.encodable w (Loader.content doc) = true ->
  (exists r fs',
      MemvidMemory.add_document w false (Loader.content doc) fs = (Ok r, fs')
      /\ TempFiles.files fs' = TempFiles.files fs)
  /\ (exists n fs',
         IngestCli.ingest_one (MemvidMemory.encodable w)
                              (MemvidMemory.cli_put w) doc fs count
         = (Ok n, fs')
         /\ TempFiles.files fs' = TempFiles.files fs).
Proof.
  intros Hfresh Henc.
  destruct (written_then_removed _ fs _ Hfresh Henc)
    as [fs2 [Hwrite [fs3 [Hunlink [Hfiles _]]]]].
  unfold MemvidMemory.add_document, IngestCli.ingest_one.
  change (TempFiles.create fs)
    with (TempFiles.next_name fs, snd (TempFiles.create fs)).
  cbv iota beta. rewrite Hwrite, Hunlink. split.
  - destruct (MemvidMemory.cli_put w (Loader.content doc));
      eexists _, fs3; split; (reflexivity || exact Hfiles).
  - eexists _, fs3. split; [reflexivity | exact Hfiles].
Qed.

End TempFileFacts.

(** C9, at the input on which the code fails: when the content cannot be
    encoded for the temporary file, [f.write] raises inside the [with]
    block, which is outside the [try]; both [add_document] and
    [_ingest_via_cli] then leave with the exception and the temporary file
    stays.  On the three ways out of the [try] the file is removed
    ([cli_put_cleans_up]). *)
Theorem temp_file_left_when_write_raises :
  MemvidMemory.add_document (memory_world (Ok JNull) (Cli.RunRaises OtherError))
                            false [55296%N] (TempFiles.mkTempFS [] 0)
  = (Raise UnicodeEncodeError, TempFiles.mkTempFS [(0%nat, [])] 1)
  /\ IngestCli._ingest_via_cli TempFiles.utf8_encodable (fun _ => Cli.Exits 0 tt)
                               [surrogate_doc] (TempFiles.mkTempFS [] 0)
     = (Raise UnicodeEncodeError, TempFiles.mkTempFS [(0%nat, [])] 1)
  /\ TempFiles.exists_ (TempFiles.mkTempFS [(0%nat, [])] 1) 0 = true.
Proof. repeat split; reflexivity. Qed.

(** * Further properties of the chunkers *)

Section TrimFacts.

Lemma lstrip_head (s : str) :
  forall c rest, lstrip s = c :: rest -> isspace c = false.
Proof.
  induction s as [| a s IH]; intros c rest H; simpl in H; [discriminate|].
  destruct (isspace a) eqn:E; [exact (IH _ _ H)|].
  injection H as <- _. exact E.
Qed.

Lemma lstrip_fixed (s : str) :
  (forall c rest, s = c :: rest -> isspace c = false) -> lstrip s = s.
Proof.
  destruct s as [| a s]; intros H; [reflexivity|].
  simpl. rewrite (H a s eq_refl). reflexivity.
Qed.

(** What [strip] returns has clean edges. *)
Lemma strip_clean (s : str) : clean_edges (strip s).
Proof.
  unfold strip, rstrip. split.
  - intros c rest H.
    destruct (lstrip_split (rev (lstrip s))) as [l [Hl _]].
    apply (f_equal (@rev char)) in Hl.
    rewrite rev_involutive, rev_app_distr, H in Hl.
    apply (lstrip_head s c (rest ++ rev l)). exact Hl.
  - intros c front H. apply (f_equal (@rev char)) in H.
    rewrite rev_involutive, rev_app_distr in H. simpl in H.
    exact (lstrip_head _ _ _ H).
Qed.

Lemma clean_strip (s : str) : clean_edges s -> strip s = s.
Proof.
  intros [Hhead Hlast]. unfold strip, rstrip.
  rewrite (lstrip_fixed s Hhead).
  rewrite lstrip_fixed; [apply rev_involutive|].
  intros c rest H. apply (Hlast c (rev rest)).
  rewrite <- (rev_involutive s), H. reflexivity.
Qed.

Lemma slice_segment {A : Type} (s : list A) (a b : Z) :
  exists before after, s = before ++ slice s a b ++ after.
Proof.
  unfold slice.
  set (m := Z.to_nat (norm_index (len s) a)).
  set (n := Z.to_nat (norm_index (len s) b - norm_index (len s) a)).
  exists (firstn m s), (skipn n (skipn m s)).
  rewrite (firstn_skipn n (skipn m s)). symmetry. apply firstn_skipn.
Qed.

(** A trimmed window is a run of consecutive characters of the text. *)
Lemma trimmed_segment (text : str) (a b : Z) :
  segment (strip (slice text a b)) text.
Proof.
  destruct (slice_segment text a b) as [before [after Hs]].
  destruct (strip_split (slice text a b)) as [l [r [Hw _]]].
  exists (before ++ l), (r ++ after).
  rewrite Hs at 1. rewrite Hw at 1. rewrite <- !app_assoc. reflexivity.
Qed.

Lemma chunk_of_window_facts (text chunk : str) :
  chunk_of_window text chunk ->
  chunk <> [] /\ clean_edges chunk /\ strip chunk = chunk /\ segment chunk text.
Proof.
  intros [a [b [-> Hne]]]. split; [exact Hne|].
  split; [apply strip_clean|].
  split; [apply clean_strip, strip_clean | apply trimmed_segment].
Qed.

Lemma truthy_nonempty (s : str) : truthy s = true -> s <> [].
Proof. destruct s; [discriminate | intros _; discriminate]. Qed.

Lemma loader_chunks_of_windows (text : str) (chunk_size chunk_overlap : Z)
      (chunks : list str) :
  DocumentLoader._chunk_text text chunk_size chunk_overlap = Some chunks ->
  Forall (chunk_of_window text) chunks.
Proof.
  intros H. apply chunk_loop_windows in H. simpl in H. subst chunks.
  apply Forall_forall. intros c Hc. apply filter_In in Hc.
  destruct Hc as [Hc Ht]. apply in_map_iff in Hc.
  destruct Hc as [[a b] [<- _]]. exists a, b.
  split; [reflexivity | apply truthy_nonempty; exact Ht].
Qed.

Lemma rag_loop_trimmed (fuel : nat) (text : str) (chunk_size overlap : Z) :
  forall (start : Z) (chunks r : list str),
    Forall (fun c => exists a b, c = strip (slice text a b)) chunks ->
    RagExample.chunk_loop fuel text chunk_size overlap start chunks = Some r ->
    Forall (fun c => exists a b, c = strip (slice text a b)) r.
Proof.
  induction fuel as [| fuel IH]; intros start chunks r Hall;
    cbn [RagExample.chunk_loop];
    destruct (start <? len text); intros H;
    try discriminate; try (injection H as <-; assumption).
  eapply IH; [| exact H].
  apply Forall_app. split; [assumption|].
  constructor; [| constructor]. eexists _, _. reflexivity.
Qed.

Lemma rag_chunks_of_windows (fuel : nat) (text : str) (chunk_size overlap : Z)
      (chunks : list str) :
  RagExample.chunk_text fuel text chunk_size overlap = Some chunks ->
  Forall (chunk_of_window text) chunks.
Proof.
  unfold RagExample.chunk_text.
  destruct (RagExample.chunk_loop fuel text chunk_size overlap 0 [])
    as [all |] eqn:E; [| discriminate].
  intros H. injection H as <-.
  apply rag_loop_trimmed in E; [| constructor].
  apply Forall_forall. intros c Hc. apply filter_In in Hc.
  destruct Hc as [Hc Ht]. rewrite Forall_forall in E.
  destruct (E c Hc) as [a [b ->]]. exists a, b.
  split; [reflexivity | apply truthy_nonempty; exact Ht].
Qed.

Lemma windows_count (fuel : nat) (text : str) (chunk_size chunk_overlap : Z) :
  forall start,
    (length (DocumentLoader.windows fuel text chunk_size chunk_overlap start)
     <= fuel)%nat.
Proof.
  induction fuel as [| fuel IH]; intros start; cbn [DocumentLoader.windows];
    destruct (start <? len text); simpl; try lia.
  specialize (IH (Z.max (start + 1)
                    (DocumentLoader.window_end text chunk_size start
                     - chunk_overlap))). lia.
Qed.

End TrimFacts.

(** X1: every chunk either chunker returns is non-empty, begins and ends
    with a character that is not white space, and is left as it is by a
    further [strip]. *)
Theorem chunks_are_trimmed (text : str) (chunk_size overlap : Z)
        (fuel : nat) (chunks : list str) :
  DocumentLoader._chunk_text text chunk_size overlap = Some chunks
  \/ RagExample.chunk_text fuel text chunk_size overlap = Some chunks ->
  Forall (fun chunk => chunk <> [] /\ clean_edges chunk /\ strip chunk = chunk)
         chunks.
Proof.
  intros H.
  assert (Hw : Forall (chunk_of_window text) chunks).
  { destruct H as [H | H];
      [exact (loader_chunks_of_windows _ _ _ _ H)
      | exact (rag_chunks_of_windows _ _ _ _ _ H)]. }
  eapply Forall_impl; [| exact Hw].
  intros c Hc. apply chunk_of_window_facts in Hc. tauto.
Qed.

Lemma chunks_are_trimmed_witness :
  Forall (fun chunk => chunk <> [] /\ clean_edges chunk /\ strip chunk = chunk)
         [lit "Hello. Wor"; lit "orld and m"; lit "more"].
Proof.
  apply (chunks_are_trimmed (lit "Hello. World and more") 10 2 0).
  left. reflexivity.
Defined.

(** X2: every chunk either chunker returns is a run of consecutive
    characters of the text, and [_chunk_text] returns at most [len(text)]
    chunks. *)
Theorem chunks_are_segments (text : str) (chunk_size overlap : Z)
        (fuel : nat) (chunks : list str) :
  (DocumentLoader._chunk_text text chunk_size overlap = Some chunks ->
   Forall (fun chunk => segment chunk text) chunks
   /\ len chunks <= len text)
  /\ (RagExample.chunk_text fuel text chunk_size overlap = Some chunks ->
      Forall (fun chunk => segment chunk text) chunks).
Proof.
  split; intros H.
  - split.
    + eapply Forall_impl; [| exact (loader_chunks_of_windows _ _ _ _ H)].
      intros c Hc. apply chunk_of_window_facts in Hc. tauto.
    + apply chunk_loop_windows in H. simpl in H. subst chunks. unfold len.
      pose proof (filter_length_le truthy
                    (map (trimmed text)
                         (DocumentLoader.windows (length text) text chunk_size
                                                 overlap 0))) as H1.
      rewrite length_map in H1.
      pose proof (windows_count (length text) text chunk_size overlap 0). lia.
  - eapply Forall_impl; [| exact (rag_chunks_of_windows _ _ _ _ _ H)].
    intros c Hc. apply chunk_of_window_facts in Hc. tauto.
Qed.

Lemma chunks_are_segments_witness :
  Forall (fun chunk => segment chunk (lit "Hello. World and more"))
         [lit "Hello. Wor"; lit "orld and m"; lit "more"]
  /\ len [lit "Hello. Wor"; lit "orld and m"; lit "more"]
     <= len (lit "Hello. World and more").
Proof.
  apply (proj1 (chunks_are_segments (lit "Hello. World and more") 10 2 0
                  [lit "Hello. Wor"; lit "orld and m"; lit "more"])).
  reflexivity.
Defined.

Section WindowFacts.

(** A slice that starts inside the text, followed by the rest of the text,
    is the text from the start of the slice. *)
Lemma slice_then_rest {A : Type} (s : list A) (a b : Z) :
  0 <= a <= b -> a <= len s ->
  slice s a b ++ skipn (Z.to_nat (Z.min b (len s))) s = skipn (Z.to_nat a) s.
Proof.
  intros Hab Ha. rewrite slice_inside by lia.
  rewrite (Z.min_l a) by lia.
  pose proof (len_nonneg s) as Hn.
  replace (skipn (Z.to_nat (Z.min b (len s))) s)
    with (skipn (Z.to_nat (Z.min b (len s) - a)) (skipn (Z.to_nat a) s)).
  - apply firstn_skipn.
  - rewrite skipn_skipn. f_equal. lia.
Qed.

(** With no overlap each window starts where the previous one ends. *)
Lemma windows_partition (text : str) (chunk_size : Z) (fuel : nat) :
  0 < chunk_size ->
  forall start,
    0 <= start <= len text -> len text - start <= Z.of_nat fuel ->
    concat (map (raw text)
                (DocumentLoader.windows fuel text chunk_size 0 start))
    = skipn (Z.to_nat start) text.
Proof.
  intros Hcs. induction fuel as [| fuel IH]; intros start Hstart Hfuel;
    cbn [DocumentLoader.windows];
    destruct (Z.ltb_spec start (len text)) as [Hlt | Hge];
    try lia;
    try (simpl; symmetry; apply skipn_all2; unfold len in *; lia).
  pose proof (window_end_range text chunk_size start Hcs) as He.
  set (e := DocumentLoader.window_end text chunk_size start) in *.
  replace (Z.max (start + 1) (e - 0)) with e by lia.
  cbn [map concat raw fst snd].
  rewrite <- (slice_then_rest text start e) by lia. f_equal.
  destruct (Z.le_gt_cases (len text) e) as [Hend | Hin].
  - rewrite Z.min_r by lia.
    destruct fuel; cbn [DocumentLoader.windows];
      destruct (Z.ltb_spec e (len text)); try lia;
      simpl; symmetry; apply skipn_all2; unfold len; lia.
  - rewrite Z.min_l by lia. apply IH; lia.
Qed.

(** The windows follow one another from the start of the loop. *)
Lemma windows_consecutive (text : str) (chunk_size : Z) (fuel : nat) :
  0 < chunk_size ->
  forall start,
    consecutive start (DocumentLoader.windows fuel text chunk_size 0 start).
Proof.
  intros Hcs. induction fuel as [| fuel IH]; intros start;
    cbn [DocumentLoader.windows]; destruct (start <? len text);
    try exact I.
  pose proof (window_end_range text chunk_size start Hcs) as He.
  cbn [consecutive]. split; [reflexivity|]. split; [lia|].
  replace (Z.max (start + 1)
             (DocumentLoader.window_end text chunk_size start - 0))
    with (DocumentLoader.window_end text chunk_size start) by lia.
  apply IH.
Qed.

Lemma startswith_split (s sub : str) :
  startswith s sub = true -> exists rest, s = sub ++ rest.
Proof.
  revert s. induction sub as [| c sub IH]; intros s H.
  - exists s. reflexivity.
  - destruct s as [| d s]; simpl in H; [discriminate|].
    apply andb_true_iff in H. destruct H as [Hc H].
    apply N.eqb_eq in Hc. subst d.
    destruct (IH s H) as [rest ->]. exists rest. reflexivity.
Qed.

(** An index [rfind] answers is the place of an occurrence. *)
Lemma rfind_from_occurrence (i : Z) (s sub : str) :
  0 <= i -> i <= rfind_from i s sub ->
  exists before after,
    s = before ++ sub ++ after /\ len before = rfind_from i s sub - i.
Proof.
  revert i. induction s as [| c s IH]; intros i Hi Hr;
    cbn [rfind_from] in *.
  - destruct (startswith [] sub) eqn:E; [| lia].
    destruct sub; [| discriminate]. exists [], [].
    split; [reflexivity | unfold len; simpl; lia].
  - destruct (Z.leb_spec 0 (rfind_from (i + 1) s sub)) as [Hfound | Hnone].
    + pose proof (rfind_from_range (i + 1) s sub ltac:(lia)) as Hrange.
      destruct (IH (i + 1) ltac:(lia) ltac:(lia))
        as [before [after [Hs Hlen]]].
      exists (c :: before), after.
      split; [simpl; congruence | unfold len in *; simpl; lia].
    + destruct (startswith (c :: s) sub) eqn:E; [| lia].
      destruct (startswith_split _ _ E) as [rest Hrest].
      exists [], rest. split; [exact Hrest | unfold len; simpl; lia].
Qed.

Lemma rfind_occurrence (s sub : str) :
  0 <= rfind s sub ->
  exists before after, s = before ++ sub ++ after /\ len before = rfind s sub.
Proof.
  intros H. destruct (rfind_from_occurrence 0 s sub ltac:(lia) H)
    as [before [after [Hs Hlen]]].
  exists before, after. split; [exact Hs | unfold rfind; lia].
Qed.

(** Cutting a window right after an occurrence found in it. *)
Lemma slice_up_to_occurrence (text : str) (start chunk_size : Z)
      (before sep after : str) :
  0 <= start -> 0 <= chunk_size ->
  slice text start (start + chunk_size) = before ++ sep ++ after ->
  slice text start (start + (len before + len sep)) = before ++ sep.
Proof.
  intros Hstart Hcs Hchunk.
  pose proof (len_nonneg before). pose proof (len_nonneg sep).
  pose proof (len_nonneg after). pose proof (len_nonneg text) as Hn.
  assert (Hlen : len before + len sep + len after
                 = len (slice text start (start + chunk_size))).
  { rewrite Hchunk. unfold len. rewrite !length_app. lia. }
  rewrite slice_inside in Hchunk, Hlen by lia.
  rewrite slice_inside by lia.
  unfold len in Hlen. rewrite length_firstn, length_skipn in Hlen.
  fold (len text) in Hlen.
  set (m := Z.to_nat (Z.min start (len text))) in *.
  assert (Hk : (Z.to_nat (Z.min (start + (len before + len sep)) (len text)
                          - Z.min start (len text))
                = length (before ++ sep))%nat).
  { rewrite length_app. unfold len in *. lia. }
  rewrite Hk.
  assert (Hpre : firstn (length (before ++ sep)) (before ++ sep ++ after)
                 = before ++ sep).
  { rewrite app_assoc. rewrite firstn_app, firstn_all, Nat.sub_diag.
    simpl. apply app_nil_r. }
  set (k := length (before ++ sep)) in *.
  set (K := Z.to_nat (Z.min (start + chunk_size) (len text)
                      - Z.min start (len text))) in *.
  assert (HkK : (k <= K)%nat).
  { unfold k. rewrite length_app. unfold len in Hlen. lia. }
  rewrite <- Hpre, <- Hchunk, firstn_firstn. f_equal. lia.
Qed.

End WindowFacts.

(** X3: with a positive chunk size and no overlap, [_chunk_text] returns
    the non-empty trimmed pieces of a split of the text: its windows begin
    at the start of the text, each begins where the one before it ends, and
    put end to end, untrimmed, they give the text back. *)
Theorem windows_without_overlap_split_text (text : str) (chunk_size : Z) :
  0 < chunk_size ->
  let ws := DocumentLoader.windows (length text) text chunk_size 0 0 in
  DocumentLoader._chunk_text text chunk_size 0
  = Some (filter truthy (map strip (map (raw text) ws)))
  /\ consecutive 0 ws
  /\ concat (map (raw text) ws) = text.
Proof.
  intros Hcs ws. split; [| split].
  - destruct (chunk_text_returns text chunk_size 0) as [chunks Hchunks].
    rewrite Hchunks. apply chunk_loop_windows in Hchunks. simpl in Hchunks.
    subst chunks. rewrite map_map. reflexivity.
  - apply windows_consecutive. exact Hcs.
  - unfold ws.
    rewrite (windows_partition text chunk_size (length text) Hcs 0);
      [reflexivity | |]; pose proof (len_nonneg text); unfold len in *; lia.
Qed.

Lemma windows_without_overlap_split_text_witness :
  0 < 10
  /\ DocumentLoader._chunk_text (lit "aaaaaa. aaaaaaaaa") 10 0
     = Some [lit "aaaaaa."; lit "aaaaaaaaa"]
  /\ consecutive 0 [(0, 8); (8, 18)]
  /\ concat (map (raw (lit "aaaaaa. aaaaaaaaa")) [(0, 8); (8, 18)])
     = lit "aaaaaa. aaaaaaaaa".
Proof.
  split; [lia|].
  destruct (windows_without_overlap_split_text (lit "aaaaaa. aaaaaaaaa") 10
              ltac:(lia)) as [H1 [H2 H3]].
  split; [rewrite H1; reflexivity|]. split; [exact H2 | exact H3].
Defined.

(** X4: when the boundary search of [_chunk_text] shortens a window, the
    window ends right after a blank line, a full stop and space, or a line
    break, and that separator begins past the middle of the chunk size. *)
Theorem shortened_window_ends_after_separator
        (text : str) (chunk_size start : Z) :
  0 < chunk_size -> 0 <= start ->
  DocumentLoader.window_end text chunk_size start <> start + chunk_size ->
  exists before sep,
    raw text (start, DocumentLoader.window_end text chunk_size start)
    = before ++ sep
    /\ (sep = DocumentLoader.SEP_PARA \/ sep = DocumentLoader.SEP_PERIOD
        \/ sep = DocumentLoader.SEP_NEWLINE)
    /\ chunk_size / 2 < len before.
Proof.
  intros Hcs Hstart Hshort. unfold raw. cbn [fst snd].
  unfold DocumentLoader.window_end in *.
  destruct (start + chunk_size <? len text); [| congruence].
  unfold DocumentLoader.break_point in *.
  set (chunk := slice text start (start + chunk_size)) in *.
  pose proof (Z.div_pos chunk_size 2 ltac:(lia) ltac:(lia)) as Hhalf.
  assert (Hcut : forall sep,
             chunk_size / 2 < rfind chunk sep ->
             exists before,
               slice text start (start + (rfind chunk sep + len sep))
               = before ++ sep
               /\ chunk_size / 2 < len before).
  { intros sep Hfound.
    destruct (rfind_occurrence chunk sep ltac:(lia))
      as [before [after [Hchunk Hlen]]].
    exists before. rewrite <- Hlen. split; [| lia].
    exact (slice_up_to_occurrence text start chunk_size before sep after
             Hstart ltac:(lia) Hchunk). }
  destruct (Z.ltb_spec (chunk_size / 2) (rfind chunk DocumentLoader.SEP_PARA))
    as [Hp | _].
  { destruct (Hcut _ Hp) as [before [H1 H2]]. exists before, DocumentLoader.SEP_PARA.
    change (len DocumentLoader.SEP_PARA) with 2 in H1. auto. }
  destruct (Z.ltb_spec (chunk_size / 2) (rfind chunk DocumentLoader.SEP_PERIOD))
    as [Hp | _].
  { destruct (Hcut _ Hp) as [before [H1 H2]].
    exists before, DocumentLoader.SEP_PERIOD.
    change (len DocumentLoader.SEP_PERIOD) with 2 in H1. auto. }
  destruct (Z.ltb_spec (chunk_size / 2) (rfind chunk DocumentLoader.SEP_NEWLINE))
    as [Hp | _]; [| congruence].
  destruct (Hcut _ Hp) as [before [H1 H2]].
  exists before, DocumentLoader.SEP_NEWLINE.
  change (len DocumentLoader.SEP_NEWLINE) with 1 in H1. auto.
Qed.

Lemma shortened_window_ends_after_separator_witness :
  DocumentLoader.window_end (lit "aaaaaa. aaaaaaaaa") 10 0 = 8
  /\ exists before sep,
      raw (lit "aaaaaa. aaaaaaaaa") (0, 8) = before ++ sep
      /\ (sep = DocumentLoader.SEP_PARA \/ sep = DocumentLoader.SEP_PERIOD
          \/ sep = DocumentLoader.SEP_NEWLINE)
      /\ 10 / 2 < len before.
Proof.
  split; [reflexivity|].
  apply (shortened_window_ends_after_separator (lit "aaaaaa. aaaaaaaaa") 10 0);
    [lia | lia | discriminate].
Defined.

(** X5: without the clamp, [chunk_text] of [rag_example.py] still moves its
    cursor forward at every iteration, and returns within [len(text)]
    iterations, when the chunk size is positive and the overlap is at most
    half of it. *)
Theorem second_chunker_returns (text : str) (chunk_size overlap : Z) :
  0 < chunk_size -> overlap <= chunk_size / 2 ->
  (forall start, start < RagExample.next_start text chunk_size overlap start)
  /\ exists chunks,
      RagExample.chunk_text (length text) text chunk_size overlap = Some chunks.
Proof.
  intros Hcs Hov. split.
  - intros start. apply rag_cursor_increases; assumption.
  - apply rag_chunk_text_returns; assumption.
Qed.

Lemma second_chunker_returns_witness :
  0 < 10 /\ 2 <= 10 / 2
  /\ (forall start,
         start < RagExample.next_start (lit "Hello. World and more") 10 2 start)
  /\ exists chunks,
      RagExample.chunk_text (length (lit "Hello. World and more"))
                            (lit "Hello. World and more") 10 2
      = Some chunks.
Proof.
  split; [lia|]. split; [discriminate|].
  apply (second_chunker_returns (lit "Hello. World and more") 10 2);
    [lia | discriminate].
Defined.

(** * Further properties of the loader *)

Section DocumentFacts.

Variables (chunk_size chunk_overlap : Z).
Variable fs : Loader.FileSystem.

Lemma chunks_of_returned (text : str) :
  DocumentLoader._chunk_text text chunk_size chunk_overlap
  = Some (Loader.chunks_of chunk_size chunk_overlap text).
Proof.
  unfold Loader.chunks_of.
  destruct (chunk_text_returns text chunk_size chunk_overlap) as [r ->].
  reflexivity.
Qed.

Lemma built_contents (chunks : list str)
      (build : nat * str -> Loader.Document) :
  (forall i c, Loader.content (build (i, c)) = c) ->
  map Loader.content (map build (enumerate 0 chunks)) = chunks.
Proof.
  intros H. rewrite map_map. generalize 0%nat.
  induction chunks as [| c chunks IH]; intros k; [reflexivity|].
  cbn [enumerate map]. rewrite H, IH. reflexivity.
Qed.

(** The contents of the documents of a file are the chunks of one text. *)
Lemma load_file_contents (p : Loader.Path) :
  exists text,
    map Loader.content (Loader.load_file chunk_size chunk_overlap fs p)
    = Loader.chunks_of chunk_size chunk_overlap text.
Proof.
  unfold Loader.load_file.
  destruct (str_eqb _ (lit ".pdf")).
  { unfold Loader._load_pdf. destruct (Loader.pdf_pages fs p) as [pages |];
      [| exists []; reflexivity].
    eexists. unfold Loader.pdf_documents.
    apply built_contents. reflexivity. }
  destruct (str_eqb _ (lit ".docx")).
  { unfold Loader._load_docx. destruct (Loader.docx_paragraphs fs p);
      [| exists []; reflexivity].
    eexists. unfold Loader.docx_documents.
    apply built_contents. reflexivity. }
  destruct (Loader.mem_str _ _); [| exists []; reflexivity].
  unfold Loader._load_text. destruct (Loader.read_text fs p);
    [| exists []; reflexivity].
  eexists. unfold Loader.text_documents. apply built_contents. reflexivity.
Qed.

Lemma part_title_inj (p : Loader.Path) (total i j : nat) :
  Loader.part_title p i total = Loader.part_title p j total -> i = j.
Proof.
  unfold Loader.part_title. intros H.
  apply app_inv_head in H. apply app_inv_head in H.
  change (lit "/") with [47%N] in H. cbn [app] in H.
  assert (Hslash : forall n, ~ In 47%N (str_of_nat n)).
  { intros n Hin. pose proof (str_of_nat_digits n) as Hd.
    rewrite Forall_forall in Hd. apply Hd in Hin.
    unfold is_digit in Hin. lia. }
  apply split_at_separator in H; [| apply Hslash | apply Hslash].
  destruct H as [H _]. apply str_of_nat_inj in H. lia.
Qed.

Lemma part_titles_NoDup (p : Loader.Path) (total : nat) (l : list nat) :
  NoDup l -> NoDup (map (fun i => Loader.part_title p i total) l).
Proof.
  induction 1 as [| i l Hnotin _ IH]; simpl; constructor; [| exact IH].
  intros Hin. apply in_map_iff in Hin. destruct Hin as [j [Hj Hin]].
  apply part_title_inj in Hj. subst j. contradiction.
Qed.

Lemma built_titles (chunks : list str) (title : nat -> str)
      (build : nat * str -> Loader.Document) :
  (forall i c, Loader.title (build (i, c)) = title i) ->
  map Loader.title (map build (enumerate 0 chunks))
  = map title (seq 0 (length chunks)).
Proof.
  intros H. rewrite map_map, <- enumerate_fst, map_map.
  apply map_ext. intros [i c]. apply H.
Qed.

Lemma load_file_titles (p : Loader.Path) :
  NoDup (map Loader.title (Loader.load_file chunk_size chunk_overlap fs p)).
Proof.
  unfold Loader.load_file.
  destruct (str_eqb _ (lit ".pdf")).
  { unfold Loader._load_pdf. destruct (Loader.pdf_pages fs p) as [pages |];
      [| constructor].
    unfold Loader.pdf_documents.
    rewrite (built_titles _ (fun i => Loader.part_title p i _))
      by (intros; reflexivity).
    apply part_titles_NoDup, seq_NoDup. }
  destruct (str_eqb _ (lit ".docx")).
  { unfold Loader._load_docx. destruct (Loader.docx_paragraphs fs p);
      [| constructor].
    unfold Loader.docx_documents.
    rewrite (built_titles _ (fun i => Loader.part_title p i _))
      by (intros; reflexivity).
    apply part_titles_NoDup, seq_NoDup. }
  destruct (Loader.mem_str _ _); [| constructor].
  unfold Loader._load_text. destruct (Loader.read_text fs p) as [text |];
    [| constructor].
  unfold Loader.text_documents.
  set (chunks := Loader.chunks_of chunk_size chunk_overlap text).
  destruct (Z.ltb_spec 1 (len chunks)) as [Hmany | Hfew].
  - rewrite (built_titles _ (fun i => Loader.part_title p i _))
      by (intros; reflexivity).
    apply part_titles_NoDup, seq_NoDup.
  - destruct chunks as [| c [| c' chunks]];
      [constructor | | unfold len in Hfew; simpl in Hfew; lia].
    simpl. constructor; [intros [] | constructor].
Qed.

(** The titles of the documents of a file, in order. *)
Lemma load_file_title_forms (p : Loader.Path) :
  map Loader.title (Loader.load_file chunk_size chunk_overlap fs p)
  = map (title_form p (length (Loader.load_file chunk_size chunk_overlap fs p)))
        (seq 0 (length (Loader.load_file chunk_size chunk_overlap fs p))).
Proof.
  assert (Hparts : forall (build : nat * str -> Loader.Document) chunks,
             plain_text p = false ->
             (forall i c, Loader.title (build (i, c))
                          = Loader.part_title p i (length chunks)) ->
             map Loader.title (map build (enumerate 0 chunks))
             = map (title_form p (length (map build (enumerate 0 chunks))))
                   (seq 0 (length (map build (enumerate 0 chunks))))).
  { intros build chunks Hplain Hbuild.
    assert (Hlen : length (map build (enumerate 0 chunks)) = length chunks).
    { rewrite length_map, <- (length_map fst), enumerate_fst, length_seq.
      reflexivity. }
    rewrite Hlen.
    rewrite (built_titles _ (fun i => Loader.part_title p i (length chunks)))
      by exact Hbuild.
    apply map_ext. intros i. unfold title_form. rewrite Hplain. reflexivity. }
  unfold Loader.load_file.
  destruct (str_eqb (Loader.lower (Loader.suffix p)) (lit ".pdf")) eqn:Hpdf.
  { unfold Loader._load_pdf. destruct (Loader.pdf_pages fs p) as [pages |];
      [| reflexivity].
    apply Hparts; [unfold plain_text; rewrite Hpdf; reflexivity|].
    intros; reflexivity. }
  destruct (str_eqb (Loader.lower (Loader.suffix p)) (lit ".docx")) eqn:Hdocx.
  { unfold Loader._load_docx. destruct (Loader.docx_paragraphs fs p);
      [| reflexivity].
    apply Hparts;
      [unfold plain_text; rewrite Hdocx; apply andb_false_r|].
    intros; reflexivity. }
  assert (Hplain : plain_text p = true)
    by (unfold plain_text; rewrite Hpdf, Hdocx; reflexivity).
  destruct (Loader.mem_str _ _); [| reflexivity].
  unfold Loader._load_text. destruct (Loader.read_text fs p) as [text |];
    [| reflexivity].
  unfold Loader.text_documents.
  set (chunks := Loader.chunks_of chunk_size chunk_overlap text).
  set (build := fun '(i, chunk) => Loader.mkDocument chunk _ _ _ _).
  assert (Hlen : length (map build (enumerate 0 chunks)) = length chunks).
  { rewrite length_map, <- (length_map fst), enumerate_fst, length_seq.
    reflexivity. }
  rewrite Hlen.
  destruct (Z.ltb_spec 1 (len chunks)) as [Hmany | Hfew].
  - rewrite (built_titles _ (fun i => Loader.part_title p i (length chunks)))
      by (intros; reflexivity).
    apply map_ext. intros i. unfold title_form.
    destruct (Nat.eqb_spec (length chunks) 1) as [H1 | _];
      [unfold len in Hmany; lia|].
    rewrite andb_false_r. reflexivity.
  - destruct chunks as [| c [| c' chunks]];
      [reflexivity | | unfold len in Hfew; simpl in Hfew; lia].
    cbn [enumerate map length seq Loader.title build].
    unfold title_form. rewrite Hplain. reflexivity.
Qed.

End DocumentFacts.

(** X6: every Document the loader produces, from a file or a directory and
    in every format, has a content that is non-empty and begins and ends
    with a character that is not white space; with a positive chunk size
    the content is at most [chunk_size] long. *)
Theorem documents_hold_trimmed_chunks
        (chunk_size chunk_overlap : Z) (fs : Loader.FileSystem)
        (d : Loader.Document) :
  (exists p, In d (Loader.load_file chunk_size chunk_overlap fs p))
  \/ In d (Loader.load_directory chunk_size chunk_overlap fs) ->
  Loader.content d <> []
  /\ clean_edges (Loader.content d)
  /\ (0 < chunk_size -> len (Loader.content d) <= chunk_size).
Proof.
  intros H.
  assert (Hp : exists p, In d (Loader.load_file chunk_size chunk_overlap fs p)).
  { destruct H as [H | H]; [exact H|].
    unfold Loader.load_directory in H. apply in_flat_map in H.
    destruct H as [p [_ H]]. exists p. exact H. }
  destruct Hp as [p Hd].
  destruct (load_file_contents chunk_size chunk_overlap fs p) as [text Htext].
  assert (Hin : In (Loader.content d)
                   (Loader.chunks_of chunk_size chunk_overlap text)).
  { rewrite <- Htext. apply in_map. exact Hd. }
  pose proof (chunks_of_returned chunk_size chunk_overlap text) as Hret.
  pose proof (loader_chunks_of_windows _ _ _ _ Hret) as Hw.
  rewrite Forall_forall in Hw.
  destruct (chunk_of_window_facts _ _ (Hw _ Hin)) as [Hne [Hclean _]].
  split; [exact Hne|]. split; [exact Hclean|].
  intros Hcs.
  pose proof (chunk_loop_within _ _ _ chunk_overlap Hcs _ _ _
                (Forall_nil _) Hret) as Hlen.
  rewrite Forall_forall in Hlen. exact (Hlen _ Hin).
Qed.

Lemma documents_hold_trimmed_chunks_witness :
  In (Loader.mkDocument (lit "hi") (lit "x") (lit "mv2://docs/x.md#chunk-1")
                        (lit "a/x.md")
                        [(lit "type", lit "md"); (lit "chunk", lit "1");
                         (lit "total_chunks", lit "1")])
     (Loader.load_directory 800 100 two_files_fs)
  /\ lit "hi" <> [] /\ clean_edges (lit "hi")
  /\ (0 < 800 -> len (lit "hi") <= 800).
Proof.
  assert (Hin : In (Loader.mkDocument
                      (lit "hi") (lit "x") (lit "mv2://docs/x.md#chunk-1")
                      (lit "a/x.md")
                      [(lit "type", lit "md"); (lit "chunk", lit "1");
                       (lit "total_chunks", lit "1")])
                   (Loader.load_directory 800 100 two_files_fs))
    by (left; reflexivity).
  split; [exact Hin|].
  exact (documents_hold_trimmed_chunks 800 100 two_files_fs _
           (or_intror Hin)).
Defined.

(** X7: the titles of the Documents of one file are pairwise distinct:
    the only chunk of a plain text file has the stem of the file name for
    title, and in every other case the Document number [i] of [n] has the
    title [<stem> (Part i/n)]. *)
Theorem titles_distinct_within_file
        (chunk_size chunk_overlap : Z) (fs : Loader.FileSystem)
        (p : Loader.Path) :
  let docs := Loader.load_file chunk_size chunk_overlap fs p in
  NoDup (map Loader.title docs)
  /\ forall i d,
       nth_error docs i = Some d ->
       Loader.title d
       = if plain_text p && (length docs =? 1)%nat then Loader.stem p
         else Loader.stem p ++ lit " (Part " ++ str_of_nat (i + 1) ++ lit "/"
                ++ str_of_nat (length docs) ++ lit ")".
Proof.
  intros docs. split; [apply load_file_titles|].
  intros i d Hd.
  pose proof (load_file_title_forms chunk_size chunk_overlap fs p) as Hforms.
  fold docs in Hforms.
  apply (map_nth_error Loader.title) in Hd. rewrite Hforms in Hd.
  rewrite nth_error_map, nth_error_seq in Hd.
  destruct (i <? length docs)%nat; [| discriminate].
  cbn [option_map] in Hd. injection Hd as <-. reflexivity.
Qed.

Lemma titles_distinct_within_file_witness :
  map Loader.title (Loader.load_file 2 0 two_files_fs
                                     (Loader.mkPath [lit "a"] (lit "x.md")))
  = [lit "x"]
  /\ map Loader.title (Loader.load_file 1 0 two_files_fs
                                        (Loader.mkPath [lit "a"] (lit "x.md")))
     = [lit "x (Part 1/2)"; lit "x (Part 2/2)"]
  /\ map Loader.title (Loader.load_file 800 100 pdf_fs
                                        (Loader.mkPath [] (lit "guide.pdf")))
     = [lit "guide (Part 1/1)"]
  /\ forall i d,
       nth_error (Loader.load_file 1 0 two_files_fs
                                   (Loader.mkPath [lit "a"] (lit "x.md"))) i
       = Some d ->
       Loader.title d
       = lit "x (Part " ++ str_of_nat (i + 1) ++ lit "/2)".
Proof.
  split; [reflexivity|]. split; [reflexivity|]. split; [reflexivity|].
  exact (proj2 (titles_distinct_within_file
                  1 0 two_files_fs (Loader.mkPath [lit "a"] (lit "x.md")))).
Defined.

Section DirectoryFacts.

Variables (chunk_size chunk_overlap : Z).
Variable fs : Loader.FileSystem.

Lemma reader_fails_no_document (p : Loader.Path) :
  reader_fails fs p = true ->
  Loader.load_file chunk_size chunk_overlap fs p = [].
Proof.
  unfold reader_fails, Loader.load_file, Loader._load_pdf, Loader._load_docx,
    Loader._load_text.
  destruct (str_eqb _ (lit ".pdf")).
  { destruct (Loader.pdf_pages fs p); [discriminate | reflexivity]. }
  destruct (str_eqb _ (lit ".docx")).
  { destruct (Loader.docx_paragraphs fs p); [discriminate | reflexivity]. }
  destruct (Loader.read_text fs p); [discriminate|].
  intros _. destruct (Loader.mem_str _ _); reflexivity.
Qed.

Lemma flat_map_filter {A B : Type} (f : A -> list B) (g : A -> bool)
      (l : list A) :
  flat_map f (filter g l) = flat_map (fun x => if g x then f x else []) l.
Proof.
  induction l as [| x l IH]; [reflexivity|].
  cbn [filter flat_map]. destruct (g x); cbn [flat_map app]; rewrite IH;
    reflexivity.
Qed.

Lemma directory_of_entries (entries : list Loader.Path) :
  Loader.load_directory chunk_size chunk_overlap (with_entries fs entries)
  = flat_map (fun p =>
                if Loader.is_file fs p
                   && Loader.mem_str (Loader.lower (Loader.suffix p))
                                     Loader.SUPPORTED_EXTENSIONS
                then Loader.load_file chunk_size chunk_overlap fs p else [])
             entries.
Proof.
  unfold Loader.load_directory, Loader.loaded_files.
  change (Loader.rglob (with_entries fs entries)) with entries.
  rewrite flat_map_filter. apply flat_map_ext. intros p. reflexivity.
Qed.

End DirectoryFacts.

(** X8: a directory entry that is no regular file, has an unsupported
    extension, or whose reader raises (a missing parser, an unreadable
    file) gives no Document and leaves the Documents of the other entries,
    and their order, as they are. *)
Theorem skipped_entry_changes_nothing
        (chunk_size chunk_overlap : Z) (fs : Loader.FileSystem)
        (earlier later : list Loader.Path) (p : Loader.Path) :
  skipped fs p = true ->
  Loader.load_directory chunk_size chunk_overlap
                        (with_entries fs (earlier ++ p :: later))
  = Loader.load_directory chunk_size chunk_overlap
                          (with_entries fs (earlier ++ later)).
Proof.
  intros Hskip. rewrite !directory_of_entries, !flat_map_app.
  f_equal. cbn [flat_map].
  replace (if Loader.is_file fs p && _ then _ else _)
    with (@nil Loader.Document); [reflexivity|].
  unfold skipped in Hskip.
  destruct (Loader.is_file fs p); [| reflexivity].
  destruct (Loader.mem_str _ _); [| reflexivity].
  simpl in Hskip. simpl. symmetry.
  apply reader_fails_no_document. exact Hskip.
Qed.

Lemma skipped_entry_changes_nothing_witness :
  skipped pdf_fs (Loader.mkPath [] (lit "bad.md")) = true
  /\ Loader.load_directory 800 100
       (with_entries pdf_fs
          ([Loader.mkPath [] (lit "guide.pdf")]
             ++ Loader.mkPath [] (lit "bad.md") :: []))
     = Loader.load_directory 800 100
         (with_entries pdf_fs ([Loader.mkPath [] (lit "guide.pdf")] ++ [])).
Proof.
  split; [reflexivity|].
  apply (skipped_entry_changes_nothing 800 100 pdf_fs). reflexivity.
Defined.

Section PdfFacts.

Lemma pdf_fold (pages : list (nat * str)) :
  forall full_text,
    fold_left
      (fun full_text '(page_num, text) =>
         if truthy text
         then full_text ++ Loader.NLNL ++ lit "--- Page " ++ str_of_nat page_num
                        ++ lit " ---" ++ Loader.NLNL ++ text
         else full_text)
      pages full_text
    = full_text
        ++ concat (map page_block (filter (fun page => truthy (snd page)) pages)).
Proof.
  induction pages as [| [n t] pages IH]; intros full_text;
    cbn [fold_left filter snd].
  - symmetry. apply app_nil_r.
  - rewrite IH. destruct (truthy t); [| reflexivity].
    cbn [map concat]. unfold page_block. cbn [fst snd].
    rewrite <- !app_assoc. reflexivity.
Qed.

Lemma no_page_with_text (pages : list str) :
  Forall (fun t => t = []) pages ->
  forall k, filter (fun page : nat * str => truthy (snd page)) (enumerate k pages)
            = [].
Proof.
  induction 1 as [| t pages -> _ IH]; intros k; [reflexivity|].
  cbn [enumerate filter snd truthy]. apply IH.
Qed.

End PdfFacts.

(** X9: the text [_load_pdf] chunks is made of one block per page that has
    text, in page order, each headed by [--- Page N ---] with N the number
    of the page among all pages, the empty ones counted; a PDF none of
    whose pages has text gives no Document. *)
Theorem pdf_text_numbers_real_pages
        (chunk_size chunk_overlap : Z) (fs : Loader.FileSystem)
        (p : Loader.Path) (pages : list str) :
  Loader.pdf_full_text pages
  = concat (map page_block
                (filter (fun page => truthy (snd page)) (enumerate 1 pages)))
  /\ (Loader.pdf_pages fs p = Ok pages ->
      Forall (fun t => t = []) pages ->
      Loader._load_pdf chunk_size chunk_overlap fs p = []).
Proof.
  split.
  - unfold Loader.pdf_full_text. rewrite pdf_fold. reflexivity.
  - intros Hpages Hblank. unfold Loader._load_pdf. rewrite Hpages.
    unfold Loader.pdf_full_text. rewrite pdf_fold.
    rewrite (no_page_with_text pages Hblank). reflexivity.
Qed.

Lemma pdf_text_numbers_real_pages_witness :
  Loader.pdf_full_text [lit "one"; []; lit "three"]
  = page_block (1%nat, lit "one") ++ page_block (3%nat, lit "three")
  /\ Loader._load_pdf 800 100
       (Loader.mkFS [] (fun _ => true) (fun _ => Raise OtherError)
                    (fun _ => Ok [[]; []]) (fun _ => Raise ImportError))
       (Loader.mkPath [] (lit "scan.pdf"))
     = [].
Proof.
  split.
  - rewrite (proj1 (pdf_text_numbers_real_pages
                      800 100 pdf_fs (Loader.mkPath [] (lit "guide.pdf"))
                      [lit "one"; []; lit "three"])).
    cbn [enumerate filter snd truthy lit map list_ascii_of_string concat].
    rewrite app_nil_r. reflexivity.
  - apply (proj2 (pdf_text_numbers_real_pages
                    800 100
                    (Loader.mkFS [] (fun _ => true) (fun _ => Raise OtherError)
                                 (fun _ => Ok [[]; []])
                                 (fun _ => Raise ImportError))
                    (Loader.mkPath [] (lit "scan.pdf")) [[]; []]));
      [reflexivity | repeat constructor].
Defined.

(** * Ingesting into the store *)

Section DictFacts.




End DictFacts.



Section CliLoopFacts.

Variable encodable : str -> bool.
Variable cli_put : str -> Cli.run unit.

(** One iteration on an encodable document: the count moves by one exactly
    when the command exits with zero, and the temporary files are as
    before, the next name apart. *)
Lemma ingest_one_encodable (doc : Loader.Document) (fs : TempFiles.TempFS)
      (count : nat) :
  fresh fs -> encodable (Loader.content doc) = true ->
  exists fs',
    IngestCli.ingest_one encodable cli_put doc fs count
    = (Ok (if exits_zero (cli_put (Loader.content doc))
           then S count else count), fs')
    /\ TempFiles.files fs' = TempFiles.files fs
    /\ TempFiles.next_name fs' = S (TempFiles.next_name fs).
Proof.
  intros Hfresh Henc.
  destruct (fresh_untouched fs (Loader.content doc) Hfresh) as [H1 H2].
  destruct fs as [files n]. cbn [TempFiles.files TempFiles.next_name] in *.
  unfold IngestCli.ingest_one, TempFiles.create, TempFiles.write.
  cbn [TempFiles.files TempFiles.next_name map fst].
  rewrite Henc, Nat.eqb_refl, H1.
  unfold TempFiles.unlink, TempFiles.exists_.
  cbn [TempFiles.files TempFiles.next_name existsb filter fst].
  rewrite Nat.eqb_refl. cbn [orb negb]. rewrite H2.
  exists (TempFiles.mkTempFS files (S n)). split; [| split; reflexivity].
  unfold exits_zero. destruct (cli_put (Loader.content doc)); reflexivity.
Qed.

Lemma fresh_after (fs fs' : TempFiles.TempFS) :
  fresh fs -> TempFiles.files fs' = TempFiles.files fs ->
  TempFiles.next_name fs' = S (TempFiles.next_name fs) -> fresh fs'.
Proof.
  unfold fresh. intros H Hf Hn f Hin. rewrite Hf in Hin. rewrite Hn.
  specialize (H f Hin). lia.
Qed.

Lemma ingest_loop_encodable (documents : list Loader.Document) :
  Forall (fun doc => encodable (Loader.content doc) = true) documents ->
  forall fs count,
    fresh fs ->
    exists fs',
      IngestCli.ingest_loop encodable cli_put documents fs count
      = (Ok (count
             + length (filter (fun doc =>
                                 exits_zero (cli_put (Loader.content doc)))
                              documents))%nat, fs')
      /\ TempFiles.files fs' = TempFiles.files fs
      /\ TempFiles.next_name fs'
         = (TempFiles.next_name fs + length documents)%nat.
Proof.
  induction 1 as [| doc rest Hdoc _ IH]; intros fs count Hfresh;
    cbn [IngestCli.ingest_loop filter length].
  - exists fs. rewrite !Nat.add_0_r. auto.
  - destruct (ingest_one_encodable doc fs count Hfresh Hdoc)
      as [fs1 [Hone [Hfiles Hnext]]].
    rewrite Hone.
    destruct (IH fs1 (if exits_zero (cli_put (Loader.content doc))
                      then S count else count)
                (fresh_after fs fs1 Hfresh Hfiles Hnext))
      as [fs' [Hloop [Hfiles' Hnext']]].
    exists fs'. rewrite Hloop. split; [| split].
    + f_equal. f_equal.
      destruct (exits_zero (cli_put (Loader.content doc))); simpl; lia.
    + congruence.
    + rewrite Hnext', Hnext. lia.
Qed.

(** Each iteration adds at most one to the count. *)
Lemma ingest_loop_bound (documents : list Loader.Document) :
  forall fs count n fs',
    IngestCli.ingest_loop encodable cli_put documents fs count = (Ok n, fs') ->
    (count <= n <= count + length documents)%nat.
Proof.
  induction documents as [| doc rest IH]; intros fs count n fs' H;
    cbn [IngestCli.ingest_loop length] in *.
  - injection H as <- _. lia.
  - destruct (IngestCli.ingest_one encodable cli_put doc fs count)
      as [[m | e] fs1] eqn:Hone; [| discriminate].
    apply IH in H.
    assert (Hm : (count <= m <= S count)%nat).
    { unfold IngestCli.ingest_one in Hone.
      destruct (TempFiles.create fs) as [temp_path fs0].
      destruct (TempFiles.write encodable fs0 temp_path (Loader.content doc));
        [| discriminate].
      destruct (TempFiles.unlink a temp_path); [| discriminate].
      injection Hone as <- _.
      destruct (cli_put (Loader.content doc)) as [rc out | e];
        [destruct (rc =? 0) |]; lia. }
    lia.
Qed.

End CliLoopFacts.

(** X11: over documents whose texts can all be encoded, [_ingest_via_cli]
    returns the number of documents for which the command exited with
    status zero, and when it returns the temporary files are those that
    were there before the call: each of its own was removed. *)
Theorem cli_ingest_counts_and_cleans
        (encodable : str -> bool) (cli_put : str -> Cli.run unit)
        (documents : list Loader.Document) (fs : TempFiles.TempFS) :
  fresh fs ->
  Forall (fun doc => encodable (Loader.content doc) = true) documents ->
  exists fs',
    IngestCli._ingest_via_cli encodable cli_put documents fs
    = (Ok (length (filter (fun doc => exits_zero (cli_put (Loader.content doc)))
                          documents)), fs')
    /\ TempFiles.files fs' = TempFiles.files fs.
Proof.
  intros Hfresh Henc.
  destruct (ingest_loop_encodable encodable cli_put documents Henc fs 0 Hfresh)
    as [fs' [Hloop [Hfiles _]]].
  exists fs'. split; [exact Hloop | exact Hfiles].
Qed.

Lemma cli_ingest_counts_and_cleans_witness :
  exists fs',
    IngestCli._ingest_via_cli TempFiles.utf8_encodable (Ingest.cli_put cli_world)
                              [doc_a; doc_b; doc_a] (TempFiles.mkTempFS [] 0)
    = (Ok 2%nat, fs')
    /\ TempFiles.files fs' = [].
Proof.
  apply (cli_ingest_counts_and_cleans
           TempFiles.utf8_encodable (Ingest.cli_put cli_world)
           [doc_a; doc_b; doc_a] (TempFiles.mkTempFS [] 0)).
  - intros f [].
  - repeat constructor.
Defined.

Section IngestFacts.

Lemma put_all_bound (w : Ingest.World) (documents : list Loader.Document) :
  forall count,
    (count <= Ingest.put_all w documents count <= count + length documents)%nat.
Proof.
  induction documents as [| doc rest IH]; intros count;
    cbn [Ingest.put_all length]; [lia|].
  destruct (Ingest.sdk_put w doc).
  - specialize (IH (S count)). lia.
  - specialize (IH count). lia.
Qed.

End IngestFacts.

(** X12: whatever the variant and whatever the back end answers, [ingest]
    never reports more chunks than it was given; given no document it
    reports zero and touches neither the temporary files nor the store. *)
Theorem ingest_reports_at_most_given
        (w : Ingest.World) (self : MemvidIngester.Ingester)
        (documents : list Loader.Document) (fs : TempFiles.TempFS) :
  (forall n fs' written,
      Ingest.ingest w self documents fs = (Ok n, fs', written) ->
      (n <= length documents)%nat)
  /\ Ingest.ingest w self [] fs = (Ok 0%nat, fs, None).
Proof.
  split; [| reflexivity].
  intros n fs' written. unfold Ingest.ingest.
  destruct documents as [| doc rest]; [intros H; injection H as <- _ _; lia|].
  remember (doc :: rest) as documents eqn:Hdocs. clear Hdocs.
  destruct (MemvidIngester._sdk_available self).
  - intros H. injection H as <- _ _. unfold Ingest._ingest_via_sdk.
    destruct (Ingest.sdk_open w); [| lia].
    pose proof (put_all_bound w documents 0).
    destruct (Ingest.sdk_commit w); lia.
  - destruct (str_eqb _ (lit ".json")).
    + unfold Ingest._ingest_via_json.
      destruct (Ingest.json_read w); [| intros H; injection H as <- _ _; lia].
      destruct (Ingest.append_documents a documents);
        [| intros H; injection H as <- _ _; lia].
      destruct (Ingest.json_write w); intros H; injection H as <- _ _; lia.
    + destruct (IngestCli._ingest_via_cli (Ingest.encodable w) (Ingest.cli_put w)
                  documents fs) as [r fs1] eqn:E.
      intros H. injection H as -> _ _.
      apply ingest_loop_bound in E. lia.
Qed.

Lemma ingest_reports_at_most_given_witness :
  exists n fs' written,
    Ingest.ingest cli_world
      (MemvidIngester.mkIngester (Loader.mkPath [] (lit "infra.mv2")) false)
      [doc_a; doc_b] (TempFiles.mkTempFS [] 0)
    = (Ok n, fs', written)
    /\ (n <= length [doc_a; doc_b])%nat.
Proof.
  eexists _, _, _. split; [reflexivity|].
  exact (proj1 (ingest_reports_at_most_given
                  cli_world
                  (MemvidIngester.mkIngester (Loader.mkPath [] (lit "infra.mv2"))
                                             false)
                  [doc_a; doc_b] (TempFiles.mkTempFS [] 0))
               _ _ _ eq_refl).
Defined.

(** * Creation followed by ingestion *)

Section SuffixFacts.

Lemma rfind_from_absent (c : char) (t : str) :
  ~ In c t -> forall j, rfind_from j t [c] = -1.
Proof.
  induction t as [| a t IH]; intros Hnotin j; cbn [rfind_from startswith];
    [reflexivity|].
  rewrite IH by (intros H; apply Hnotin; right; exact H).
  change (0 <=? -1) with false. cbv iota.
  destruct (N.eqb_spec c a) as [-> | _]; [| reflexivity].
  exfalso. apply Hnotin. left. reflexivity.
Qed.

(** The last occurrence of a character that the tail does not hold. *)
Lemma rfind_from_last (c : char) (s t : str) :
  ~ In c t -> forall i, 0 <= i -> rfind_from i (s ++ c :: t) [c] = i + len s.
Proof.
  intros Hnotin. induction s as [| a s IH]; intros i Hi.
  - cbn [app rfind_from]. rewrite (rfind_from_absent c t Hnotin).
    change (0 <=? -1) with false. cbv iota. cbn [startswith].
    rewrite N.eqb_refl. unfold len. destruct t; simpl; lia.
  - cbn [app rfind_from]. rewrite IH by lia.
    pose proof (len_nonneg s).
    destruct (Z.leb_spec 0 (i + 1 + len s)); [| lia].
    unfold len. simpl length. lia.
Qed.

Lemma slice_tail {A : Type} (a b : list A) :
  slice (a ++ b) (len a) (len (a ++ b)) = b.
Proof.
  pose proof (len_nonneg a). pose proof (len_nonneg b).
  assert (Hlen : len (a ++ b) = len a + len b)
    by (unfold len; rewrite length_app; lia).
  rewrite slice_inside by lia.
  rewrite Z.min_id, (Z.min_l (len a)) by lia.
  unfold len at 3. rewrite Nat2Z.id, skipn_app, skipn_all, Nat.sub_diag.
  cbn [app skipn]. apply firstn_all2. unfold len in *. lia.
Qed.

Lemma stem_nonempty (p : Loader.Path) :
  Loader.name p <> [] -> Loader.stem p <> [].
Proof.
  intros Hname. unfold Loader.stem.
  set (i := rfind (Loader.name p) (lit ".")).
  destruct (Z.ltb_spec 0 i) as [Hi | _]; [| exact Hname].
  destruct (Z.ltb_spec i (len (Loader.name p) - 1)) as [Hi' | _];
    [| exact Hname].
  cbn [andb]. intros Hempty.
  assert (Hlen : len (slice (Loader.name p) 0 i) = 0)
    by (rewrite Hempty; reflexivity).
  rewrite slice_inside in Hlen by lia. unfold len in Hlen.
  rewrite length_firstn, length_skipn in Hlen. unfold len in *. lia.
Qed.

(** The fallback file has the extension [.json]. *)
Lemma fallback_suffix (p p' : Loader.Path) :
  MemvidIngester.with_suffix_json p = Ok p' -> Loader.suffix p' = lit ".json".
Proof.
  unfold MemvidIngester.with_suffix_json.
  destruct (Loader.name p) eqn:Hname; [discriminate|].
  intros H. injection H as <-.
  assert (Hstem : Loader.stem p <> [])
    by (apply stem_nonempty; rewrite Hname; discriminate).
  unfold Loader.suffix. cbn [Loader.name].
  change (lit ".json") with (46%N :: lit "json").
  change (lit ".") with [46%N].
  unfold rfind. rewrite rfind_from_last;
    [| simpl; intuition discriminate | lia].
  pose proof (len_nonneg (Loader.stem p)) as Hpos.
  assert (Hlen : len (Loader.stem p ++ 46%N :: lit "json")
                 = len (Loader.stem p) + 5).
  { unfold len. rewrite length_app. simpl. lia. }
  assert (Hs : 0 < len (Loader.stem p)).
  { destruct (Loader.stem p); [congruence | unfold len; simpl; lia]. }
  rewrite Z.add_0_l.
  destruct (Z.ltb_spec 0 (len (Loader.stem p))); [| lia].
  destruct (Z.ltb_spec (len (Loader.stem p))
              (len (Loader.stem p ++ 46%N :: lit "json") - 1)); [| lia].
  cbn [andb]. apply slice_tail.
Qed.

End SuffixFacts.

Section CreateFacts.

Variable w : MemvidIngester.World.

(** What [_create_fallback] can answer. *)
Lemma create_fallback_cases (self : MemvidIngester.Ingester) :
  (exists self',
      MemvidIngester._create_fallback w self
      = (true, self', [MemvidIngester.WriteJson])
      /\ MemvidIngester._sdk_available self'
         = MemvidIngester._sdk_available self
      /\ MemvidIngester.with_suffix_json (MemvidIngester.memory_file self)
         = Ok (MemvidIngester.memory_file self')
      /\ exists u, MemvidIngester.write_json w = Ok u)
  \/ (exists t, MemvidIngester._create_fallback w self = (false, self, t)).
Proof.
  unfold MemvidIngester._create_fallback.
  destruct (MemvidIngester.with_suffix_json (MemvidIngester.memory_file self))
    as [fallback_file |]; [| right; eexists; reflexivity].
  destruct (MemvidIngester.write_json w) as [u |];
    [| right; eexists; reflexivity].
  left. eexists. repeat split. exists u. reflexivity.
Qed.

(** What [_create_via_cli] can answer: the status of the command, a
    failure, or the fallback after a [FileNotFoundError]. *)
Lemma create_via_cli_cases (self : MemvidIngester.Ingester) :
  (exists r t,
      MemvidIngester._create_via_cli w self = (r, self, t)
      /\ ~ In MemvidIngester.WriteJson t
      /\ (r = true -> exists out, MemvidIngester.cli_create w = Cli.Exits 0 out))
  \/ (exists r self' t pre,
         MemvidIngester._create_via_cli w self = (r, self', pre ++ t)
         /\ MemvidIngester._create_fallback w self = (r, self', t)
         /\ (MemvidIngester.unlink w = Raise FileNotFoundError
             \/ MemvidIngester.cli_create w = Cli.RunRaises FileNotFoundError)).
Proof.
  unfold MemvidIngester._create_via_cli, MemvidIngester.run_cli,
    MemvidIngester.cli_handler.
  destruct (MemvidIngester._create_fallback w self) as [[rf selff] tf] eqn:Hf.
  assert (Hplain : forall r t,
             ~ In MemvidIngester.WriteJson t -> r = false ->
             (exists r0 t0,
                 (r, self, t) = (r0, self, t0)
                 /\ ~ In MemvidIngester.WriteJson t0
                 /\ (r0 = true ->
                     exists out,
                       MemvidIngester.cli_create w = Cli.Exits 0 out))
             \/ (exists r0 self' t0 pre,
                    (r, self, t) = (r0, self', pre ++ t0)
                    /\ (rf, selff, tf) = (r0, self', t0)
                    /\ (MemvidIngester.unlink w = Raise FileNotFoundError
                        \/ MemvidIngester.cli_create w
                           = Cli.RunRaises FileNotFoundError))).
  { intros r t Ht ->. left. exists false, t. repeat split; [exact Ht|].
    discriminate. }
  destruct (MemvidIngester.file_exists w).
  - destruct (MemvidIngester.unlink w) as [u | e] eqn:Hu.
    + destruct (MemvidIngester.cli_create w) as [rc out | e] eqn:Hc.
      * left. exists (rc =? 0), ([MemvidIngester.Unlink] ++ [MemvidIngester.CliCreate]).
        repeat split; [simpl; intuition discriminate|].
        intros Hz. apply Z.eqb_eq in Hz. subst rc. exists out. reflexivity.
      * destruct e; try (apply Hplain; [simpl; intuition discriminate | reflexivity]).
        right. exists rf, selff, tf,
                 ([MemvidIngester.Unlink] ++ [MemvidIngester.CliCreate]).
        repeat split; auto.
    + destruct e; try (apply Hplain; [simpl; intuition discriminate | reflexivity]).
      right. exists rf, selff, tf, [MemvidIngester.Unlink].
      repeat split; auto.
  - destruct (MemvidIngester.cli_create w) as [rc out | e] eqn:Hc.
    + left. exists (rc =? 0), ([] ++ [MemvidIngester.CliCreate]).
      repeat split; [simpl; intuition discriminate|].
      intros Hz. apply Z.eqb_eq in Hz. subst rc. exists out. reflexivity.
    + destruct e; try (apply Hplain; [simpl; intuition discriminate | reflexivity]).
      right. exists rf, selff, tf, ([] ++ [MemvidIngester.CliCreate]).
      repeat split; auto.
Qed.

End CreateFacts.

Section FallbackFacts.

Variable w : MemvidIngester.World.
Variable self : MemvidIngester.Ingester.

Hypothesis Hno_sdk :
  MemvidIngester._sdk_available self = false
  \/ exists e, MemvidIngester.sdk_create w = Raise e.
Hypothesis Hunlink :
  MemvidIngester.file_exists w = true ->
  exists u, MemvidIngester.unlink w = Ok u.
Hypothesis Hno_cli :
  MemvidIngester.cli_create w = Cli.RunRaises FileNotFoundError.
Hypothesis Hwrite : exists u, MemvidIngester.write_json w = Ok u.
Hypothesis Hname : Loader.name (MemvidIngester.memory_file self) <> [].

(** With no usable SDK and no [memvid] executable, [create_memory] answers
    [True] and points the ingester at a [.json] file. *)
Lemma fallback_created :
  exists self' trace,
    MemvidIngester.create_memory w self = (true, self', trace)
    /\ Loader.suffix (MemvidIngester.memory_file self') = lit ".json"
    /\ MemvidIngester._sdk_available self'
       = MemvidIngester._sdk_available self.
Proof.
  destruct Hwrite as [u Hw].
  destruct (MemvidIngester.with_suffix_json (MemvidIngester.memory_file self))
    as [fallback_file | e] eqn:Hsuffix.
  2:{ unfold MemvidIngester.with_suffix_json in Hsuffix.
      destruct (Loader.name (MemvidIngester.memory_file self));
        [congruence | discriminate]. }
  assert (Hcli : exists trace,
             MemvidIngester._create_via_cli w self
             = (true,
                MemvidIngester.mkIngester
                  fallback_file (MemvidIngester._sdk_available self),
                trace)).
  { unfold MemvidIngester._create_via_cli, MemvidIngester.run_cli,
      MemvidIngester.cli_handler, MemvidIngester._create_fallback.
    rewrite Hno_cli, Hsuffix, Hw.
    destruct (MemvidIngester.file_exists w).
    - destruct (Hunlink eq_refl) as [u' ->]. eexists. reflexivity.
    - eexists. reflexivity. }
  destruct Hcli as [trace Hcli].
  unfold MemvidIngester.create_memory. rewrite Hcli.
  pose proof (fallback_suffix _ _ Hsuffix) as Hjson.
  destruct Hno_sdk as [Hoff | [e He]].
  - rewrite Hoff. eexists _, _. split; [reflexivity|]. split; [exact Hjson|].
    reflexivity.
  - rewrite He. destruct (MemvidIngester._sdk_available self);
      (eexists _, _; split; [reflexivity|]; split; [exact Hjson | reflexivity]).
Qed.

End FallbackFacts.



(** X14: when the SDK was importable but raised at creation and the
    [memvid] executable is missing, [create_memory] answers [True] with the
    JSON fallback, yet the [ingest] that follows still goes through the SDK:
    it reports what the SDK stored and writes nothing to the JSON file. *)
Theorem fallback_under_sdk_ingests_through_sdk
        (w : MemvidIngester.World) (iw : Ingest.World)
        (self : MemvidIngester.Ingester)
        (documents : list Loader.Document) (fs : TempFiles.TempFS) :
  MemvidIngester._sdk_available self = true ->
  (exists e, MemvidIngester.sdk_create w = Raise e) ->
  (MemvidIngester.file_exists w = true ->
   exists u, MemvidIngester.unlink w = Ok u) ->
  MemvidIngester.cli_create w = Cli.RunRaises FileNotFoundError ->
  (exists u, MemvidIngester.write_json w = Ok u) ->
  Loader.name (MemvidIngester.memory_file self) <> [] ->
  documents <> [] ->
  exists self' trace,
    MemvidIngester.create_memory w self = (true, self', trace)
    /\ Loader.suffix (MemvidIngester.memory_file self') = lit ".json"
    /\ Ingest.ingest iw self' documents fs
       = (Ok (Ingest._ingest_via_sdk iw documents), fs, None)
    /\ ((exists e, Ingest.sdk_open iw = Raise e) ->
        Ingest.ingest iw self' documents fs = (Ok 0%nat, fs, None)).
Proof.
  intros Hon Hraise Hunlink Hno_cli Hwrite Hname Hdocs.
  destruct (fallback_created w self (or_intror Hraise) Hunlink Hno_cli Hwrite
              Hname) as [self' [trace [Hcreate [Hjson Hsdk]]]].
  exists self', trace. split; [exact Hcreate|]. split; [exact Hjson|].
  assert (Hingest : Ingest.ingest iw self' documents fs
                    = (Ok (Ingest._ingest_via_sdk iw documents), fs, None)).
  { unfold Ingest.ingest. destruct documents; [congruence|].
    rewrite Hsdk, Hon. reflexivity. }
  split; [exact Hingest|].
  intros [e He]. rewrite Hingest. unfold Ingest._ingest_via_sdk.
  rewrite He. reflexivity.
Qed.

Lemma fallback_under_sdk_ingests_through_sdk_witness :
  exists self' trace,
    MemvidIngester.create_memory bare_world
      (MemvidIngester.mkIngester (Loader.mkPath [lit "memories"] (lit "infra.mv2"))
                                 true)
    = (true, self', trace)
    /\ Loader.suffix (MemvidIngester.memory_file self') = lit ".json"
    /\ Ingest.ingest (json_world Ingest.FALLBACK_STORE) self' [doc_a; doc_b]
                     (TempFiles.mkTempFS [] 0)
       = (Ok (Ingest._ingest_via_sdk (json_world Ingest.FALLBACK_STORE)
                                     [doc_a; doc_b]),
          TempFiles.mkTempFS [] 0, None)
    /\ ((exists e, Ingest.sdk_open (json_world Ingest.FALLBACK_STORE) = Raise e) ->
        Ingest.ingest (json_world Ingest.FALLBACK_STORE) self' [doc_a; doc_b]
                      (TempFiles.mkTempFS [] 0)
        = (Ok 0%nat, TempFiles.mkTempFS [] 0, None)).
Proof.
  apply (fallback_under_sdk_ingests_through_sdk
           bare_world (json_world Ingest.FALLBACK_STORE)
           (MemvidIngester.mkIngester
              (Loader.mkPath [lit "memories"] (lit "infra.mv2")) true)
           [doc_a; doc_b] (TempFiles.mkTempFS [] 0)).
  - reflexivity.
  - exists OtherError. reflexivity.
  - intros _. exists tt. reflexivity.
  - reflexivity.
  - exists tt. reflexivity.
  - discriminate.
  - discriminate.
Defined.

(** X15: [create_memory] keeps [_sdk_available]; it leaves [memory_file] as
    it is unless it answers [True] through the fallback, in which case the
    new file has the extension [.json]; it answers [True] only when the SDK
    created the store, the command exited with status zero, or the fallback
    file was written; and the fallback file is written only after a
    [FileNotFoundError] from the removal of a stale file or from the
    command. *)
Theorem create_memory_outcomes
        (w : MemvidIngester.World) (self self' : MemvidIngester.Ingester)
        (r : bool) (trace : list MemvidIngester.event) :
  MemvidIngester.create_memory w self = (r, self', trace) ->
  MemvidIngester._sdk_available self' = MemvidIngester._sdk_available self
  /\ (MemvidIngester.memory_file self' = MemvidIngester.memory_file self
      \/ (r = true
          /\ Loader.suffix (MemvidIngester.memory_file self') = lit ".json"))
  /\ (r = true ->
      (exists u, MemvidIngester.sdk_create w = Ok u)
      \/ (exists out, MemvidIngester.cli_create w = Cli.Exits 0 out)
      \/ In MemvidIngester.WriteJson trace)
  /\ (In MemvidIngester.WriteJson trace ->
      MemvidIngester.unlink w = Raise FileNotFoundError
      \/ MemvidIngester.cli_create w = Cli.RunRaises FileNotFoundError).
Proof.
  assert (Hcli : forall r0 self0 t0 pre0,
             MemvidIngester._create_via_cli w self = (r0, self0, t0) ->
             ~ In MemvidIngester.WriteJson pre0 ->
             MemvidIngester._sdk_available self0
             = MemvidIngester._sdk_available self
             /\ (MemvidIngester.memory_file self0
                 = MemvidIngester.memory_file self
                 \/ (r0 = true
                     /\ Loader.suffix (MemvidIngester.memory_file self0)
                        = lit ".json"))
             /\ (r0 = true ->
                 (exists out, MemvidIngester.cli_create w = Cli.Exits 0 out)
                 \/ In MemvidIngester.WriteJson (pre0 ++ t0))
             /\ (In MemvidIngester.WriteJson (pre0 ++ t0) ->
                 MemvidIngester.unlink w = Raise FileNotFoundError
                 \/ MemvidIngester.cli_create w
                    = Cli.RunRaises FileNotFoundError)).
  { intros r0 self0 t0 pre0 Hrun Hpre.
    destruct (create_via_cli_cases w self)
      as [[r1 [t1 [H1 [Hnot Hzero]]]]
         | [r1 [self1 [t1 [pre [H1 [Hfb Hfnf]]]]]]];
      rewrite H1 in Hrun; injection Hrun as <- <- <-.
    - split; [reflexivity|]. split; [left; reflexivity|]. split.
      + intros Hr. left. exact (Hzero Hr).
      + intros Hin. apply in_app_or in Hin. tauto.
    - destruct (create_fallback_cases w self)
        as [[self2 [H2 [Hsdk [Hsuffix _]]]] | [t2 H2]];
        rewrite H2 in Hfb; injection Hfb as <- <- <-.
      + split; [exact Hsdk|]. split.
        * right. split; [reflexivity|]. exact (fallback_suffix _ _ Hsuffix).
        * split; [| intros _; exact Hfnf].
          intros _. right. apply in_or_app. right. apply in_or_app.
          right. left. reflexivity.
      + split; [reflexivity|]. split; [left; reflexivity|].
        split; [discriminate | intros _; exact Hfnf]. }
  unfold MemvidIngester.create_memory.
  destruct (MemvidIngester._create_via_cli w self) as [[r0 self0] t0] eqn:Hrun.
  destruct (MemvidIngester._sdk_available self) eqn:Hav.
  - destruct (MemvidIngester.sdk_create w) as [u | e] eqn:Hsdk.
    + intros H. injection H as <- <- <-.
      split; [exact Hav|]. split; [left; reflexivity|]. split.
      * intros _. left. exists u. reflexivity.
      * simpl. intuition discriminate.
    + intros H. injection H as <- <- <-.
      destruct (Hcli r0 self0 t0 [MemvidIngester.SdkCreate] eq_refl)
        as [H1 [H2 [H3 H4]]]; [simpl; intuition discriminate|].
      split; [exact H1|]. split; [exact H2|]. split.
      * intros Hr. right. exact (H3 Hr).
      * exact H4.
  - intros H. injection H as <- <- <-.
    destruct (Hcli r0 self0 t0 [] eq_refl) as [H1 [H2 [H3 H4]]];
      [intros []|].
    split; [exact H1|]. split; [exact H2|]. split.
    + intros Hr. right. exact (H3 Hr).
    + exact H4.
Qed.

Lemma create_memory_outcomes_witness :
  exists self' trace,
    MemvidIngester.create_memory bare_world
      (MemvidIngester.mkIngester (Loader.mkPath [lit "memories"] (lit "infra.mv2"))
                                 true)
    = (true, self', trace)
    /\ MemvidIngester._sdk_available self' = true
    /\ (MemvidIngester.memory_file self'
        = Loader.mkPath [lit "memories"] (lit "infra.mv2")
        \/ (true = true
            /\ Loader.suffix (MemvidIngester.memory_file self') = lit ".json")).
Proof.
  eexists _, _. split; [reflexivity|].
  pose proof (create_memory_outcomes
                bare_world
                (MemvidIngester.mkIngester
                   (Loader.mkPath [lit "memories"] (lit "infra.mv2")) true)
                _ _ _ eq_refl) as [H1 [H2 _]].
  split; [exact H1 | exact H2].
Defined.

(** * Statistics, answers and the chat *)

(** X16: [stats] never raises, and whenever its back end met an error (the
    SDK raised, or the command raised, exited with a non-zero status or
    printed no JSON) it answers a dict whose only entry is [error], with a
    message. *)
Theorem stats_reports_errors (w : Stats.World) (_sdk_available : bool) :
  (exists v, Stats.stats w _sdk_available = Ok v)
  /\ (stats_failed w _sdk_available = true ->
      exists msg,
        Stats.stats w _sdk_available = Ok (JObj [(lit "error", JStr msg)])).
Proof.
  unfold Stats.stats. split.
  - destruct (if _sdk_available then _ else _); eexists; reflexivity.
  - unfold stats_failed, Stats.sdk_body, Stats.cli_body.
    destruct _sdk_available.
    + destruct (Stats.sdk_stats w); [discriminate|].
      intros _. eexists. reflexivity.
    + destruct (Stats.cli_stats w) as [rc [out err] | e];
        [| intros _; eexists; reflexivity].
      destruct (rc =? 0); [| intros _; eexists; reflexivity].
      destruct out; [discriminate | intros _; eexists; reflexivity].
Qed.

Lemma stats_reports_errors_witness :
  exists msg,
    Stats.stats (Stats.mkWorld (Raise ImportError)
                               (Cli.Exits 2 (Raise JSONDecodeError,
                                             lit "no such file"))
                               (fun _ => lit "failed"))
                false
    = Ok (JObj [(lit "error", JStr msg)]).
Proof.
  apply (proj2 (stats_reports_errors
                  (Stats.mkWorld (Raise ImportError)
                                 (Cli.Exits 2 (Raise JSONDecodeError,
                                               lit "no such file"))
                                 (fun _ => lit "failed"))
                  false)).
  reflexivity.
Defined.

Section AskFacts.

Variable py_repr : json -> str.


End AskFacts.



Section SdkHitFacts.

Variable py_repr : json -> str.

Lemma projected_hits (hits hits' : list json) :
  MemvidMemory.map_result MemvidMemory.project hits = Ok hits' ->
  Forall four_fields hits' /\ length hits' = length hits.
Proof.
  revert hits'. induction hits as [| hit hits IH]; intros hits' H;
    cbn [MemvidMemory.map_result] in H.
  - injection H as <-. split; [constructor | reflexivity].
  - destruct (MemvidMemory.project hit) as [h |] eqn:Hp; [| discriminate].
    cbn [bind] in H.
    destruct (MemvidMemory.map_result MemvidMemory.project hits) as [l |];
      [| discriminate].
    cbn [bind] in H. injection H as <-.
    destruct (IH l eq_refl) as [Hall Hlen].
    split; [| simpl; congruence].
    constructor; [| exact Hall].
    destruct hit; try discriminate. injection Hp as <-.
    eexists _, _, _, _. reflexivity.
Qed.

(** What is written for the copy of a hit: the same text and score, the
    same title when the hit has one, no title otherwise. *)
Lemma copied_hit_written (hit hit' : json) :
  copied_hit hit hit' ->
  well_formed_hit hit ->
  well_formed_hit hit'
  /\ score_text hit' = score_text hit
  /\ hit_text hit' = hit_text hit
  /\ hit_title py_repr hit' = untitled_title py_repr hit.
Proof.
  intros [d [-> ->]] [d0 [s [x [Hd [Htext [Hscore Hfin]]]]]].
  injection Hd as <-.
  assert (Hdouble :
            hit_double
              (JObj [(lit "text", match dict_get d (lit "text") with
                                  | Some v => v | None => JStr [] end);
                     (lit "title", match dict_get d (lit "title") with
                                   | Some v => v | None => JStr [] end);
                     (lit "score", match dict_get d (lit "score") with
                                   | Some v => v
                                   | None => JFloat (S754_zero false) end);
                     (lit "uri", match dict_get d (lit "uri") with
                                 | Some v => v | None => JStr [] end)])
            = hit_double (JObj d)).
  { unfold hit_double.
    change (dict_get (_ :: _ :: (lit "score", ?v) :: _) (lit "score"))
      with (Some v).
    destruct (dict_get d (lit "score")); reflexivity. }
  split; [| split; [| split]].
  - eexists _, s, x. split; [reflexivity|].
    split; [| split; [rewrite Hdouble; exact Hscore | exact Hfin]].
    change (dict_get ((lit "text", ?v) :: _) (lit "text")) with (Some v).
    destruct (dict_get d (lit "text")); [exact Htext | congruence].
  - unfold score_text. rewrite Hdouble. reflexivity.
  - unfold hit_text.
    change (dict_get ((lit "text", ?v) :: _) (lit "text")) with (Some v).
    destruct (dict_get d (lit "text")); reflexivity.
  - unfold untitled_title, hit_title.
    change (dict_get (_ :: (lit "title", ?v) :: _) (lit "title"))
      with (Some v).
    destruct (dict_get d (lit "title")); reflexivity.
Qed.

Lemma copied_hits_written (hits hits' : list json) :
  Forall2 copied_hit hits hits' ->
  Forall well_formed_hit hits ->
  Forall well_formed_hit hits'
  /\ map score_text hits' = map score_text hits
  /\ map hit_text hits' = map hit_text hits
  /\ map (hit_title py_repr) hits' = map (untitled_title py_repr) hits.
Proof.
  induction 1 as [| hit hit' hits hits' Hc _ IH]; intros Hwf.
  - repeat split; constructor.
  - inversion Hwf as [| ? ? Hhit Hrest]; subst.
    destruct (copied_hit_written _ _ Hc Hhit) as [H1 [H2 [H3 H4]]].
    destruct (IH Hrest) as [I1 [I2 [I3 I4]]].
    split; [constructor; assumption|].
    cbn [map]. rewrite H2, H3, H4, I2, I3, I4. repeat split.
Qed.

Lemma well_formed_is_dict (hits : list json) :
  Forall well_formed_hit hits -> Forall is_dict hits.
Proof.
  apply Forall_impl. intros hit [d [s [x [-> _]]]]. exists d. reflexivity.
Qed.

End SdkHitFacts.

(** X18: with the SDK, [search] always returns a list, and every hit in it
    is a dict with exactly the entries [text], [title], [score] and [uri].
    When the back end answers well-formed hits, each returned hit has the
    text, title, score and uri of the hit of the back end, and the empty
    string or the score 0.0 for a field that hit has not; so [retrieve]
    writes the same text and score as for the hit of the back end, and an
    empty title, not [Untitled], for a hit without title. *)
Theorem sdk_hits_have_four_fields
        (py_repr : json -> str) (w : MemvidMemory.World) (query : str)
        (top_k snippet_chars : Z) :
  (exists hits,
      MemvidMemory.search w true query top_k snippet_chars = Ok (JArr hits)
      /\ Forall four_fields hits)
  /\ forall d sources,
       MemvidMemory.sdk_find w query top_k = Ok (JObj d) ->
       dict_get d (lit "hits") = Some (JArr sources) ->
       sources <> [] -> Forall well_formed_hit sources ->
       exists hits,
         MemvidMemory.search w true query top_k snippet_chars = Ok (JArr hits)
         /\ Forall2 copied_hit sources hits
         /\ InfrastructureRAG.retrieve py_repr w true top_k snippet_chars
                                       query
            = Ok (context_block py_repr hits (map score_text sources))
         /\ map hit_text hits = map hit_text sources
         /\ map (hit_title py_repr) hits
            = map (untitled_title py_repr) sources.
Proof.
  split.
  - unfold MemvidMemory.search, MemvidMemory.sdk_search.
    destruct (MemvidMemory.sdk_find w query top_k) as [response |];
      cbn [bind]; [| exists []; split; [reflexivity | constructor]].
    destruct response;
      try (exists []; split; [reflexivity | constructor]).
    destruct (MemvidMemory.iterate _) as [items |]; cbn [bind];
      [| exists []; split; [reflexivity | constructor]].
    destruct (MemvidMemory.map_result MemvidMemory.project items)
      as [hits |] eqn:Hmap; cbn [bind];
      [| exists []; split; [reflexivity | constructor]].
    exists hits. split; [reflexivity|].
    exact (proj1 (projected_hits _ _ Hmap)).
  - intros d sources Hfind Hhits Hne Hwf.
    destruct (map_project sources (well_formed_is_dict _ Hwf))
      as [hits [Hmap Hcopy]].
    destruct (copied_hits_written py_repr _ _ Hcopy Hwf)
      as [Hwf' [Hscores [Htexts Htitles]]].
    assert (Hsearch : MemvidMemory.search w true query top_k snippet_chars
                      = Ok (JArr hits)).
    { unfold MemvidMemory.search, MemvidMemory.sdk_search.
      rewrite Hfind. cbn [bind]. unfold get_default. rewrite Hhits.
      cbn [MemvidMemory.iterate bind]. rewrite Hmap. reflexivity. }
    exists hits. split; [exact Hsearch|]. split; [exact Hcopy|].
    split; [| split; assumption].
    unfold InfrastructureRAG.retrieve. rewrite Hsearch. cbn [bind].
    rewrite <- Hscores.
    destruct hits as [| hit hits].
    + inversion Hcopy. subst. congruence.
    + apply format_results_well_formed. exact Hwf'.
Qed.

Lemma sdk_hits_have_four_fields_witness :
  InfrastructureRAG.retrieve
    (fun _ => [])
    (memory_world (Ok (JObj [(lit "hits", JArr two_hits)]))
                  (Cli.RunRaises FileNotFoundError))
    true 5 500 (lit "aks")
  = Ok (lit "### Document 1: AKS (relevance: 0.92)" ++ [10%N]
        ++ lit "Use az." ++ [10%N]
        ++ [10%N]
        ++ lit "### Document 2:  (relevance: 0.12)" ++ [10%N]
        ++ lit "Plan first." ++ [10%N]).
Proof.
  destruct (proj2 (sdk_hits_have_four_fields
                     (fun _ => [])
                     (memory_world (Ok (JObj [(lit "hits", JArr two_hits)]))
                                   (Cli.RunRaises FileNotFoundError))
                     (lit "aks") 5 500)
                  [(lit "hits", JArr two_hits)] two_hits eq_refl eq_refl)
    as [hits [Hsearch [_ [Hretrieve _]]]].
  - discriminate.
  - repeat constructor; eexists _, _, _;
      (split; [reflexivity|]); (split; [reflexivity|]);
      (split; [vm_compute; reflexivity | reflexivity]).
  - rewrite Hretrieve.
    assert (Hhits : MemvidMemory.search
                      (memory_world (Ok (JObj [(lit "hits", JArr two_hits)]))
                                    (Cli.RunRaises FileNotFoundError))
                      true (lit "aks") 5 500
                    = Ok (JArr hits)) by exact Hsearch.
    vm_compute in Hhits. injection Hhits as <-. vm_compute. reflexivity.
Defined.



(** * The ingestion tool *)

Section MainFacts.

Variable w : IngestMain.World.
Variable args : IngestMain.Args.

Lemma existsb_touches_app (l1 l2 : list IngestMain.event) :
  existsb touches_store (l1 ++ l2)
  = existsb touches_store l1 || existsb touches_store l2.
Proof. apply existsb_app. Qed.

(** What [store] answers, for documents already loaded. *)
Lemma store_outcomes (documents : list Loader.Document)
      (seen : list IngestMain.event) (r : result Z)
      (trace : list IngestMain.event) :
  documents = loaded_documents w args ->
  IngestMain.store w args documents seen = (r, trace) ->
  (exists done, trace = seen ++ done)
  /\ (forall code, r = Ok code -> code = 0 \/ code = 1)
  /\ (r = Ok 0 ->
      exists pre written n,
        trace = pre ++ [IngestMain.Ingested written]
        /\ ingestion_stored w args n written /\ (0 < n)%nat)
  /\ (r = Ok 1 ->
      forall written n, ingestion_stored w args n written -> n = 0%nat).
Proof.
  intros ->. unfold IngestMain.store, ingestion_stored.
  destruct (IngestMain.mkdir w) as [u | e].
  2:{ intros H. injection H as <- <-.
      split; [eexists; reflexivity|]. repeat split; discriminate. }
  set (after := if IngestMain.output_exists w then _ else _).
  destruct after as [done | e].
  2:{ intros H. injection H as <- <-.
      split; [eexists; reflexivity|]. repeat split; discriminate. }
  destruct (MemvidIngester.create_memory _ _) as [[created ingester'] t].
  destruct created; cbn [negb].
  2:{ intros H. injection H as <- <-.
      split; [eexists; reflexivity|].
      split; [intros code Hc; injection Hc as <-; right; reflexivity|].
      split; [discriminate|].
      intros _ written n [ingester [created [fs' [Hc _]]]]. discriminate Hc. }
  destruct (Ingest.ingest _ _ _ _) as [[[success | e] fs'] written] eqn:Hing.
  2:{ intros H. injection H as <- <-.
      split; [eexists; reflexivity|]. repeat split; discriminate. }
  intros H. injection H as <- <-.
  split; [eexists; reflexivity|]. split; [| split].
  - intros code Hc. injection Hc as <-.
    destruct (0 <? success)%nat; [left | right]; reflexivity.
  - intros Hz. exists (seen ++ done ++ [IngestMain.Created t]), written, success.
    split; [rewrite <- !app_assoc; reflexivity|].
    split; [exists ingester', t, fs'; split; [reflexivity | exact Hing]|].
    destruct (Nat.ltb_spec 0 success) as [Hpos | _];
      [exact Hpos | discriminate Hz].
  - intros Hone written' n [ingester [created [fs'' [Hc Hi]]]].
    injection Hc as <- <-. rewrite Hing in Hi. injection Hi as <- _ _.
    destruct (Nat.ltb_spec 0 success) as [_ | Hzero];
      [discriminate Hone | lia].
Qed.

Lemma load_and_store_outcomes (seen : list IngestMain.event) (r : result Z)
      (trace : list IngestMain.event) :
  existsb touches_store seen = false ->
  IngestMain.load_and_store w args seen = (r, trace) ->
  (forall code, r = Ok code -> code = 0 \/ code = 1)
  /\ (r = Ok 0 ->
      exists pre written n,
        trace = pre ++ [IngestMain.Ingested written]
        /\ ingestion_stored w args n written /\ (0 < n)%nat)
  /\ (r = Ok 1 ->
      forall written n, ingestion_stored w args n written ->
                        loaded_documents w args <> [] -> n = 0%nat)
  /\ (existsb touches_store trace = true ->
      exists n, (0 < n)%nat /\ In (IngestMain.Loaded n) trace).
Proof.
  intros Hseen. unfold IngestMain.load_and_store.
  fold (loaded_documents w args).
  destruct (loaded_documents w args) as [| doc rest] eqn:Hdocs.
  - intros H. injection H as <- <-.
    split; [intros code Hc; injection Hc as <-; right; reflexivity|].
    split; [discriminate|].
    split; [intros _ written n _ Hne; congruence|].
    rewrite existsb_touches_app, Hseen. discriminate.
  - intros H. apply store_outcomes in H; [| symmetry; exact Hdocs].
    destruct H as [[done ->] [Hcode [Hzero Hone]]].
    split; [exact Hcode|]. split; [exact Hzero|].
    split; [intros H1 written n Hst _; exact (Hone H1 written n Hst)|].
    intros _. exists (length (doc :: rest)). split; [simpl; lia|].
    apply in_or_app. left. apply in_or_app. right. left. reflexivity.
Qed.

End MainFacts.

(** X20: [main] of the ingestion tool, when it returns, answers 0 or 1; it
    answers 1 with no action at all when the input path does not exist; it
    answers 0 only when the user declined to overwrite the output, or the
    store was created and the ingestion of the loaded Documents stored at
    least one of them, which is then the last action; it answers 1, for an
    input that exists and gives Documents, only when no such ingestion
    stored any; and it never acts on the output (its directory, the old
    file, the creation, the ingestion) unless at least one document was
    loaded. *)
Theorem main_exit_codes (w : IngestMain.World) (args : IngestMain.Args)
        (r : result Z) (trace : list IngestMain.event) :
  IngestMain.main w args = (r, trace) ->
  (IngestMain.input_exists w = false -> r = Ok 1 /\ trace = [])
  /\ (forall code, r = Ok code -> code = 0 \/ code = 1)
  /\ (r = Ok 0 ->
      (declined w args /\ trace = [IngestMain.AskedOverwrite])
      \/ exists pre written n,
           trace = pre ++ [IngestMain.Ingested written]
           /\ ingestion_stored w args n written /\ (0 < n)%nat)
  /\ (r = Ok 1 ->
      IngestMain.input_exists w = true -> loaded_documents w args <> [] ->
      forall written n, ingestion_stored w args n written -> n = 0%nat)
  /\ (existsb touches_store trace = true ->
      exists n, (0 < n)%nat /\ In (IngestMain.Loaded n) trace).
Proof.
  unfold IngestMain.main.
  destruct (IngestMain.input_exists w); cbn [negb].
  2:{ intros H. injection H as <- <-.
      split; [auto|].
      split; [intros code Hc; injection Hc as <-; right; reflexivity|].
      split; [discriminate|]. split; discriminate. }
  assert (Hload : forall seen,
             existsb touches_store seen = false ->
             IngestMain.load_and_store w args seen = (r, trace) ->
             (true = false -> r = Ok 1 /\ trace = [])
             /\ (forall code, r = Ok code -> code = 0 \/ code = 1)
             /\ (r = Ok 0 ->
                 (declined w args /\ trace = [IngestMain.AskedOverwrite])
                 \/ exists pre written n,
                      trace = pre ++ [IngestMain.Ingested written]
                      /\ ingestion_stored w args n written /\ (0 < n)%nat)
             /\ (r = Ok 1 ->
                 true = true -> loaded_documents w args <> [] ->
                 forall written n,
                   ingestion_stored w args n written -> n = 0%nat)
             /\ (existsb touches_store trace = true ->
                 exists n, (0 < n)%nat /\ In (IngestMain.Loaded n) trace)).
  { intros seen Hseen H.
    destruct (load_and_store_outcomes w args seen r trace Hseen H)
      as [H1 [H2 [H3 H4]]].
    split; [discriminate|]. split; [exact H1|].
    split; [intros Hz; right; exact (H2 Hz)|].
    split; [| exact H4].
    intros Hone _ Hne written n Hst. exact (H3 Hone written n Hst Hne). }
  destruct (IngestMain.output_exists w && negb (IngestMain.force args))
    eqn:Hask; [| apply Hload; reflexivity].
  destruct (str_eqb _ (lit "y")) eqn:Hyes; [apply Hload; reflexivity|].
  intros H. injection H as <- <-.
  split; [discriminate|].
  split; [intros code Hc; injection Hc as <-; left; reflexivity|].
  split; [| split; discriminate].
  intros _. left. split; [| reflexivity].
  apply andb_true_iff in Hask. destruct Hask as [Hout Hforce].
  apply negb_true_iff in Hforce. repeat split; assumption.
Qed.

Lemma main_exit_codes_witness :
  exists trace,
    IngestMain.main main_world main_args = (Ok 0, trace)
    /\ exists pre written n,
         trace = pre ++ [IngestMain.Ingested written]
         /\ ingestion_stored main_world main_args n written /\ (0 < n)%nat.
Proof.
  eexists. split; [reflexivity|].
  destruct (proj1 (proj2 (proj2 (main_exit_codes main_world main_args _ _
                                   eq_refl))) eq_refl)
    as [[[Hout _] _] | H]; [discriminate Hout | exact H].
Defined.

(** X21: the Documents of one file carry, as [total_chunks], the number of
    Documents the file gave, and their locators name the chunks 1 to that
    number in the order of the Documents. *)
Theorem total_chunks_counts_documents
        (chunk_size chunk_overlap : Z) (fs : Loader.FileSystem)
        (p : Loader.Path) :
  let docs := Loader.load_file chunk_size chunk_overlap fs p in
  map Loader.uri docs = map (Loader.chunk_uri p) (seq 0 (length docs))
  /\ forall d, In d docs ->
       dict_get (Loader.tags d) (lit "total_chunks")
       = Some (str_of_nat (length docs)).
Proof.
  intros docs.
  destruct (load_file_numbered chunk_size chunk_overlap fs p)
    as [total [Huri Htags]].
  fold docs in Huri, Htags.
  assert (Hlen : length docs = total).
  { apply (f_equal (@length str)) in Huri.
    rewrite !length_map, length_seq in Huri. exact Huri. }
  rewrite Hlen. split; [exact Huri|].
  intros d Hd. destruct (Htags d Hd) as [i [_ [_ Ht]]]. exact Ht.
Qed.
